(** * VC Map dashboard (app.py): loader, tag parser, jitter and filter

    A shallow embedding of the data-shaping part of [app.py] (lines 17-85):
    the CSV loader with its header normalisation and coordinate coercion,
    the comma-separated tag parser, the coordinate jitter and the
    sector/stage filter, together with the Streamlit calls that decide
    whether the script goes on ([st.error], [st.warning], [st.stop]);
    and of the frame of the table (lines 92-99) and the two decisions of
    the detail panel (lines 173 and 179).

    Python [str] values are [string]s; a character stands for the code
    point of the same number (0..255). *)

From Stdlib Require Import List String Ascii Bool Arith ZArith Lia.
From Stdlib Require Import Floats.SpecFloat.
Import ListNotations.

Open Scope string_scope.
Open Scope list_scope.

(* ================================================================== *)
(** ** Python string methods used by the script *)
(* ================================================================== *)

Module PyStr.

(** [str.isspace] on one character, for code points below 256:
    TAB..CR, FS..US, SPACE, NEL (0x85) and NBSP (0xA0). *)
Definition isspace (c : ascii) : bool :=
  let n := nat_of_ascii c in
  (((9 <=? n) && (n <=? 13)) || ((28 <=? n) && (n <=? 32))
   || (n =? 133) || (n =? 160))%nat.

(** [s.lstrip()] *)
Fixpoint lstrip (s : string) : string :=
  match s with
  | EmptyString => EmptyString
  | String c t => if isspace c then lstrip t else s
  end.

(** [s.rstrip()] *)
Fixpoint rstrip (s : string) : string :=
  match s with
  | EmptyString => EmptyString
  | String c t =>
      match rstrip t with
      | EmptyString => if isspace c then EmptyString else String c EmptyString
      | r => String c r
      end
  end.

(** [s.strip()] *)
Definition strip (s : string) : string := rstrip (lstrip s).

(** Truth value of a [str]: the empty string is false. *)
Definition truthy (s : string) : bool :=
  match s with EmptyString => false | String _ _ => true end.

(** [s.split(sep)] for a one-character separator: every occurrence of
    [sep] ends a piece, so the result has one piece more than [s] has
    separators, and [""] gives [[""]]. *)
Fixpoint split (sep : ascii) (s : string) : list string :=
  match s with
  | EmptyString => [EmptyString]
  | String c t =>
      if Ascii.eqb c sep then EmptyString :: split sep t
      else match split sep t with
           | p :: ps => String c p :: ps
           | [] => [String c EmptyString]
           end
  end.

(** [sep.join(pieces)] *)
Definition join (sep : string) (pieces : list string) : string :=
  String.concat sep pieces.

(** every character of [s] is whitespace *)
Fixpoint blank (s : string) : bool :=
  match s with
  | EmptyString => true
  | String c t => isspace c && blank t
  end.

(** [c in s] for a character [c] *)
Fixpoint has_char (c : ascii) (s : string) : bool :=
  match s with
  | EmptyString => false
  | String d t => Ascii.eqb d c || has_char c t
  end.

(** last character of a string *)
Fixpoint last_char (s : string) : option ascii :=
  match s with
  | EmptyString => None
  | String c EmptyString => Some c
  | String _ t => last_char t
  end.

Definition first_char (s : string) : option ascii :=
  match s with EmptyString => None | String c _ => Some c end.

(** a string that [strip] leaves alone: it neither starts nor ends with
    whitespace *)
Definition trimmed (s : string) : bool :=
  match first_char s, last_char s with
  | Some a, Some b => negb (isspace a) && negb (isspace b)
  | _, _ => true
  end.

End PyStr.

(* ================================================================== *)
(** ** Tag parser (app.py lines 52-53, the lambda) *)
(* ================================================================== *)

(** [[s.strip() for s in x.split(",") if s.strip()]]: the comprehension
    walks the pieces in order and emits the stripped piece whenever it is
    truthy. *)
Fixpoint comprehension (pieces : list string) : list string :=
  match pieces with
  | [] => []
  | s :: rest =>
      if PyStr.truthy (PyStr.strip s)
      then PyStr.strip s :: comprehension rest
      else comprehension rest
  end.

Definition parse_tags (x : string) : list string :=
  comprehension (PyStr.split "," x).

(** The spec's wording of the same algorithm, kept apart from the code's:
    split on [","], trim each piece, then discard the pieces that became
    empty. *)
Definition split_trim_discard (x : string) : list string :=
  filter (fun p => negb (String.eqb p "")) (map PyStr.strip (PyStr.split "," x)).

(* ================================================================== *)
(** ** Streamlit: what the script shows, and whether it goes on *)
(* ================================================================== *)

(** Exceptions the modelled calls can raise.  Nothing in the script
    catches them (its only [except] is for [FileNotFoundError]), so a
    raised exception ends the run.  [DuplicateLabel c] stands for the
    exception the script runs into when it uses [df[c]] as a series
    while the label [c] occurs more than once, so that [df[c]] is a
    frame: [pd.to_numeric] refuses a frame, and on a frame with a row
    [apply] hands the lambda a whole column.
    [ReadError name] is an exception of [pd.read_csv] other than
    [FileNotFoundError], under the name of its class ([EmptyDataError]
    for an empty file, [ParserError], [UnicodeDecodeError],
    [PermissionError], ...).  [AttributeError] is what [x.split] raises
    when [x] is not text. *)
Inductive exn : Type :=
| KeyError (label : string)
| DuplicateLabel (label : string)
| TypeError
| ValueError
| AttributeError
| ReadError (name : string).

(** The messages the script shows in lines 17-85: [st.error] (lines 20
    and 37) and [st.warning] (line 79).  The sidebar's header, captions
    and widgets are not recorded; what the user selects there is an
    input ([Sidebar] below). *)
Inductive element : Type :=
| st_error (msg : string)
| st_warning (msg : string).

Inductive outcome (A : Type) : Type :=
| Done (a : A)          (* the script goes on with [a] *)
| Stopped               (* [st.stop()] *)
| Raised (e : exn).     (* uncaught exception *)

Arguments Done {A} a.
Arguments Stopped {A}.
Arguments Raised {A} e.

(** A script fragment: the elements it has written, and how it ended. *)
Definition App (A : Type) : Type := (list element * outcome A)%type.

Definition ret {A} (a : A) : App A := ([], Done a).
Definition raise {A} (e : exn) : App A := ([], Raised e).
Definition stop {A} : App A := ([], Stopped).
Definition emit (e : element) : App unit := ([e], Done tt).

Definition bind {A B} (m : App A) (k : A -> App B) : App B :=
  match m with
  | (out, Done a) => let (out', r) := k a in (out ++ out', r)
  | (out, Stopped) => (out, Stopped)
  | (out, Raised e) => (out, Raised e)
  end.

Notation "x <- m ;; k" := (bind m (fun x => k))
  (at level 61, m at next level, right associativity).
Notation "m ;;; k" := (bind m (fun _ => k))
  (at level 61, right associativity).

(* ================================================================== *)
(** ** pandas / numpy: the frame operations the script calls *)
(* ================================================================== *)

(** float64 values, as IEEE 754 binary64 data. *)
Definition float : Type := spec_float.
Definition prec : Z := 53.
Definition emax : Z := 1024.
Definition nan : float := S754_nan.
Definition fadd : float -> float -> float := SFadd prec emax.

Definition isnan (f : float) : bool :=
  match f with S754_nan => true | _ => false end.

Definition isinf (f : float) : bool :=
  match f with S754_infinity _ => true | _ => false end.

Definition isfinite (f : float) : bool :=
  match f with S754_zero _ | S754_finite _ _ _ => true | _ => false end.

(** The conversions between text and float64 (and from lists to text)
    that pandas and Python do for the script and whose digits the script
    never looks at.  They are left open; every statement below holds for
    any choice.
    - [parse_float s]: what [pd.to_numeric] makes of the text [s], [None]
      where it cannot, the case that [errors='coerce'] turns into NaN;
    - [repr_finite f]: [str(f)] for a finite [f];
    - [repr_list l]: [str(l)] for a list of strings;
    - [astype_missing]: what [Series.astype(str)] makes of a missing
      cell.  It depends on the pandas the script runs under: up to
      pandas 2 the cell becomes text, [Some "nan"]; from pandas 3 on
      [str] is the string dtype, which keeps a missing cell missing,
      [None]. *)
Class Conversions : Type := {
  parse_float : string -> option float;
  repr_finite : float -> string;
  repr_list : list string -> string;
  astype_missing : option string
}.

(** A cell of the frame [pd.read_csv] returns: text, or a float64, where
    NaN is also what a missing field reads as.  Integer fields are kept as
    the float of the same value. *)
Inductive cell : Type :=
| CStr (s : string)
| CFloat (f : float).

(** A cell once lines 52-53 have run: the untouched cells, and the tag
    lists of the Stage and Sector columns. *)
Inductive value : Type :=
| VCell (c : cell)
| VList (l : list string).

(** A frame: the column labels, and the rows, each with its index label
    and one entry per column. *)
Record DataFrame (A : Type) : Type := mkFrame {
  columns : list string;
  rows : list (nat * list A)
}.

Arguments mkFrame {A} columns rows.
Arguments columns {A} d.
Arguments rows {A} d.

(** [len(df)] *)
Definition len {A} (df : DataFrame A) : nat := List.length (rows df).

(** [label in df.columns] *)
Definition has_column (label : string) (cols : list string) : bool :=
  existsb (String.eqb label) cols.

(** positions at which [label] occurs among the columns *)
Fixpoint positions (label : string) (cols : list string) (from : nat) : list nat :=
  match cols with
  | [] => []
  | c :: cols' =>
      if String.eqb c label then from :: positions label cols' (S from)
      else positions label cols' (S from)
  end.

Section Frames.
Context {A : Type}.
Variable na : A.

(** the entry of a row in column number [j] *)
Definition entry (j : nat) (r : nat * list A) : A := nth j (snd r) na.

(** [df[label]] read as a series *)
Definition getitem (df : DataFrame A) (label : string) : App (list A) :=
  match positions label (columns df) 0 with
  | [] => raise (KeyError label)
  | [j] => ret (map (entry j) (rows df))
  | _ :: _ :: _ => raise (DuplicateLabel label)
  end.

(** a row with [v] written under every column called [label] *)
Fixpoint assign (cols : list string) (label : string) (v : A) (r : list A) : list A :=
  match cols, r with
  | c :: cols', x :: r' =>
      (if String.eqb c label then v else x) :: assign cols' label v r'
  | _, _ => r
  end.

(** [df[label] = series]: an existing label is overwritten (in every
    column that carries it), a new label is appended as the last
    column.  The series has one value per row. *)
Definition setitem (df : DataFrame A) (label : string) (series : list A)
  : App (DataFrame A) :=
  if negb (List.length series =? len df)%nat then raise ValueError
  else if has_column label (columns df) then
    ret (mkFrame (columns df)
           (map (fun rv => (fst (fst rv), assign (columns df) label (snd rv) (snd (fst rv))))
                (combine (rows df) series)))
  else
    ret (mkFrame (columns df ++ [label])
           (map (fun rv => (fst (fst rv), snd (fst rv) ++ [snd rv]))
                (combine (rows df) series))).

(** [df[mask]] for a boolean series *)
Fixpoint mask_rows (rs : list (nat * list A)) (mask : list bool) : list (nat * list A) :=
  match rs, mask with
  | r :: rs', b :: mask' =>
      if b then r :: mask_rows rs' mask' else mask_rows rs' mask'
  | _, _ => []
  end.

(** [pd.DataFrame(columns=df.columns)] *)
Definition empty_like (df : DataFrame A) : DataFrame A := mkFrame (columns df) [].

End Frames.

(** [pd.isna] on a cell *)
Definition isna (c : cell) : bool :=
  match c with CFloat f => isnan f | CStr _ => false end.

(** a row has a value in every column named in [subset] *)
Fixpoint complete (cols subset : list string) (r : list cell) : bool :=
  match cols, r with
  | c :: cols', x :: r' =>
      (if has_column c subset then negb (isna x) else true) && complete cols' subset r'
  | _, _ => true
  end.

(** [df.dropna(subset=...)] *)
Definition dropna (df : DataFrame cell) (subset : list string) : App (DataFrame cell) :=
  match find (fun c => negb (has_column c (columns df))) subset with
  | Some c => raise (KeyError c)
  | None =>
      ret (mkFrame (columns df)
             (filter (fun r => complete (columns df) subset (snd r)) (rows df)))
  end.

Section Conversion.
Context {conv : Conversions}.

(** [pd.to_numeric(series, errors='coerce')], one cell at a time *)
Definition to_numeric_cell (c : cell) : float :=
  match c with
  | CFloat f => f
  | CStr s => match parse_float s with Some f => f | None => nan end
  end.

Definition coerced (c : cell) : cell := CFloat (to_numeric_cell c).

Definition to_numeric (series : list cell) : list cell := map coerced series.

(** [str(f)] for a float *)
Definition str_float (f : float) : string :=
  match f with
  | S754_nan => "nan"
  | S754_infinity false => "inf"
  | S754_infinity true => "-inf"
  | _ => repr_finite f
  end.

(** [str(c)] for a cell, which is also what [.astype(str)] writes for a
    cell that is not missing *)
Definition astype_str (c : cell) : string :=
  match c with
  | CStr s => s
  | CFloat f => str_float f
  end.

Definition astype_str_value (v : value) : string :=
  match v with
  | VCell c => astype_str c
  | VList l => repr_list l
  end.

(** [.astype(str)], one cell at a time: the text it writes, [None] for
    a missing cell that it leaves missing. *)
Definition astype_text (v : value) : option string :=
  match v with
  | VCell c => if isna c then astype_missing else Some (astype_str c)
  | VList l => Some (repr_list l)
  end.

End Conversion.

(** [series + array] on a float64 column *)
Fixpoint series_add (series : list cell) (arr : list float) : App (list cell) :=
  match series, arr with
  | CFloat f :: series', u :: arr' =>
      rest <- series_add series' arr' ;;
      ret (CFloat (fadd f u) :: rest)
  | CStr _ :: _, _ :: _ => raise TypeError
  | [], [] => ret []
  | _, _ => raise ValueError
  end.

(** The process-wide numpy generator, as the draws it will hand out. *)
Definition Generator : Type := nat -> float.

(** [np.random.uniform(-0.002, 0.002, n)]: the next [n] draws, and the
    generator after them.  Which floats the generator hands out is left
    open; that they lie in the range is [in_range] below. *)
Definition uniform (g : Generator) (n : nat) : list float * Generator :=
  (map g (seq 0 n), fun i => g (n + i)%nat).

(* ================================================================== *)
(** ** The script, lines 15-85 *)
(* ================================================================== *)

Definition DATA_PATH : string := "VC_Map_Final_Reliable.csv".

(** What [pd.read_csv(DATA_PATH)] finds: no file, a file it cannot
    read (it raises the exception named [error], which is not
    [FileNotFoundError]), or a parsed table with its header and its
    records. *)
Inductive csv_file : Type :=
| FileNotFound
| Unreadable (error : string)
| Table (header : list string) (records : list (list cell)).

(** pandas frames are rectangular: one field per header in every record. *)
Definition rectangular (header : list string) (records : list (list cell)) : bool :=
  forallb (fun r => (List.length r =? List.length header)%nat) records.

(** Lines 17-21. The frame gets the index 0, 1, 2, ... *)
Definition read_csv (file : csv_file) : App (DataFrame cell) :=
  match file with
  | FileNotFound =>
      emit (st_error ("Data file not found: " ++ DATA_PATH
                      ++ ". Please upload the 'VC_Map_Final_Reliable.csv' file.")) ;;;
      stop
  | Unreadable error => raise (ReadError error)
  | Table header records =>
      ret (mkFrame header (combine (seq 0 (List.length records)) records))
  end.

(** Line 24: [df.columns = df.columns.str.strip()] *)
Definition strip_columns {A} (df : DataFrame A) : DataFrame A :=
  mkFrame (map PyStr.strip (columns df)) (rows df).

(** The dict of lines 27-33. *)
Definition RENAME : list (string * string) :=
  [ ("Name", "name");
    ("Lat", "latitude");
    ("Long", "longitude");
    ("Latitude", "latitude");
    ("Longitude", "longitude") ].

Fixpoint lookup (key : string) (d : list (string * string)) : option string :=
  match d with
  | [] => None
  | (k, v) :: d' => if String.eqb k key then Some v else lookup key d'
  end.

(** [df.rename(columns=mapper)]: labels that are keys are replaced, the
    others stay. *)
Definition rename {A} (mapper : list (string * string)) (df : DataFrame A) : DataFrame A :=
  mkFrame
    (map (fun c => match lookup c mapper with Some c' => c' | None => c end) (columns df))
    (rows df).

(** Lines 24-33 together. *)
Definition normalize_columns {A} (df : DataFrame A) : DataFrame A :=
  rename RENAME (strip_columns df).

(** The spec's wording of the header aliases: [Name] becomes [name],
    [Lat] and [Latitude] become [latitude], [Long] and [Longitude] become
    [longitude], any other header is left as it is. *)
Definition canonical_name (h : string) : string :=
  if String.eqb h "Name" then "name"
  else if String.eqb h "Lat" || String.eqb h "Latitude" then "latitude"
  else if String.eqb h "Long" || String.eqb h "Longitude" then "longitude"
  else h.

(** The header a raw header resolves to: trimmed, then renamed. *)
Definition resolves_to (h : string) : string := canonical_name (PyStr.strip h).

Definition SCHEMA_MESSAGE : string :=
  "CSV must contain 'latitude' and 'longitude' columns.".

(** Lines 36-38. *)
Definition validate (df : DataFrame cell) : App unit :=
  if negb (has_column "latitude" (columns df))
     || negb (has_column "longitude" (columns df))
  then emit (st_error SCHEMA_MESSAGE) ;;; stop
  else ret tt.

(** The [subset] of line 43. *)
Definition COORDINATES : list string := ["latitude"; "longitude"].

Section Script.
Context {conv : Conversions}.

(** Lines 41-43. *)
Definition coerce_coordinates (df : DataFrame cell) : App (DataFrame cell) :=
  lat <- getitem (CFloat nan) df "latitude" ;;
  df <- setitem df "latitude" (to_numeric lat) ;;
  lon <- getitem (CFloat nan) df "longitude" ;;
  df <- setitem df "longitude" (to_numeric lon) ;;
  dropna df COORDINATES.

(** The loader: lines 17-43. *)
Definition load (file : csv_file) : App (DataFrame cell) :=
  df <- read_csv file ;;
  let df := normalize_columns df in
  validate df ;;;
  coerce_coordinates df.

(** Lines 46-47. *)
Definition add_jitter (g : Generator) (df : DataFrame cell)
  : App (DataFrame cell * Generator) :=
  lat <- getitem (CFloat nan) df "latitude" ;;
  let (u, g) := uniform g (len df) in
  jit <- series_add lat u ;;
  df <- setitem df "lat_jitter" jit ;;
  lon <- getitem (CFloat nan) df "longitude" ;;
  let (u, g) := uniform g (len df) in
  jit <- series_add lon u ;;
  df <- setitem df "lon_jitter" jit ;;
  ret (df, g).

(** From line 52 on some cells hold lists. *)
Definition to_values (df : DataFrame cell) : DataFrame value :=
  mkFrame (columns df) (map (fun r => (fst r, map VCell (snd r))) (rows df)).

(** The tag parser on the text of a cell: [str], then the lambda. *)
Definition tag_parser (v : value) : value :=
  VList (parse_tags (astype_str_value v)).

(** One cell through [.astype(str).apply(lambda x: ...)]: the lambda
    parses the text [astype] wrote; a cell that [astype] left missing
    reaches it as a float, on which [x.split] raises. *)
Definition parse_cell (v : value) : App value :=
  match astype_text v with
  | Some x => ret (VList (parse_tags x))
  | None => raise AttributeError
  end.

(** [astype(str)] writes a text for the cell. *)
Definition writable (v : value) : bool :=
  match astype_text v with Some _ => true | None => false end.

(** What [parse_cell] returns where it returns. *)
Definition parsed (v : value) : value :=
  match astype_text v with
  | Some x => VList (parse_tags x)
  | None => v
  end.

(** [series.astype(str).apply(lambda x: ...)] *)
Fixpoint apply_parser (series : list value) : App (list value) :=
  match series with
  | [] => ret []
  | v :: series' =>
      tags <- parse_cell v ;;
      rest <- apply_parser series' ;;
      ret (tags :: rest)
  end.

(** One of lines 52, 53. *)
Definition clean_column (label : string) (df : DataFrame value) : App (DataFrame value) :=
  col <- getitem (VCell (CFloat nan)) df label ;;
  parsed <- apply_parser col ;;
  setitem df label parsed.

(** Lines 52-53. *)
Definition clean_tags (df : DataFrame cell) : App (DataFrame value) :=
  df <- clean_column "Stage" (to_values df) ;;
  clean_column "Sector" df.

(** Lines 17-53: the dataset the sidebar and the filter work on. *)
Definition prepare (file : csv_file) (g : Generator) : App (DataFrame value) :=
  df <- load file ;;
  dg <- add_jitter g df ;;
  clean_tags (fst dg).

End Script.

(** one-character strings of a string: what iterating a [str] yields *)
Fixpoint chars (s : string) : list string :=
  match s with
  | EmptyString => []
  | String c t => String c EmptyString :: chars t
  end.

(** [for s in sublist]: a list yields its items, a string its
    characters, a float is not iterable. *)
Definition iterate (v : value) : App (list string) :=
  match v with
  | VList l => ret l
  | VCell (CStr s) => ret (chars s)
  | VCell (CFloat _) => raise TypeError
  end.

(** [s in selected] *)
Definition contains (selected : list string) (s : string) : bool :=
  existsb (String.eqb s) selected.

(** [any(s in selected for s in tags)] *)
Definition any_in (selected : list string) (tags : list string) : bool :=
  existsb (contains selected) tags.

(** [series.apply(lambda tags: any(s in selected for s in tags))] *)
Fixpoint apply_any (selected : list string) (series : list value) : App (list bool) :=
  match series with
  | [] => ret []
  | v :: series' =>
      tags <- iterate v ;;
      rest <- apply_any selected series' ;;
      ret (any_in selected tags :: rest)
  end.

(** [a & b] on two boolean series over the same index *)
Definition series_and (a b : list bool) : list bool :=
  map (fun p => fst p && snd p) (combine a b).

(** [{s for sublist in series for s in sublist}], in order of first
    occurrence *)
Fixpoint flatten (series : list value) : App (list string) :=
  match series with
  | [] => ret []
  | v :: series' =>
      tags <- iterate v ;;
      rest <- flatten series' ;;
      ret (tags ++ rest)
  end.

Fixpoint insert_sorted (s : string) (l : list string) : list string :=
  match l with
  | [] => [s]
  | x :: l' => if String.leb s x then s :: l else x :: insert_sorted s l'
  end.

(** [sorted(set(l))] *)
Definition sorted_set (l : list string) : list string :=
  fold_right insert_sorted [] (nodup string_dec l).

(** Lines 60, 63. *)
Definition all_tags (df : DataFrame value) (label : string) : App (list string) :=
  col <- getitem (VCell (CFloat nan)) df label ;;
  tags <- flatten col ;;
  ret (sorted_set tags).

(** The user at the two multiselect boxes: from the options offered to
    the options selected. *)
Record Sidebar : Type := {
  choose_sectors : list string -> list string;
  choose_stages : list string -> list string
}.

(** The boxes as first shown ([default] = all options). *)
Definition untouched : Sidebar :=
  {| choose_sectors := fun options => options;
     choose_stages := fun options => options |}.

(** Lines 60-64. *)
Definition sidebar (user : Sidebar) (df : DataFrame value)
  : App (list string * list string) :=
  all_sectors <- all_tags df "Sector" ;;
  let selected_sectors := choose_sectors user all_sectors in
  all_stages <- all_tags df "Stage" ;;
  let selected_stages := choose_stages user all_stages in
  ret (selected_sectors, selected_stages).

Definition EMPTY_SELECTION_MESSAGE : string :=
  "Please select at least one Sector and Stage.".

(** truth value of a list *)
Definition nonempty {A} (l : list A) : bool :=
  match l with [] => false | _ :: _ => true end.

(** Lines 78-85: the filter. *)
Definition filtered_df (df : DataFrame value) (selected_sectors selected_stages : list string)
  : App (DataFrame value) :=
  if negb (nonempty selected_sectors) || negb (nonempty selected_stages) then
    emit (st_warning EMPTY_SELECTION_MESSAGE) ;;;
    ret (empty_like df)
  else
    sectors <- getitem (VCell (CFloat nan)) df "Sector" ;;
    in_sectors <- apply_any selected_sectors sectors ;;
    stages <- getitem (VCell (CFloat nan)) df "Stage" ;;
    in_stages <- apply_any selected_stages stages ;;
    ret (mkFrame (columns df) (mask_rows (rows df) (series_and in_sectors in_stages))).

Section Run.
Context {conv : Conversions}.

(** Lines 17-85. *)
Definition script (file : csv_file) (g : Generator) (user : Sidebar)
  : App (DataFrame value) :=
  df <- prepare file g ;;
  selected <- sidebar user df ;;
  filtered_df df (fst selected) (snd selected).

End Run.

(* ================================================================== *)
(** ** Sample data *)
(* ================================================================== *)

(** Conversions for the samples.  The sample tables hold their
    coordinates as floats and their tags as text, so [repr_finite] and
    [repr_list] are never called, and the only text [parse_float] sees is
    a field that is not a number.  A missing cell is written [nan], as
    up to pandas 2. *)
Definition sample_conversions : Conversions :=
  {| parse_float := fun _ => None;
     repr_finite := fun _ => EmptyString;
     repr_list := fun _ => EmptyString;
     astype_missing := Some "nan" |}.

(** The same with the missing cells kept missing, as from pandas 3 on. *)
Definition keeping_conversions : Conversions :=
  {| parse_float := fun _ => None;
     repr_finite := fun _ => EmptyString;
     repr_list := fun _ => EmptyString;
     astype_missing := None |}.

(** 37.77, -122.41, 40.71, -74.0 as binary64 *)
Definition f_37_77 : float := S754_finite false 5315654935180739 (-47).
Definition f_m122_41 : float := S754_finite true 8613837974787850 (-46).
Definition f_40_71 : float := S754_finite false 5729423150945403 (-47).
Definition f_m74 : float := S754_finite true 5207287069147136 (-46).
(** 0.001 and -0.0015 *)
Definition f_0_001 : float := S754_finite false 4611686018427388 (-62).
Definition f_m0_0015 : float := S754_finite true 6917529027641082 (-62).

(** The two firms of the spec's end-to-end scenario, a third firm whose
    latitude is not a number and a fourth whose longitude is missing. *)
Definition sample_header : list string :=
  ["name"; " Lat"; "Long "; "Sector"; "Stage"].

Definition sample_records : list (list cell) :=
  [ [CStr "Acme VC"; CFloat f_37_77; CFloat f_m122_41; CStr "Fintech, SaaS"; CStr "Seed"];
    [CStr "Beta Capital"; CFloat f_40_71; CFloat f_m74; CStr "Healthcare"; CStr "Series A"];
    [CStr "Gamma"; CStr "n/a"; CFloat f_m74; CStr "Fintech"; CStr "Seed"];
    [CStr "Delta"; CFloat f_40_71; CFloat nan; CStr "Fintech"; CFloat nan] ].

Definition sample_table : csv_file := Table sample_header sample_records.

(** A table with no column for the longitude. *)
Definition no_longitude_header : list string := ["Name"; "Lat"; "Sector"; "Stage"].

Definition no_longitude_records : list (list cell) :=
  [ [CStr "Acme VC"; CFloat f_37_77; CStr "Fintech, SaaS"; CStr "Seed"] ].

Definition no_longitude_table : csv_file :=
  Table no_longitude_header no_longitude_records.

(** A table whose one record has an infinite latitude (the field [inf]). *)
Definition infinite_table : csv_file :=
  Table ["name"; "latitude"; "longitude"; "Sector"; "Stage"]
    [ [CStr "Far away"; CFloat (S754_infinity false); CFloat f_m74; CStr "SaaS"; CStr "Seed"] ].

(** Two generators. *)
Definition sample_generator : Generator :=
  fun i => if Nat.even i then f_0_001 else f_m0_0015.
Definition other_generator : Generator :=
  fun i => if Nat.even i then f_m0_0015 else f_0_001.

(* ================================================================== *)
(** ** Records of a frame *)
(* ================================================================== *)

(** Every row has one entry per column. *)
Definition rect {A} (df : DataFrame A) : Prop :=
  Forall (fun r => List.length (snd r) = List.length (columns df)) (rows df).

(** The entry of a record under a label, when the label names exactly
    one column. *)
Definition field {A} (na : A) (df : DataFrame A) (label : string) (r : nat * list A)
  : option A :=
  match positions label (columns df) 0 with
  | [j] => Some (entry na j r)
  | _ => None
  end.

Definition cell_field := @field cell (CFloat nan).
Definition value_field := @field value (VCell (CFloat nan)).

(** The index labels of a frame. *)
Definition index {A} (df : DataFrame A) : list nat := map fst (rows df).

(** The row [r] with [f] of its entry in column [j] written under
    [label]: what [df[label] = df[label].apply(f)] does to one row. *)
Definition rewrite_entry {A} (na : A) (cols : list string) (label : string)
  (f : A -> A) (j : nat) (r : nat * list A) : nat * list A :=
  (fst r, assign cols label (f (entry na j r)) (snd r)).

(** A parsed file is well formed when its table is rectangular. *)
Definition well_formed (file : csv_file) : bool :=
  match file with
  | FileNotFound => true
  | Unreadable _ => true
  | Table header records => rectangular header records
  end.

(** A coordinate field that is missing (NaN) or that [pd.to_numeric]
    cannot read. *)
Definition bad_coordinate {conv : Conversions} (c : cell) : bool :=
  match c with
  | CFloat f => isnan f
  | CStr s => match parse_float s with Some _ => false | None => true end
  end.

(** The filter's condition on one record: some tag of its Sector list is
    selected and some tag of its Stage list is selected. *)
Definition selected_by (df : DataFrame value) (selected_sectors selected_stages : list string)
  (r : nat * list value) : bool :=
  match value_field df "Sector" r, value_field df "Stage" r with
  | Some (VList sectors), Some (VList stages) =>
      any_in selected_sectors sectors && any_in selected_stages stages
  | _, _ => false
  end.

(** A frame as lines 52-53 leave it: one Sector column and one Stage
    column, and a list of tags under each in every record. *)
Definition tagged (df : DataFrame value) : Prop :=
  (exists js, positions "Sector" (columns df) 0 = [js])
  /\ (exists jt, positions "Stage" (columns df) 0 = [jt])
  /\ forall r, In r (rows df) ->
       exists sectors stages,
         value_field df "Sector" r = Some (VList sectors)
         /\ value_field df "Stage" r = Some (VList stages).

(** The two columns of line 46-47. *)
Definition JITTER : list string := ["lat_jitter"; "lon_jitter"].

(** Two records of a frame with columns [cols]: the same index label,
    one entry per column, and the same entry in every column that is not
    named in [hidden]. *)
Definition same_record {A} (hidden cols : list string) (r1 r2 : nat * list A) : Prop :=
  fst r1 = fst r2
  /\ List.length (snd r1) = List.length cols
  /\ List.length (snd r2) = List.length cols
  /\ forall j c, nth_error cols j = Some c -> ~ In c hidden ->
                 nth_error (snd r1) j = nth_error (snd r2) j.

(** Two frames with the same columns and, row by row, the same records
    outside the [hidden] columns. *)
Definition same_records {A} (hidden : list string) (df1 df2 : DataFrame A) : Prop :=
  columns df1 = columns df2
  /\ Forall2 (same_record hidden (columns df1)) (rows df1) (rows df2).

(** Two script fragments that wrote the same elements and ended the same
    way, with results related by [R] when they went on. *)
Definition related {A} (R : A -> A -> Prop) (a b : App A) : Prop :=
  fst a = fst b
  /\ match snd a, snd b with
     | Done x, Done y => R x y
     | Stopped, Stopped => True
     | Raised e1, Raised e2 => e1 = e2
     | _, _ => False
     end.

(** Two runs that cannot be told apart outside the [hidden] columns. *)
Definition same_result {A} (hidden : list string) (a b : App (DataFrame A)) : Prop :=
  related (same_records hidden) a b.

(* ================================================================== *)
(** ** The samples, loaded *)
(* ================================================================== *)

(** A table whose first firm has a Sector field of separators only, so
    that its Sector list is empty. *)
Definition untagged_table : csv_file :=
  Table ["name"; "Lat"; "Long"; "Sector"; "Stage"]
    [ [CStr "Untagged"; CFloat f_37_77; CFloat f_m122_41; CStr " , "; CStr "Seed"];
      [CStr "Beta Capital"; CFloat f_40_71; CFloat f_m74; CStr "Healthcare"; CStr "Series A"] ].

Definition frame_of {A} (run : App (DataFrame A)) : DataFrame A :=
  match run with
  | (_, Done df) => df
  | _ => mkFrame [] []
  end.

(** The sample table after the loader (lines 17-43). *)
Definition sample_loaded : DataFrame cell :=
  Eval vm_compute in frame_of (@load sample_conversions sample_table).

(** The sample table after lines 17-53. *)
Definition sample_prepared : DataFrame value :=
  Eval vm_compute in frame_of (@prepare sample_conversions sample_table sample_generator).

Definition untagged_prepared : DataFrame value :=
  Eval vm_compute in frame_of (@prepare sample_conversions untagged_table sample_generator).

(** The first record of [untagged_prepared]. *)
Definition untagged_record : nat * list value :=
  Eval vm_compute in hd (0, []) (rows untagged_prepared).

(** The table with the infinite latitude after the loader. *)
Definition infinite_loaded : DataFrame cell :=
  Eval vm_compute in frame_of (@load sample_conversions infinite_table).

(* ================================================================== *)
(** ** Further readings of the script *)
(* ================================================================== *)

(** The message of line 20. *)
Definition DATA_MESSAGE : string :=
  "Data file not found: VC_Map_Final_Reliable.csv. Please upload the 'VC_Map_Final_Reliable.csv' file.".

(** How many columns carry a label. *)
Definition occurrences (label : string) (cols : list string) : nat :=
  count_occ string_dec cols label.

(** A tag as the parser leaves it: not empty, no whitespace at either
    end, no comma. *)
Definition clean_tag (t : string) : Prop :=
  t <> EmptyString /\ PyStr.trimmed t = true /\ PyStr.has_char "," t = false.

(** A record with at least one Sector tag and at least one Stage tag. *)
Definition has_tags (df : DataFrame value) (r : nat * list value) : bool :=
  match value_field df "Sector" r, value_field df "Stage" r with
  | Some (VList (_ :: _)), Some (VList (_ :: _)) => true
  | _, _ => false
  end.

(** A coordinate field that [pd.to_numeric] turns into a number other
    than NaN: the fields that survive line 43. *)
Definition numeric {conv : Conversions} (c : cell) : bool :=
  negb (isnan (to_numeric_cell c)).

(** Some record of the frame has no value under [label], a label of
    one column. *)
Definition lacks_value (df : DataFrame cell) (label : string) : bool :=
  existsb (fun r => match cell_field df label r with
                    | Some c => isna c
                    | None => false
                    end) (rows df).

(** The parser raises on the column [label]: the column has a missing
    cell and [astype(str)] leaves missing cells missing. *)
Definition parser_raises {conv : Conversions} (df : DataFrame cell) (label : string)
  : bool :=
  match astype_missing with
  | None => lacks_value df label
  | Some _ => false
  end.

(** The field number [j] of record number [k] of a table. *)
Definition field_at (records : list (list cell)) (k j : nat) : cell :=
  nth j (nth k records []) (CFloat nan).

(* ================================================================== *)
(** ** The table and the detail panel, lines 92-99 and 173-180 *)
(* ================================================================== *)

(** The lambda of lines 93-94, [", ".join(x)]: a list is joined, a
    string is joined character by character, a float is not iterable. *)
Definition join_tags (v : value) : App value :=
  tags <- iterate v ;;
  ret (VCell (CStr (PyStr.join ", " tags))).

(** [series.apply(lambda x: ", ".join(x))] *)
Fixpoint apply_join (series : list value) : App (list value) :=
  match series with
  | [] => ret []
  | v :: series' =>
      s <- join_tags v ;;
      rest <- apply_join series' ;;
      ret (s :: rest)
  end.

(** One of lines 93, 94: [df[target] = df[source].apply(...)]. *)
Definition add_joined (source target : string) (df : DataFrame value)
  : App (DataFrame value) :=
  col <- getitem (VCell (CFloat nan)) df source ;;
  joined <- apply_join col ;;
  setitem df target joined.

(** Lines 92-94. *)
Definition display_df (filtered : DataFrame value) : App (DataFrame value) :=
  df <- add_joined "Stage" "Stage_Str" filtered ;;
  add_joined "Sector" "Sector_Str" df.

(** The labels of line 97. *)
Definition TABLE_COLUMNS : list string :=
  ["name"; "Address"; "City"; "Sector_Str"; "Stage_Str"; "Website"].

(** [df[labels]] for a list of labels: for each label in turn, every
    column that carries it; a label that is no column raises [KeyError]
    (recorded with the first such label). *)
Definition select_columns {A} (na : A) (df : DataFrame A) (labels : list string)
  : App (DataFrame A) :=
  match find (fun c => negb (has_column c (columns df))) labels with
  | Some c => raise (KeyError c)
  | None =>
      ret (mkFrame
             (flat_map (fun c => map (fun _ => c) (positions c (columns df) 0)) labels)
             (map (fun r =>
                     (fst r,
                      flat_map (fun c => map (fun j => entry na j r)
                                             (positions c (columns df) 0)) labels))
                  (rows df)))
  end.

(** Lines 92-99: the frame handed to [st.dataframe]. *)
Definition table (filtered : DataFrame value) : App (DataFrame value) :=
  df <- display_df filtered ;;
  select_columns (VCell (CFloat nan)) df TABLE_COLUMNS.

(** [str.lower] on one character, for code points below 256: A-Z, and
    the capital letters from 0xC0 to 0xDE without the sign 0xD7. *)
Definition lower_char (c : ascii) : ascii :=
  let n := nat_of_ascii c in
  if (((65 <=? n) && (n <=? 90))
      || ((192 <=? n) && (n <=? 222) && negb (n =? 215)))%nat
  then ascii_of_nat (n + 32)
  else c.

(** [s.lower()] *)
Fixpoint lower (s : string) : string :=
  match s with
  | EmptyString => EmptyString
  | String c t => String (lower_char c) (lower t)
  end.

(** The condition of line 179 on the selected row's Website entry,
    [None] when the row has no such label: [.get("Website", "")] then
    gives [""], which is not missing, and [vc_info["Website"]] raises. *)
Definition shows_link {conv : Conversions} (website : option cell) : App bool :=
  match website with
  | None => raise (KeyError "Website")
  | Some c => ret (negb (isna c) && negb (String.eqb (lower (astype_str c)) "nan"))
  end.

(** [display_df["name"] == selected_vc], one entry at a time: text
    equals text, a float equals a float as IEEE numbers (NaN equals
    nothing), and nothing else is equal. *)
Definition same_name (selected_vc : cell) (v : value) : bool :=
  match selected_vc, v with
  | CStr s, VCell (CStr t) => String.eqb t s
  | CFloat f, VCell (CFloat h) => SFeqb h f
  | _, _ => false
  end.

(** What [.iloc[0]] gives: the first row, or [IndexError] on no row. *)
Inductive first_row : Type :=
| Row (r : nat * list value)
| IndexError.

(** Line 173: [display_df[display_df["name"] == selected_vc].iloc[0]]. *)
Definition vc_info (display : DataFrame value) (selected_vc : cell) : App first_row :=
  names <- getitem (VCell (CFloat nan)) display "name" ;;
  match mask_rows (rows display) (map (same_name selected_vc) names) with
  | r :: _ => ret (Row r)
  | [] => ret IndexError
  end.

(** The text lines 93-94 make of a tag list. *)
Definition tags_text (v : value) : string :=
  match v with
  | VList l => PyStr.join ", " l
  | VCell _ => EmptyString
  end.

(** The labels line 97 needs from the file. *)
Definition REQUIRED_BY_TABLE : list string := ["name"; "Address"; "City"; "Website"].

(** The texts that read [nan] once lowered. *)
Definition NAN_TEXTS : list string :=
  ["nan"; "naN"; "nAn"; "nAN"; "Nan"; "NaN"; "NAn"; "NAN"].

(* ================================================================== *)
(** ** A sample with the columns of the table *)
(* ================================================================== *)

(** Three firms, two of them under the same name, the second without a
    website. *)
Definition directory_header : list string :=
  ["Name"; "Address"; "City"; "Lat"; "Long"; "Sector"; "Stage"; "Website"].

Definition directory_records : list (list cell) :=
  [ [CStr "Acme VC"; CStr "1 Market St"; CStr "San Francisco"; CFloat f_37_77;
     CFloat f_m122_41; CStr "Fintech, SaaS"; CStr "Seed"; CStr "https://acme.example"];
    [CStr "Beta Capital"; CStr "5 Wall St"; CStr "New York"; CFloat f_40_71;
     CFloat f_m74; CStr "Healthcare"; CStr "Series A"; CFloat nan];
    [CStr "Acme VC"; CStr "9 Broadway"; CStr "New York"; CFloat f_40_71;
     CFloat f_m74; CStr "Fintech"; CStr "Seed, Series A"; CStr "NAN"] ].

Definition directory_table : csv_file := Table directory_header directory_records.

Definition directory_prepared : DataFrame value :=
  Eval vm_compute in
    frame_of (@prepare sample_conversions directory_table sample_generator).

(** The directory filtered by Fintech and Seed: the two firms called
    Acme VC. *)
Definition directory_filtered : DataFrame value :=
  Eval vm_compute in frame_of (filtered_df directory_prepared ["Fintech"] ["Seed"]).

(** The frame of lines 92-94 for that filter result. *)
Definition directory_display : DataFrame value :=
  Eval vm_compute in frame_of (display_df directory_filtered).

(** A table whose second firm has no Stage. *)
Definition stageless_table : csv_file :=
  Table ["name"; "Lat"; "Long"; "Sector"; "Stage"]
    [ [CStr "Acme VC"; CFloat f_37_77; CFloat f_m122_41; CStr "Fintech"; CStr "Seed"];
      [CStr "Beta Capital"; CFloat f_40_71; CFloat f_m74; CStr "Healthcare"; CFloat nan] ].

Definition stageless_loaded : DataFrame cell :=
  Eval vm_compute in frame_of (@load sample_conversions stageless_table).

(** The sample table after lines 46-47, and the generator left. *)
Definition sample_jittered : DataFrame cell * Generator :=
  match add_jitter sample_generator sample_loaded with
  | (_, Done p) => p
  | _ => (mkFrame [] [], sample_generator)
  end.

(* ================================================================== *)
(** ** binary64 arithmetic: the range of the jitter *)
(* ================================================================== *)

Section Binary64Values.
Local Open Scope Z_scope.












End Binary64Values.



(* ================================================================== *)
(** ** Strings: what [strip] and [split] do *)
(* ================================================================== *)

Module PyStrFacts.
Import PyStr.

Lemma lstrip_decompose (s : string) :
  exists l, s = (l ++ lstrip s)%string /\ blank l = true.
Proof.
  induction s as [|c t [l [E B]]]; simpl.
  - exists EmptyString. split; reflexivity.
  - destruct (isspace c) eqn:W.
    + exists (String c l). simpl. rewrite W, B. split; [f_equal; exact E | reflexivity].
    + exists EmptyString. split; reflexivity.
Qed.

Lemma lstrip_first (s : string) (c : ascii) (t : string) :
  lstrip s = String c t -> isspace c = false.
Proof.
  induction s as [|d u IH]; simpl; [discriminate|].
  destruct (isspace d) eqn:W; [exact IH|].
  intros H. injection H as -> _. exact W.
Qed.

Lemma rstrip_decompose (s : string) :
  exists r, s = (rstrip s ++ r)%string /\ blank r = true.
Proof.
  induction s as [|c t [r [E B]]]; simpl.
  - exists EmptyString. split; reflexivity.
  - destruct (rstrip t) as [|d u] eqn:R.
    + destruct (isspace c) eqn:W.
      * exists (String c r). simpl in *. rewrite W, B. split; [f_equal; exact E | reflexivity].
      * exists r. simpl in *. split; [f_equal; exact E | exact B].
    + exists r. simpl in *. split; [f_equal; exact E | exact B].
Qed.

Lemma rstrip_last (s : string) (c : ascii) :
  last_char (rstrip s) = Some c -> isspace c = false.
Proof.
  induction s as [|d t IH]; simpl; [discriminate|].
  destruct (rstrip t) as [|e u] eqn:R.
  - destruct (isspace d) eqn:W; simpl; [discriminate|].
    intros H. injection H as <-. exact W.
  - intros H. apply IH. exact H.
Qed.

Lemma rstrip_first (s : string) (c : ascii) (t : string) :
  first_char s = Some c -> isspace c = false -> first_char (rstrip s) = Some c.
Proof.
  destruct s as [|d u]; simpl; [discriminate|].
  intros H W. injection H as ->.
  destruct (rstrip u); [rewrite W|]; reflexivity.
Qed.

Lemma strip_trimmed (s : string) : trimmed (strip s) = true.
Proof.
  unfold trimmed, strip.
  destruct (first_char (rstrip (lstrip s))) as [a|] eqn:F; [|reflexivity].
  destruct (last_char (rstrip (lstrip s))) as [b|] eqn:L; [|reflexivity].
  apply rstrip_last in L. rewrite L.
  destruct (lstrip s) as [|c t] eqn:E; [discriminate|].
  pose proof (lstrip_first _ _ _ E) as W.
  rewrite (rstrip_first (String c t) c t eq_refl W) in F.
  injection F as <-. rewrite W. reflexivity.
Qed.

(** [strip] removes a run of whitespace at each end and nothing else. *)
Lemma strip_decompose (s : string) :
  exists l r, s = (l ++ strip s ++ r)%string /\ blank l = true /\ blank r = true.
Proof.
  destruct (lstrip_decompose s) as [l [El Bl]].
  destruct (rstrip_decompose (lstrip s)) as [r [Er Br]].
  exists l, r. unfold strip. rewrite <- Er. auto.
Qed.

Lemma lstrip_id (s : string) :
  match first_char s with Some c => isspace c = false | None => True end ->
  lstrip s = s.
Proof. destruct s as [|c t]; simpl; [reflexivity|]. intros ->. reflexivity. Qed.

Lemma rstrip_id (s : string) :
  match last_char s with Some c => isspace c = false | None => True end ->
  rstrip s = s.
Proof.
  induction s as [|c t IH]; simpl; [reflexivity|].
  destruct t as [|d u].
  - simpl. intros ->. reflexivity.
  - intros H. rewrite (IH H). reflexivity.
Qed.

(** A string without whitespace at either end is left alone. *)
Lemma strip_id (s : string) : trimmed s = true -> strip s = s.
Proof.
  unfold trimmed, strip. intros H.
  destruct s as [|c t]; [reflexivity|].
  assert (L : exists b, last_char (String c t) = Some b).
  { clear H. revert c. induction t as [|d u IH]; intros c; simpl.
    - eexists; reflexivity.
    - apply (IH d). }
  destruct L as [b L]. rewrite L in H. simpl first_char in H.
  apply andb_true_iff in H as [Ha Hb].
  apply negb_true_iff in Ha, Hb.
  rewrite (lstrip_id (String c t)) by exact Ha.
  apply rstrip_id. rewrite L. exact Hb.
Qed.

Lemma split_nonempty (sep : ascii) (s : string) : split sep s <> [].
Proof.
  destruct s as [|c t]; simpl; [discriminate|].
  destruct (Ascii.eqb c sep); [discriminate|].
  destruct (split sep t); discriminate.
Qed.

(** Joining the pieces with the separator gives the string back. *)
Lemma join_split (sep : ascii) (s : string) :
  join (String sep EmptyString) (split sep s) = s.
Proof.
  unfold join. induction s as [|c t IH]; simpl; [reflexivity|].
  destruct (Ascii.eqb_spec c sep) as [->|N].
  - pose proof (split_nonempty sep t) as NE.
    simpl. destruct (split sep t) as [|p ps]; [congruence|].
    simpl. f_equal. exact IH.
  - pose proof (split_nonempty sep t) as NE.
    destruct (split sep t) as [|p ps]; [congruence|].
    simpl in *. destruct ps; simpl in *; f_equal; exact IH.
Qed.

(** No piece holds the separator. *)
Lemma split_pieces (sep : ascii) (s : string) :
  Forall (fun p => has_char sep p = false) (split sep s).
Proof.
  induction s as [|c t IH]; simpl.
  - constructor; [reflexivity | constructor].
  - destruct (Ascii.eqb c sep) eqn:E.
    + constructor; [reflexivity | exact IH].
    + destruct (split sep t) as [|p ps].
      * constructor; [simpl; rewrite E; reflexivity | constructor].
      * inversion IH; subst. constructor; [simpl; rewrite E; assumption | assumption].
Qed.

(** A string without the separator is its own single piece. *)
Lemma split_single (sep : ascii) (s : string) :
  has_char sep s = false -> split sep s = [s].
Proof.
  induction s as [|c t IH]; simpl; [reflexivity|].
  intros H. apply orb_false_iff in H as [E H].
  rewrite E, (IH H). reflexivity.
Qed.

Lemma truthy_eqb (s : string) : truthy s = negb (String.eqb s "").
Proof. destruct s; reflexivity. Qed.

End PyStrFacts.

(* ================================================================== *)
(** ** The tag parser *)
(* ================================================================== *)

Section TagParser.
Context {conv : Conversions}.
Import PyStr PyStrFacts.

Lemma comprehension_filter_map (pieces : list string) :
  comprehension pieces
  = filter (fun p => negb (String.eqb p "")) (map strip pieces).
Proof.
  induction pieces as [|s rest IH]; simpl; [reflexivity|].
  rewrite truthy_eqb, IH. reflexivity.
Qed.

(** A comma-free text that is not all whitespace is one tag: itself,
    trimmed. *)
Lemma parse_tags_token (t : string) :
  has_char "," t = false -> strip t <> EmptyString ->
  parse_tags t = [strip t].
Proof.
  intros C N. unfold parse_tags. rewrite (split_single _ _ C). simpl.
  destruct (strip t); [congruence | reflexivity].
Qed.

(** C3. The tag parser splits the text on [","], trims every piece and
    drops the pieces that are empty after trimming, keeping the others
    in their order and with their duplicates (a [filter] of a [map]
    over the pieces).  Splitting is exact: joining the pieces with
    [","] gives the text back and no piece holds a comma.  Trimming
    removes a run of whitespace at each end and leaves no whitespace
    there.  ["Seed, Series A,  Series A"] parses to
    [["Seed"; "Series A"; "Series A"]] and the empty text to [[]]. *)
Theorem tag_parser_splits_trims_discards :
  (forall x, parse_tags x = split_trim_discard x)
  /\ (forall x, tag_parser (VCell (CStr x)) = VList (split_trim_discard x))
  /\ (forall x, join "," (split "," x) = x
                /\ Forall (fun p => has_char "," p = false) (split "," x))
  /\ (forall p, trimmed (strip p) = true
                /\ exists l r, p = (l ++ strip p ++ r)%string
                               /\ blank l = true /\ blank r = true)
  /\ parse_tags "Seed, Series A,  Series A" = ["Seed"; "Series A"; "Series A"]
  /\ parse_tags "" = [].
Proof.
  assert (R : forall x, parse_tags x = split_trim_discard x).
  { intros x. unfold parse_tags, split_trim_discard.
    apply comprehension_filter_map. }
  split; [exact R|].
  split; [intros x; unfold tag_parser; simpl; rewrite R; reflexivity|].
  split; [intros x; split; [apply join_split | apply split_pieces]|].
  split; [intros p; split; [apply strip_trimmed | apply strip_decompose]|].
  split; reflexivity.
Qed.

Lemma blank_append (l r : string) :
  blank (l ++ r) = blank l && blank r.
Proof.
  induction l as [|c l IH]; simpl; [reflexivity|].
  rewrite IH. apply andb_assoc.
Qed.

(** A text that is not all whitespace keeps something when trimmed. *)
Lemma strip_not_blank (t : string) : blank t = false -> strip t <> EmptyString.
Proof.
  intros B E. destruct (strip_decompose t) as [l [r [D [Bl Br]]]].
  rewrite E in D. simpl in D. rewrite D, blank_append, Bl, Br in B. discriminate.
Qed.

(** C4. A missing tag value reaches the parser as the text
    [astype(str)] writes for it.  Whenever that text is a token [t]
    without a comma and not blank, whatever the token is, the parser
    returns the one-element list holding the token (trimmed, so the
    token itself when it has no whitespace at its ends) and not the
    empty list: the missing value counts as one tag.  Where
    [astype(str)] writes no text and leaves the value missing, the
    parser does not return at all: [x.split] raises. *)
Theorem missing_tag_is_one_literal_tag (c : cell) :
  isna c = true ->
  (forall t,
     astype_missing = Some t ->
     has_char "," t = false ->
     blank t = false ->
     astype_text (VCell c) = Some t
     /\ parse_cell (VCell c) = ([], Done (VList [strip t]))
     /\ parse_cell (VCell c) <> ([], Done (VList []))
     /\ (trimmed t = true -> parse_cell (VCell c) = ([], Done (VList [t]))))
  /\ (astype_missing = None ->
      parse_cell (VCell c) = ([], Raised AttributeError)).
Proof.
  intros M. split.
  - intros t S C B.
    assert (T : astype_text (VCell c) = Some t) by (simpl; rewrite M; exact S).
    assert (P : parse_cell (VCell c) = ([], Done (VList [strip t]))).
    { unfold parse_cell. rewrite T.
      rewrite (parse_tags_token t C (strip_not_blank t B)). reflexivity. }
    split; [exact T|]. split; [exact P|]. split.
    + rewrite P. discriminate.
    + intros K. rewrite P, (strip_id t K). reflexivity.
  - intros S. unfold parse_cell. simpl. rewrite M, S. reflexivity.
Qed.

End TagParser.

(* ================================================================== *)
(** ** The loader: headers *)
(* ================================================================== *)

Lemma rename_label_canonical (h : string) :
  match lookup h RENAME with Some c => c | None => h end = canonical_name h.
Proof.
  unfold canonical_name, RENAME, lookup.
  rewrite (String.eqb_sym "Name" h), (String.eqb_sym "Lat" h),
    (String.eqb_sym "Long" h), (String.eqb_sym "Latitude" h),
    (String.eqb_sym "Longitude" h).
  destruct (String.eqb_spec h "Name") as [->|_]; [reflexivity|].
  destruct (String.eqb_spec h "Lat") as [->|_]; [reflexivity|].
  destruct (String.eqb_spec h "Long") as [->|_]; [reflexivity|].
  destruct (String.eqb_spec h "Latitude") as [->|_]; [reflexivity|].
  destruct (String.eqb_spec h "Longitude") as [->|_]; reflexivity.
Qed.

Lemma normalize_columns_resolves {A} (df : DataFrame A) :
  columns (normalize_columns df) = map resolves_to (columns df).
Proof.
  unfold normalize_columns, rename, strip_columns, resolves_to. simpl.
  rewrite map_map. apply map_ext. intros h. apply rename_label_canonical.
Qed.

(* ================================================================== *)
(** ** Script fragments: how [bind] ends *)
(* ================================================================== *)

Lemma bind_done {A B} (m : App A) (k : A -> App B) (out : list element) (b : B) :
  bind m k = (out, Done b) ->
  exists o1 a o2, m = (o1, Done a) /\ k a = (o2, Done b) /\ out = o1 ++ o2.
Proof.
  destruct m as [o1 [a| |e]]; simpl; try discriminate.
  destruct (k a) as [o2 r] eqn:K. intros H. injection H as <- ->.
  exists o1, a, o2. auto.
Qed.

Lemma bind_ret {A B} (a : A) (k : A -> App B) : bind (ret a) k = k a.
Proof. unfold bind, ret. destruct (k a). reflexivity. Qed.

Lemma bind_stopped {A B} (out : list element) (k : A -> App B) :
  bind (out, Stopped) k = (out, Stopped).
Proof. reflexivity. Qed.

Lemma bind_raised {A B} (out : list element) (e : exn) (k : A -> App B) :
  bind (out, Raised e) k = (out, Raised e).
Proof. reflexivity. Qed.

Lemma bind_quiet {A B} (a : A) (k : A -> App B) : bind ([], Done a) k = k a.
Proof. apply (bind_ret a k). Qed.

(* ================================================================== *)
(** ** Frames: labels, entries, assignment *)
(* ================================================================== *)

Lemma has_column_In (c : string) (cols : list string) :
  has_column c cols = true <-> In c cols.
Proof.
  unfold has_column. rewrite existsb_exists. split.
  - intros [x [I E]]. apply String.eqb_eq in E. subst. exact I.
  - intros I. exists c. split; [exact I | apply String.eqb_refl].
Qed.

Lemma has_column_false (c : string) (cols : list string) :
  has_column c cols = false <-> ~ In c cols.
Proof.
  rewrite <- has_column_In. destruct (has_column c cols); split; intros; congruence.
Qed.

Lemma positions_In (c : string) (cols : list string) (from j : nat) :
  In j (positions c cols from)
  <-> from <= j /\ nth_error cols (j - from) = Some c.
Proof.
  revert from. induction cols as [|d cols IH]; intros from; simpl.
  - split; [tauto|]. intros [_ H]. destruct (j - from); discriminate.
  - destruct (String.eqb_spec d c) as [->|N].
    + simpl. rewrite IH. split.
      * intros [<-|[L H]].
        -- split; [lia|]. rewrite Nat.sub_diag. reflexivity.
        -- split; [lia|]. replace (j - from) with (S (j - S from)) by lia. exact H.
      * intros [L H]. destruct (Nat.eq_dec from j) as [E|NE]; [left; exact E|].
        right. split; [lia|].
        replace (j - from) with (S (j - S from)) in H by lia. exact H.
    + rewrite IH. split.
      * intros [L H]. split; [lia|].
        replace (j - from) with (S (j - S from)) by lia. exact H.
      * intros [L H]. destruct (Nat.eq_dec from j) as [E|NE].
        -- subst. rewrite Nat.sub_diag in H. simpl in H. congruence.
        -- split; [lia|].
           replace (j - from) with (S (j - S from)) in H by lia. exact H.
Qed.

Lemma positions_one (c : string) (cols : list string) (j : nat) :
  positions c cols 0 = [j] -> nth_error cols j = Some c.
Proof.
  intros H. assert (I : In j (positions c cols 0)) by (rewrite H; left; reflexivity).
  apply positions_In in I as [_ I]. rewrite Nat.sub_0_r in I. exact I.
Qed.

Section FrameFacts.
Context {A : Type}.
Variable na : A.

Lemma entry_nth_error (j : nat) (r : nat * list A) :
  entry na j r = match nth_error (snd r) j with Some x => x | None => na end.
Proof.
  unfold entry. destruct r as [i l]. simpl. revert j.
  induction l as [|x l IH]; intros [|j]; simpl; auto.
Qed.

Lemma length_assign (cols : list string) (c : string) (v : A) (r : list A) :
  List.length (assign cols c v r) = List.length r.
Proof.
  revert r. induction cols as [|d cols IH]; intros [|x r]; simpl; auto.
Qed.

Lemma nth_error_assign (cols : list string) (c : string) (v : A) (r : list A) (j : nat) :
  nth_error (assign cols c v r) j
  = match nth_error cols j, nth_error r j with
    | Some d, Some x => Some (if String.eqb d c then v else x)
    | _, o => o
    end.
Proof.
  revert r j. induction cols as [|d cols IH]; intros r j.
  - destruct r, j; reflexivity.
  - destruct r as [|x r].
    + simpl. destruct j as [|j]; simpl; [reflexivity|].
      destruct (nth_error cols j); reflexivity.
    + destruct j as [|j]; simpl; [reflexivity | apply IH].
Qed.

Lemma map_fst_combine {X Y} (a : list X) (b : list Y) :
  List.length b = List.length a -> map fst (combine a b) = a.
Proof.
  revert b. induction a as [|x a IH]; intros [|y b]; simpl; intros H;
    try reflexivity; try discriminate.
  f_equal. apply IH. lia.
Qed.

Lemma in_combine_fst {X Y} (a : list X) (b : list Y) (p : X * Y) :
  In p (combine a b) -> In (fst p) a.
Proof. destruct p as [x y]. apply in_combine_l. Qed.

(** What a successful [df[label] = series] leaves behind. *)
Lemma setitem_done (df df' : DataFrame A) (c : string) (s : list A) (out : list element) :
  setitem df c s = (out, Done df') ->
  out = [] /\ List.length s = len df
  /\ ((In c (columns df)
       /\ df' = mkFrame (columns df)
                  (map (fun rv => (fst (fst rv), assign (columns df) c (snd rv) (snd (fst rv))))
                       (combine (rows df) s)))
      \/ (~ In c (columns df)
          /\ df' = mkFrame (columns df ++ [c])
                     (map (fun rv => (fst (fst rv), snd (fst rv) ++ [snd rv]))
                          (combine (rows df) s)))).
Proof.
  unfold setitem. destruct (List.length s =? len df)%nat eqn:L; simpl; [|discriminate].
  apply Nat.eqb_eq in L.
  destruct (has_column c (columns df)) eqn:H; intros E; injection E as <- <-.
  - apply has_column_In in H. auto.
  - apply has_column_false in H. auto.
Qed.

Lemma setitem_rect (df df' : DataFrame A) (c : string) (s : list A) (out : list element) :
  rect df -> setitem df c s = (out, Done df') -> rect df'.
Proof.
  intros R E. apply setitem_done in E as [_ [L [[_ ->]|[_ ->]]]];
    unfold rect in *; simpl; rewrite Forall_map, Forall_forall; intros rv I;
    apply in_combine_fst in I; rewrite Forall_forall in R; specialize (R _ I); simpl.
  - rewrite length_assign. exact R.
  - rewrite !length_app. simpl. lia.
Qed.

Lemma getitem_quiet (df : DataFrame A) (c : string) (out : list element) (r : outcome (list A)) :
  getitem na df c = (out, r) -> out = [].
Proof.
  unfold getitem. destruct (positions c (columns df) 0) as [|j [|j' l]];
    intros E; injection E as <- _; reflexivity.
Qed.

Lemma mask_rows_filter (rs : list (nat * list A)) (f : nat * list A -> bool) :
  mask_rows rs (map f rs) = filter f rs.
Proof.
  induction rs as [|r rs IH]; simpl; [reflexivity|]. rewrite IH. reflexivity.
Qed.

End FrameFacts.

Section ColumnUpdate.
Context {A : Type}.
Variable na : A.

Lemma combine_map_self {X Y} (g : X -> Y) (l : list X) :
  combine l (map g l) = map (fun x => (x, g x)) l.
Proof. induction l as [|x l IH]; simpl; [reflexivity | rewrite IH; reflexivity]. Qed.

Lemma getitem_one (df : DataFrame A) (c : string) (j : nat) :
  positions c (columns df) 0 = [j] ->
  getitem na df c = ret (map (entry na j) (rows df)).
Proof. intros P. unfold getitem. rewrite P. reflexivity. Qed.

(** [df[label] = df[label].apply(f)] rewrites the entry under [label]
    in every row. *)
Lemma setitem_update (df : DataFrame A) (c : string) (f : A -> A) (j : nat) :
  positions c (columns df) 0 = [j] ->
  setitem df c (map f (map (entry na j) (rows df)))
  = ret (mkFrame (columns df) (map (rewrite_entry na (columns df) c f j) (rows df))).
Proof.
  intros P. unfold setitem.
  rewrite !length_map. unfold len. rewrite Nat.eqb_refl. simpl.
  assert (H : has_column c (columns df) = true).
  { apply has_column_In. apply positions_one in P. apply nth_error_In in P. exact P. }
  rewrite H. rewrite map_map, combine_map_self, map_map. reflexivity.
Qed.

End ColumnUpdate.

(* ================================================================== *)
(** ** The filter on an empty selection *)
(* ================================================================== *)

(** C2. When no sector or no stage is selected, the filter shows the
    warning of line 79 and gives the frame with the same columns and no
    row, whatever the dataset holds; the script is not stopped: whatever
    follows runs on that empty frame. *)
Theorem empty_selection_gives_empty_result
        (df : DataFrame value) (selected_sectors selected_stages : list string) :
  selected_sectors = [] \/ selected_stages = [] ->
  filtered_df df selected_sectors selected_stages
  = ([st_warning EMPTY_SELECTION_MESSAGE], Done (mkFrame (columns df) []))
  /\ rows (empty_like df) = []
  /\ forall (B : Type) (k : DataFrame value -> App B),
       bind (filtered_df df selected_sectors selected_stages) k
       = (st_warning EMPTY_SELECTION_MESSAGE :: fst (k (empty_like df)),
          snd (k (empty_like df))).
Proof.
  intros H.
  assert (E : filtered_df df selected_sectors selected_stages
              = ([st_warning EMPTY_SELECTION_MESSAGE], Done (empty_like df))).
  { unfold filtered_df.
    destruct H as [-> | ->]; [reflexivity|].
    destruct selected_sectors; reflexivity. }
  split; [exact E|]. split; [reflexivity|].
  intros B k. rewrite E. simpl. destruct (k (empty_like df)). reflexivity.
Qed.

(* ================================================================== *)
(** ** The loader: required columns *)
(* ================================================================== *)

Section LoaderSchema.
Context {conv : Conversions}.

Lemma read_csv_table (header : list string) (records : list (list cell)) :
  read_csv (Table header records)
  = ret (mkFrame header (combine (seq 0 (List.length records)) records)).
Proof. reflexivity. Qed.

Lemma load_table (header : list string) (records : list (list cell)) :
  load (Table header records)
  = bind (validate (normalize_columns
            (mkFrame header (combine (seq 0 (List.length records)) records))))
         (fun _ => coerce_coordinates (normalize_columns
            (mkFrame header (combine (seq 0 (List.length records)) records)))).
Proof. unfold load. rewrite read_csv_table, bind_ret. reflexivity. Qed.

Lemma unresolved_column (header : list string) (c : string) :
  (forall h, In h header -> resolves_to h <> c) ->
  has_column c (map resolves_to header) = false.
Proof.
  intros H. apply has_column_false. intros I.
  apply in_map_iff in I as [h [E I]]. exact (H h I E).
Qed.

(** C6. When no header resolves to [latitude], or none resolves to
    [longitude], the loader shows the error of line 37 and stops the
    script: no frame comes out of it, and nothing that follows the
    loader (jitter, tag parsing, sidebar, filter, or any continuation)
    runs or writes anything. *)
Theorem missing_coordinate_column_stops_the_script
        (header : list string) (records : list (list cell)) :
  (forall h, In h header -> resolves_to h <> "latitude")
  \/ (forall h, In h header -> resolves_to h <> "longitude") ->
  load (Table header records) = ([st_error SCHEMA_MESSAGE], Stopped)
  /\ (forall g, prepare (Table header records) g = ([st_error SCHEMA_MESSAGE], Stopped))
  /\ (forall g user,
        script (Table header records) g user = ([st_error SCHEMA_MESSAGE], Stopped))
  /\ (forall (B : Type) (k : DataFrame cell -> App B),
        bind (load (Table header records)) k = ([st_error SCHEMA_MESSAGE], Stopped)).
Proof.
  intros H.
  assert (E : load (Table header records) = ([st_error SCHEMA_MESSAGE], Stopped)).
  { rewrite load_table. unfold validate.
    rewrite normalize_columns_resolves. simpl columns.
    destruct H as [H|H]; rewrite (unresolved_column _ _ H); simpl.
    - reflexivity.
    - rewrite orb_true_r. reflexivity. }
  split; [exact E|].
  split; [intros g; unfold prepare; rewrite E; reflexivity|].
  split; [intros g user; unfold script, prepare; rewrite E; reflexivity|].
  intros B k. rewrite E. reflexivity.
Qed.

End LoaderSchema.

(* ================================================================== *)
(** ** The loader: coordinates *)
(* ================================================================== *)

Section RewriteEntry.
Context {A : Type}.
Variable na : A.

Lemma rewrite_entry_at (cols : list string) (c d : string) (f : A -> A)
      (j i : nat) (r : nat * list A) :
  List.length (snd r) = List.length cols ->
  nth_error cols i = Some d ->
  entry na i (rewrite_entry na cols c f j r)
  = if String.eqb d c then f (entry na j r) else entry na i r.
Proof.
  intros L N. rewrite !entry_nth_error. unfold rewrite_entry. simpl.
  rewrite nth_error_assign, N.
  destruct (nth_error (snd r) i) as [x|] eqn:X.
  - destruct (String.eqb d c); [|reflexivity]. rewrite entry_nth_error. reflexivity.
  - exfalso. apply nth_error_None in X.
    assert (i < List.length cols) by (apply nth_error_Some; congruence). lia.
Qed.

Lemma rewrite_entry_length (cols : list string) (c : string) (f : A -> A)
      (j : nat) (r : nat * list A) :
  List.length (snd (rewrite_entry na cols c f j r)) = List.length (snd r).
Proof. apply length_assign. Qed.

Lemma positions_unique (c : string) (cols : list string) (j i : nat) :
  positions c cols 0 = [j] -> nth_error cols i = Some c -> i = j.
Proof.
  intros P N. assert (I : In i (positions c cols 0)).
  { apply positions_In. rewrite Nat.sub_0_r. split; [lia | exact N]. }
  rewrite P in I. destruct I as [E|[]]. symmetry. exact E.
Qed.

End RewriteEntry.

Lemma complete_true (cols subset : list string) (r : list cell) :
  complete cols subset r = true ->
  forall j c x, nth_error cols j = Some c -> nth_error r j = Some x ->
                In c subset -> isna x = false.
Proof.
  revert r. induction cols as [|d cols IH]; intros r H j c x N X I.
  - destruct j; discriminate.
  - destruct r as [|y r]; [destruct j; discriminate|].
    simpl in H. apply andb_true_iff in H as [H1 H2].
    destruct j as [|j]; simpl in N, X.
    + injection N as ->. injection X as ->.
      apply has_column_In in I. rewrite I in H1.
      apply negb_true_iff in H1. exact H1.
    + exact (IH r H2 j c x N X I).
Qed.

Lemma in_combine_seq {X} (l : list X) (a k : nat) (x : X) :
  In (k, x) (combine (seq a (List.length l)) l) -> a <= k /\ nth_error l (k - a) = Some x.
Proof.
  revert a. induction l as [|y l IH]; intros a; simpl; [tauto|].
  intros [E|I].
  - injection E as <- <-. rewrite Nat.sub_diag. split; [lia | reflexivity].
  - apply IH in I as [L N]. split; [lia|].
    replace (k - a) with (S (k - S a)) by lia. exact N.
Qed.

Lemma rectangular_rect (header : list string) (records : list (list cell)) :
  rectangular header records = true ->
  rect (mkFrame header (combine (seq 0 (List.length records)) records)).
Proof.
  unfold rectangular, rect. rewrite forallb_forall, Forall_forall. simpl.
  intros H [k r] I. apply in_combine_r in I. apply Nat.eqb_eq. apply H. exact I.
Qed.

Section LoaderCoordinates.
Context {conv : Conversions}.


Lemma coerce_coordinates_done (df : DataFrame cell) (jlat jlon : nat) :
  positions "latitude" (columns df) 0 = [jlat] ->
  positions "longitude" (columns df) 0 = [jlon] ->
  coerce_coordinates df
  = ret (mkFrame (columns df)
           (filter (fun r => complete (columns df) COORDINATES (snd r))
              (map (rewrite_entry (CFloat nan) (columns df) "longitude" coerced jlon)
                 (map (rewrite_entry (CFloat nan) (columns df) "latitude" coerced jlat)
                    (rows df))))).
Proof.
  intros P1 P2. unfold coerce_coordinates, to_numeric.
  rewrite (getitem_one _ _ _ _ P1), bind_ret.
  rewrite (setitem_update (CFloat nan) df "latitude" coerced jlat P1), bind_ret.
  rewrite (getitem_one (CFloat nan) (mkFrame (columns df) _) "longitude" jlon P2), bind_ret.
  rewrite (setitem_update (CFloat nan) (mkFrame (columns df) _) "longitude" coerced jlon P2),
    bind_ret.
  unfold dropna. simpl columns. simpl rows.
  assert (H1 : has_column "latitude" (columns df) = true).
  { apply has_column_In. apply positions_one in P1. apply nth_error_In in P1. exact P1. }
  assert (H2 : has_column "longitude" (columns df) = true).
  { apply has_column_In. apply positions_one in P2. apply nth_error_In in P2. exact P2. }
  simpl find. rewrite H1, H2. reflexivity.
Qed.

Lemma coerce_coordinates_columns (df df' : DataFrame cell) (out : list element) :
  coerce_coordinates df = (out, Done df') ->
  exists jlat jlon,
    positions "latitude" (columns df) 0 = [jlat]
    /\ positions "longitude" (columns df) 0 = [jlon].
Proof.
  intros E. unfold coerce_coordinates in E.
  destruct (positions "latitude" (columns df) 0) as [|jlat [|j' l]] eqn:P1.
  - unfold getitem in E at 1. rewrite P1 in E. discriminate.
  - rewrite (getitem_one _ _ _ _ P1), bind_ret in E. unfold to_numeric in E.
    rewrite (setitem_update (CFloat nan) df "latitude" coerced jlat P1), bind_ret in E.
    destruct (positions "longitude" (columns df) 0) as [|jlon [|j'' l']] eqn:P2.
    + unfold getitem in E at 1. simpl columns in E. rewrite P2 in E. discriminate.
    + exists jlat, jlon. auto.
    + unfold getitem in E at 1. simpl columns in E. rewrite P2 in E. discriminate.
  - unfold getitem in E at 1. rewrite P1 in E. discriminate.
Qed.

End LoaderCoordinates.

Section LoadedRows.
Context {conv : Conversions}.

Lemma complete_entry (cols : list string) (r : nat * list cell) (j : nat) (c : string) :
  complete cols COORDINATES (snd r) = true ->
  List.length (snd r) = List.length cols ->
  nth_error cols j = Some c -> In c COORDINATES ->
  isna (entry (CFloat nan) j r) = false.
Proof.
  intros H L N I. rewrite entry_nth_error.
  destruct (nth_error (snd r) j) as [x|] eqn:X.
  - exact (complete_true _ _ _ H j c x N X I).
  - exfalso. apply nth_error_None in X.
    assert (j < List.length cols) by (apply nth_error_Some; congruence). lia.
Qed.

(** A row after lines 41-42: both coordinates are what [pd.to_numeric]
    made of the row's fields. *)
Lemma coerced_row (cols : list string) (jlat jlon : nat) (r0 : nat * list cell) :
  positions "latitude" cols 0 = [jlat] ->
  positions "longitude" cols 0 = [jlon] ->
  List.length (snd r0) = List.length cols ->
  let r := rewrite_entry (CFloat nan) cols "longitude" coerced jlon
             (rewrite_entry (CFloat nan) cols "latitude" coerced jlat r0) in
  entry (CFloat nan) jlat r = coerced (entry (CFloat nan) jlat r0)
  /\ entry (CFloat nan) jlon r = coerced (entry (CFloat nan) jlon r0)
  /\ List.length (snd r) = List.length cols
  /\ fst r = fst r0.
Proof.
  intros P1 P2 L r.
  pose proof (positions_one _ _ _ P1) as N1.
  pose proof (positions_one _ _ _ P2) as N2.
  assert (L1 : List.length
                 (snd (rewrite_entry (CFloat nan) cols "latitude" coerced jlat r0))
               = List.length cols) by (rewrite rewrite_entry_length; exact L).
  subst r. repeat split.
  - rewrite (rewrite_entry_at _ cols "longitude" "latitude" _ _ _ _ L1 N1). simpl.
    rewrite (rewrite_entry_at _ cols "latitude" "latitude" _ _ _ _ L N1). reflexivity.
  - rewrite (rewrite_entry_at _ cols "longitude" "longitude" _ _ _ _ L1 N2). simpl.
    rewrite (rewrite_entry_at _ cols "latitude" "longitude" _ _ _ _ L N2). reflexivity.
  - rewrite rewrite_entry_length. exact L1.
Qed.

Lemma bad_coordinate_nan (c : cell) :
  bad_coordinate c = true -> coerced c = CFloat nan.
Proof.
  unfold coerced. destruct c as [s|f]; simpl.
  - destruct (parse_float s); [discriminate | reflexivity].
  - destruct f; try discriminate. reflexivity.
Qed.

(** What a successful load returns: the normalised columns, and the
    rows that are complete once their coordinates are coerced. *)
Lemma load_done (header : list string) (records : list (list cell))
      (out : list element) (df : DataFrame cell) :
  load (Table header records) = (out, Done df) ->
  exists jlat jlon,
    positions "latitude" (map resolves_to header) 0 = [jlat]
    /\ positions "longitude" (map resolves_to header) 0 = [jlon]
    /\ out = []
    /\ df = mkFrame (map resolves_to header)
              (filter (fun r => complete (map resolves_to header) COORDINATES (snd r))
                 (map (rewrite_entry (CFloat nan) (map resolves_to header)
                         "longitude" coerced jlon)
                    (map (rewrite_entry (CFloat nan) (map resolves_to header)
                            "latitude" coerced jlat)
                       (combine (seq 0 (List.length records)) records)))).
Proof.
  rewrite load_table. intros E.
  apply bind_done in E as [o1 [[] [o2 [V [C ->]]]]].
  assert (o1 = []) as ->.
  { unfold validate in V.
    destruct (negb _ || negb _); [discriminate|]. injection V as <-. reflexivity. }
  destruct (coerce_coordinates_columns _ _ _ C) as [jlat [jlon [P1 P2]]].
  rewrite (coerce_coordinates_done _ jlat jlon P1 P2) in C.
  rewrite normalize_columns_resolves in *. simpl in *.
  exists jlat, jlon. injection C as <- <-. auto.
Qed.

(** C8. The loader works on the headers trimmed and then renamed.  For
    every table, [load] is the validation and the coercion of lines
    36-43 run on the frame whose labels are the headers of the file,
    each with the whitespace at its two ends removed and then renamed,
    and a table that loads has exactly these labels, in the order of
    the file.  The renaming takes [Name] to [name], [Lat] and
    [Latitude] to [latitude], [Long] and [Longitude] to [longitude],
    and leaves every other trimmed header as it is.  Trimming removes a
    run of whitespace at each end and leaves none there. *)
Theorem headers_trimmed_then_renamed (header : list string) (records : list (list cell)) :
  load (Table header records)
  = (validate (mkFrame (map (fun h => canonical_name (PyStr.strip h)) header)
                 (combine (seq 0 (List.length records)) records)) ;;;
     coerce_coordinates
       (mkFrame (map (fun h => canonical_name (PyStr.strip h)) header)
          (combine (seq 0 (List.length records)) records)))
  /\ (forall out df,
        load (Table header records) = (out, Done df) ->
        columns df = map (fun h => canonical_name (PyStr.strip h)) header)
  /\ (canonical_name "Name" = "name"
      /\ canonical_name "Lat" = "latitude"
      /\ canonical_name "Latitude" = "latitude"
      /\ canonical_name "Long" = "longitude"
      /\ canonical_name "Longitude" = "longitude")
  /\ (forall h, ~ In h ["Name"; "Lat"; "Latitude"; "Long"; "Longitude"] ->
                canonical_name h = h)
  /\ (forall h, PyStr.trimmed (PyStr.strip h) = true
                /\ exists l r, h = (l ++ PyStr.strip h ++ r)%string
                               /\ PyStr.blank l = true /\ PyStr.blank r = true).
Proof.
  assert (N : normalize_columns
                (mkFrame header (combine (seq 0 (List.length records)) records))
              = mkFrame (map (fun h => canonical_name (PyStr.strip h)) header)
                  (combine (seq 0 (List.length records)) records)).
  { unfold normalize_columns, rename, strip_columns. simpl. f_equal.
    rewrite map_map. apply map_ext. intros h. apply rename_label_canonical. }
  split; [rewrite load_table, N; reflexivity|].
  split.
  { intros out df E. apply load_done in E as [jlat [jlon [_ [_ [_ ->]]]]]. reflexivity. }
  split; [repeat split; reflexivity|].
  split.
  { intros h H. unfold canonical_name.
    destruct (String.eqb_spec h "Name") as [->|_]; [exfalso; apply H; simpl; tauto|].
    destruct (String.eqb_spec h "Lat") as [->|_]; [exfalso; apply H; simpl; tauto|].
    destruct (String.eqb_spec h "Latitude") as [->|_]; [exfalso; apply H; simpl; tauto|].
    destruct (String.eqb_spec h "Long") as [->|_]; [exfalso; apply H; simpl; tauto|].
    destruct (String.eqb_spec h "Longitude") as [->|_]; [exfalso; apply H; simpl; tauto|].
    reflexivity. }
  intros h. split; [apply PyStrFacts.strip_trimmed | apply PyStrFacts.strip_decompose].
Qed.

Lemma load_rect (file : csv_file) (out : list element) (df : DataFrame cell) :
  well_formed file = true -> load file = (out, Done df) -> rect df.
Proof.
  destruct file as [|error|header records]; [discriminate|discriminate|]. simpl. intros W E.
  apply load_done in E as [jlat [jlon [P1 [P2 [_ ->]]]]].
  unfold rect. simpl. apply Forall_forall. intros r I.
  apply filter_In in I as [I _].
  apply in_map_iff in I as [r1 [<- I]]. apply in_map_iff in I as [r0 [<- I]].
  rewrite !rewrite_entry_length.
  apply rectangular_rect in W. unfold rect in W. rewrite Forall_forall in W.
  simpl in W. rewrite length_map. exact (W _ I).
Qed.

(** C5, as the code has it. Every row that leaves the loader has a
    float under [latitude] and under [longitude], and neither is NaN
    (an infinity is a number and is kept); every record whose field
    under a header resolving to [latitude] or [longitude] is missing, or
    is text that [pd.to_numeric] cannot read, is dropped. *)
Theorem loaded_coordinates_are_not_nan
        (header : list string) (records : list (list cell))
        (out : list element) (df : DataFrame cell) :
  rectangular header records = true ->
  load (Table header records) = (out, Done df) ->
  (forall r, In r (rows df) ->
     exists lat lon,
       cell_field df "latitude" r = Some (CFloat lat)
       /\ cell_field df "longitude" r = Some (CFloat lon)
       /\ isnan lat = false /\ isnan lon = false)
  /\ (forall k rec j h c,
        nth_error records k = Some rec ->
        nth_error header j = Some h ->
        resolves_to h = "latitude" \/ resolves_to h = "longitude" ->
        nth_error rec j = Some c ->
        bad_coordinate c = true ->
        ~ In k (index df)).
Proof.
  intros W E. pose proof (rectangular_rect _ _ W) as R.
  unfold rect in R. rewrite Forall_forall in R. simpl in R.
  apply load_done in E as [jlat [jlon [P1 [P2 [_ ->]]]]].
  set (cols := map resolves_to header) in *.
  assert (LEN : forall r0, In r0 (combine (seq 0 (List.length records)) records) ->
                           List.length (snd r0) = List.length cols).
  { intros r0 I. unfold cols. rewrite length_map. exact (R _ I). }
  split.
  - intros r I. simpl in I. apply filter_In in I as [I C].
    apply in_map_iff in I as [r1 [<- I]]. apply in_map_iff in I as [r0 [<- I]].
    destruct (coerced_row cols jlat jlon r0 P1 P2 (LEN _ I)) as [E1 [E2 [L _]]].
    exists (to_numeric_cell (entry (CFloat nan) jlat r0)),
           (to_numeric_cell (entry (CFloat nan) jlon r0)).
    unfold cell_field, field. simpl columns. fold cols. rewrite P1, P2.
    rewrite E1, E2. repeat split.
    + pose proof (complete_entry cols _ jlat "latitude" C L (positions_one _ _ _ P1)) as H.
      rewrite E1 in H. apply H. simpl. auto.
    + pose proof (complete_entry cols _ jlon "longitude" C L (positions_one _ _ _ P2)) as H.
      rewrite E2 in H. apply H. simpl. auto.
  - intros k rec j h c Hk Hj Hres Hc Hbad I.
    unfold index in I. simpl in I.
    apply in_map_iff in I as [r [Fk I]]. apply filter_In in I as [I C].
    apply in_map_iff in I as [r1 [<- I]]. apply in_map_iff in I as [r0 [<- I]].
    destruct (coerced_row cols jlat jlon r0 P1 P2 (LEN _ I)) as [E1 [E2 [L F]]].
    rewrite F in Fk. destruct r0 as [k0 rec0]. simpl in Fk. subst k0.
    apply in_combine_seq in I as [_ I]. rewrite Nat.sub_0_r in I.
    rewrite Hk in I. injection I as <-.
    assert (Nj : nth_error cols j = Some (resolves_to h)).
    { unfold cols. rewrite nth_error_map, Hj. reflexivity. }
    assert (Ec : entry (CFloat nan) j (k, rec) = c).
    { rewrite entry_nth_error. simpl. rewrite Hc. reflexivity. }
    destruct Hres as [Hres|Hres]; rewrite Hres in Nj.
    + pose proof (positions_unique "latitude" cols jlat j P1 Nj) as ->.
      pose proof (complete_entry cols _ jlat "latitude" C L Nj) as H.
      rewrite E1, Ec, (bad_coordinate_nan _ Hbad) in H.
      assert (X : isna (CFloat nan) = false) by (apply H; simpl; auto).
      discriminate.
    + pose proof (positions_unique "longitude" cols jlon j P2 Nj) as ->.
      pose proof (complete_entry cols _ jlon "longitude" C L Nj) as H.
      rewrite E2, Ec, (bad_coordinate_nan _ Hbad) in H.
      assert (X : isna (CFloat nan) = false) by (apply H; simpl; auto).
      discriminate.
Qed.

End LoadedRows.

(* ================================================================== *)
(** ** Jitter and tag columns keep the frame in shape *)
(* ================================================================== *)

Lemma series_add_done (series : list cell) (arr : list float)
      (out : list element) (s : list cell) :
  series_add series arr = (out, Done s) ->
  out = [] /\ List.length s = List.length series.
Proof.
  revert arr out s. induction series as [|c series IH]; intros arr out s E.
  - destruct arr; simpl in E; [|discriminate]. injection E as <- <-. auto.
  - destruct c as [t|f]; destruct arr as [|u arr]; simpl in E; try discriminate.
    apply bind_done in E as [o1 [rest [o2 [E1 [E2 ->]]]]].
    apply IH in E1 as [-> L]. injection E2 as <- <-. simpl. auto.
Qed.

Lemma to_values_rect (df : DataFrame cell) : rect df -> rect (to_values df).
Proof.
  unfold rect. simpl. rewrite Forall_map. apply Forall_impl.
  intros r H. simpl. rewrite length_map. exact H.
Qed.

Section Shape.
Context {conv : Conversions}.

Lemma add_jitter_rect (g : Generator) (df : DataFrame cell)
      (out : list element) (dg : DataFrame cell * Generator) :
  rect df -> add_jitter g df = (out, Done dg) -> out = [] /\ rect (fst dg).
Proof.
  intros R E. unfold add_jitter, uniform in E.
  apply bind_done in E as [? [lat [? [G1 [E ->]]]]].
  apply getitem_quiet in G1 as ->.
  apply bind_done in E as [? [jit [? [A1 [E ->]]]]].
  apply series_add_done in A1 as [-> _].
  apply bind_done in E as [? [df1 [? [S1 [E ->]]]]].
  pose proof (setitem_rect _ _ _ _ _ R S1) as R1.
  apply setitem_done in S1 as [-> _].
  apply bind_done in E as [? [lon [? [G2 [E ->]]]]].
  apply getitem_quiet in G2 as ->.
  apply bind_done in E as [? [jit2 [? [A2 [E ->]]]]].
  apply series_add_done in A2 as [-> _].
  apply bind_done in E as [? [df2 [? [S2 [E ->]]]]].
  pose proof (setitem_rect _ _ _ _ _ R1 S2) as R2.
  apply setitem_done in S2 as [-> _].
  injection E as <- <-. simpl. auto.
Qed.

(** The parser on a series: it goes through when [astype(str)] writes
    a text for every cell, and raises on the first cell left missing. *)
Lemma apply_parser_spec (series : list value) :
  apply_parser series
  = if forallb writable series then ret (map parsed series) else raise AttributeError.
Proof.
  induction series as [|v series IH]; [reflexivity|].
  cbn [apply_parser forallb map]. unfold parse_cell, writable at 1, parsed at 1.
  destruct (astype_text v) as [x|]; [|reflexivity].
  rewrite bind_ret, IH. cbn [andb].
  destruct (forallb writable series); reflexivity.
Qed.

Lemma parsed_list (v : value) :
  writable v = true -> exists tags, parsed v = VList tags.
Proof.
  unfold writable, parsed. destruct (astype_text v) as [x|]; [eauto | discriminate].
Qed.

(** What one of lines 52, 53 returns when it succeeds. *)
Lemma clean_column_done (label : string) (df df' : DataFrame value) (out : list element) :
  clean_column label df = (out, Done df') ->
  exists j, positions label (columns df) 0 = [j]
            /\ out = []
            /\ df' = mkFrame (columns df)
                       (map (rewrite_entry (VCell (CFloat nan)) (columns df) label
                               parsed j) (rows df))
            /\ forall r, In r (rows df) ->
                 writable (entry (VCell (CFloat nan)) j r) = true.
Proof.
  unfold clean_column. intros E.
  destruct (positions label (columns df) 0) as [|j [|j' l]] eqn:P.
  - unfold getitem in E. rewrite P in E. discriminate.
  - exists j. rewrite (getitem_one _ _ _ _ P), bind_ret, apply_parser_spec in E.
    destruct (forallb writable (map (entry (VCell (CFloat nan)) j) (rows df))) eqn:F;
      [|discriminate].
    rewrite bind_ret in E.
    rewrite (setitem_update _ df label parsed j P) in E.
    injection E as <- <-. repeat split; auto.
    intros r I. rewrite forallb_forall in F. apply F. apply in_map. exact I.
  - unfold getitem in E. rewrite P in E. discriminate.
Qed.

(** The dataset that reaches the sidebar and the filter: rectangular,
    with one Sector column and one Stage column, both holding lists. *)
Lemma prepare_done (file : csv_file) (g : Generator)
      (out : list element) (df : DataFrame value) :
  well_formed file = true ->
  prepare file g = (out, Done df) ->
  out = []
  /\ rect df
  /\ exists js jt,
       positions "Sector" (columns df) 0 = [js]
       /\ positions "Stage" (columns df) 0 = [jt]
       /\ forall r, In r (rows df) ->
            exists sectors stages,
              entry (VCell (CFloat nan)) js r = VList sectors
              /\ entry (VCell (CFloat nan)) jt r = VList stages.
Proof.
  intros W E. unfold prepare in E.
  apply bind_done in E as [ol [df0 [? [L [E ->]]]]].
  pose proof (load_rect _ _ _ W L) as R0.
  assert (ol = []) as ->.
  { destruct file as [|error|h recs]; [discriminate|discriminate|].
    apply load_done in L as [? [? [_ [_ [-> _]]]]]. reflexivity. }
  apply bind_done in E as [? [dg [? [J [E ->]]]]].
  apply add_jitter_rect in J as [-> R1]; [|exact R0].
  unfold clean_tags in E.
  apply bind_done in E as [? [df2 [? [C1 [C2 ->]]]]].
  apply to_values_rect in R1. set (dv := to_values (fst dg)) in *.
  apply clean_column_done in C1 as [jt [Pt [-> [-> W1]]]].
  apply clean_column_done in C2 as [js [Ps [-> [-> W2]]]].
  simpl columns in *. simpl rows in *.
  unfold rect in R1. rewrite Forall_forall in R1.
  split; [reflexivity|]. split.
  - unfold rect. simpl. apply Forall_forall. intros r I.
    apply in_map_iff in I as [r1 [<- I]]. apply in_map_iff in I as [r0 [<- I]].
    rewrite !rewrite_entry_length. exact (R1 _ I).
  - exists js, jt. split; [exact Ps|]. split; [exact Pt|].
    intros r I.
    apply in_map_iff in I as [r1 [<- I]]. apply in_map_iff in I as [r0 [<- I]].
    pose proof (R1 _ I) as L0.
    assert (L1 : List.length (snd (rewrite_entry (VCell (CFloat nan)) (columns dv)
                                     "Stage" parsed jt r0))
                 = List.length (columns dv))
      by (rewrite rewrite_entry_length; exact L0).
    rewrite (rewrite_entry_at _ _ "Sector" "Sector" _ _ _ _ L1 (positions_one _ _ _ Ps)).
    rewrite (rewrite_entry_at _ _ "Sector" "Stage" _ _ _ _ L1 (positions_one _ _ _ Pt)).
    rewrite (rewrite_entry_at _ _ "Stage" "Stage" _ _ _ _ L0 (positions_one _ _ _ Pt)).
    simpl.
    destruct (parsed_list _ (W1 _ I)) as [stages Es].
    destruct (parsed_list _ (W2 _ (in_map _ _ _ I))) as [sectors Ec].
    exists sectors, stages. split; [exact Ec | exact Es].
Qed.

End Shape.

(* ================================================================== *)
(** ** The filter on a prepared dataset *)
(* ================================================================== *)

Lemma contains_In (selected : list string) (s : string) :
  contains selected s = true <-> In s selected.
Proof.
  unfold contains. rewrite existsb_exists. split.
  - intros [x [I E]]. apply String.eqb_eq in E. subst. exact I.
  - intros I. exists s. split; [exact I | apply String.eqb_refl].
Qed.

(** [any(s in selected for s in tags)] holds exactly when some tag of the
    record is among the selected ones. *)
Lemma any_in_shared (selected tags : list string) :
  any_in selected tags = true <-> exists s, In s tags /\ In s selected.
Proof.
  unfold any_in. rewrite existsb_exists.
  split; intros [s [I C]]; exists s; split; auto; apply contains_In; exact C.
Qed.

Lemma series_and_map {X} (f g : X -> bool) (l : list X) :
  series_and (map f l) (map g l) = map (fun x => f x && g x) l.
Proof.
  unfold series_and. induction l as [|x l IH]; simpl; [reflexivity|].
  rewrite IH. reflexivity.
Qed.

(** the tags a record holds in column [j] *)
Lemma apply_any_lists (selected : list string) (j : nat) (rs : list (nat * list value)) :
  (forall r, In r rs -> exists l, entry (VCell (CFloat nan)) j r = VList l) ->
  apply_any selected (map (entry (VCell (CFloat nan)) j) rs)
  = ret (map (fun r => match entry (VCell (CFloat nan)) j r with
                       | VList l => any_in selected l
                       | VCell _ => false
                       end) rs).
Proof.
  induction rs as [|r rs IH]; intros H; simpl; [reflexivity|].
  destruct (H r (or_introl eq_refl)) as [l E]. rewrite E. simpl iterate.
  rewrite bind_ret, IH by (intros r' I; apply H; right; exact I).
  rewrite bind_ret. reflexivity.
Qed.

Lemma flatten_lists (j : nat) (rs : list (nat * list value)) :
  (forall r, In r rs -> exists l, entry (VCell (CFloat nan)) j r = VList l) ->
  exists tags, flatten (map (entry (VCell (CFloat nan)) j) rs) = ret tags.
Proof.
  induction rs as [|r rs IH]; intros H; simpl; [eexists; reflexivity|].
  destruct (H r (or_introl eq_refl)) as [l E]. rewrite E. simpl iterate.
  destruct IH as [tags T]; [intros r' I; apply H; right; exact I|].
  rewrite bind_ret, T, bind_ret. eexists; reflexivity.
Qed.

Lemma tagged_entries (df : DataFrame value) :
  tagged df ->
  exists js jt,
    positions "Sector" (columns df) 0 = [js]
    /\ positions "Stage" (columns df) 0 = [jt]
    /\ forall r, In r (rows df) ->
         exists sectors stages,
           entry (VCell (CFloat nan)) js r = VList sectors
           /\ entry (VCell (CFloat nan)) jt r = VList stages.
Proof.
  intros [[js Ps] [[jt Pt] H]]. exists js, jt. split; [exact Ps|]. split; [exact Pt|].
  intros r I. destruct (H r I) as [a [b [Fa Fb]]].
  unfold value_field, field in Fa, Fb. rewrite Ps in Fa. rewrite Pt in Fb.
  injection Fa as Fa. injection Fb as Fb. eauto.
Qed.

(** On a tagged frame and two non-empty selections the filter keeps, in
    order, the records that [selected_by] accepts, and writes nothing. *)
Lemma filtered_df_tagged (df : DataFrame value) (selected_sectors selected_stages : list string) :
  tagged df -> selected_sectors <> [] -> selected_stages <> [] ->
  filtered_df df selected_sectors selected_stages
  = ([], Done (mkFrame (columns df)
                 (filter (selected_by df selected_sectors selected_stages) (rows df)))).
Proof.
  intros T N1 N2. destruct (tagged_entries df T) as [js [jt [Ps [Pt H]]]].
  unfold filtered_df.
  destruct selected_sectors as [|s1 ss]; [congruence|].
  destruct selected_stages as [|t1 st]; [congruence|]. simpl negb. simpl orb. cbv iota.
  rewrite (getitem_one _ _ _ _ Ps), bind_ret.
  rewrite apply_any_lists, bind_ret
    by (intros r I; destruct (H r I) as [a [b [Ea Eb]]]; eauto).
  rewrite (getitem_one _ _ _ _ Pt), bind_ret.
  rewrite apply_any_lists, bind_ret
    by (intros r I; destruct (H r I) as [a [b [Ea Eb]]]; eauto).
  rewrite series_and_map, mask_rows_filter. unfold ret. do 3 f_equal.
  apply filter_ext_in. intros r I. destruct (H r I) as [a [b [Ea Eb]]].
  unfold selected_by, value_field, field. rewrite Ps, Pt, Ea, Eb. reflexivity.
Qed.

Lemma sidebar_tagged (user : Sidebar) (df : DataFrame value) :
  tagged df -> exists selected, sidebar user df = ret selected.
Proof.
  intros T. destruct (tagged_entries df T) as [js [jt [Ps [Pt H]]]].
  unfold sidebar, all_tags.
  destruct (flatten_lists js (rows df)) as [tags1 F1];
    [intros r I; destruct (H r I) as [a [b [Ea Eb]]]; eauto|].
  destruct (flatten_lists jt (rows df)) as [tags2 F2];
    [intros r I; destruct (H r I) as [a [b [Ea Eb]]]; eauto|].
  rewrite (getitem_one _ _ _ _ Ps), bind_ret, F1, !bind_ret.
  rewrite (getitem_one _ _ _ _ Pt), bind_ret, F2, !bind_ret.
  eexists; reflexivity.
Qed.

Section Prepared.
Context {conv : Conversions}.

Lemma prepare_tagged (file : csv_file) (g : Generator)
      (out : list element) (df : DataFrame value) :
  well_formed file = true -> prepare file g = (out, Done df) ->
  out = [] /\ tagged df.
Proof.
  intros W E. destruct (prepare_done file g out df W E) as [-> [_ [js [jt [Ps [Pt H]]]]]].
  split; [reflexivity|]. split; [eauto|]. split; [eauto|].
  intros r I. destruct (H r I) as [a [b [Ea Eb]]]. exists a, b.
  unfold value_field, field. rewrite Ps, Pt, Ea, Eb. auto.
Qed.

(** C1. On a loaded dataset and two non-empty selections the filter
    writes nothing and returns, in their order, exactly the records
    some tag of whose Sector list is selected and some tag of whose
    Stage list is selected: one shared tag per column is enough, and
    both columns must have one.  A record tagged
    [["Fintech"; "SaaS"]] and [["Series A"]] is not returned for the
    selections [["Fintech"]] and [["Seed"]]. *)
Theorem filter_keeps_records_matching_both
        (file : csv_file) (g : Generator) (out : list element) (df : DataFrame value)
        (selected_sectors selected_stages : list string) :
  well_formed file = true ->
  prepare file g = (out, Done df) ->
  selected_sectors <> [] -> selected_stages <> [] ->
  filtered_df df selected_sectors selected_stages
  = ([], Done (mkFrame (columns df)
                 (filter (selected_by df selected_sectors selected_stages) (rows df))))
  /\ (forall r, In r (rows df) ->
        exists sectors stages,
          value_field df "Sector" r = Some (VList sectors)
          /\ value_field df "Stage" r = Some (VList stages)
          /\ (selected_by df selected_sectors selected_stages r = true
              <-> (exists s, In s sectors /\ In s selected_sectors)
                  /\ (exists s, In s stages /\ In s selected_stages)))
  /\ (forall r,
        value_field df "Sector" r = Some (VList ["Fintech"; "SaaS"]) ->
        value_field df "Stage" r = Some (VList ["Series A"]) ->
        filtered_df df ["Fintech"] ["Seed"]
        = ([], Done (mkFrame (columns df) (filter (selected_by df ["Fintech"] ["Seed"]) (rows df))))
        /\ ~ In r (filter (selected_by df ["Fintech"] ["Seed"]) (rows df))).
Proof.
  intros W E N1 N2. destruct (prepare_tagged _ _ _ _ W E) as [_ T].
  split; [apply filtered_df_tagged; assumption|]. split.
  - intros r I. destruct T as [_ [_ H]]. destruct (H r I) as [a [b [Fa Fb]]].
    exists a, b. split; [exact Fa|]. split; [exact Fb|].
    unfold selected_by. rewrite Fa, Fb, andb_true_iff, !any_in_shared. tauto.
  - intros r Fa Fb. split; [apply filtered_df_tagged; [exact T | discriminate | discriminate]|].
    intros I. apply filter_In in I as [_ S].
    unfold selected_by in S. rewrite Fa, Fb in S. discriminate.
Qed.

(** C10. A record of a loaded dataset whose Sector list or whose Stage
    list is empty is in no filter result: for any two selections the
    filter returns a frame, and the record is not in it; this holds in
    particular for the selections the sidebar hands over, whatever the
    user does with the boxes, and so for the boxes left as first shown
    (all tags selected). *)
Theorem record_without_tags_is_never_returned
        (file : csv_file) (g : Generator) (out : list element) (df : DataFrame value)
        (r : nat * list value) :
  well_formed file = true ->
  prepare file g = (out, Done df) ->
  In r (rows df) ->
  value_field df "Sector" r = Some (VList [])
  \/ value_field df "Stage" r = Some (VList []) ->
  (forall selected_sectors selected_stages,
     exists o res,
       filtered_df df selected_sectors selected_stages = (o, Done res)
       /\ ~ In r (rows res))
  /\ (forall user, exists o res,
        script file g user = (o, Done res) /\ ~ In r (rows res))
  /\ (exists o res, script file g untouched = (o, Done res) /\ ~ In r (rows res)).
Proof.
  intros W E I F. destruct (prepare_tagged _ _ _ _ W E) as [-> T].
  assert (A : forall ss st, exists o res,
               filtered_df df ss st = (o, Done res) /\ ~ In r (rows res)).
  { intros ss st.
    destruct ss as [|s1 ss]; [do 2 eexists; split; [reflexivity | simpl; tauto]|].
    destruct st as [|t1 st]; [do 2 eexists; split; [reflexivity | simpl; tauto]|].
    rewrite filtered_df_tagged by (try exact T; discriminate).
    do 2 eexists. split; [reflexivity|]. simpl. intros J.
    apply filter_In in J as [_ S]. unfold selected_by in S.
    destruct T as [_ [_ H]]. destruct (H r I) as [a [b [Fa Fb]]].
    rewrite Fa, Fb in S. apply andb_true_iff in S as [Sa Sb].
    destruct F as [F|F].
    - rewrite Fa in F. injection F as ->. discriminate.
    - rewrite Fb in F. injection F as ->. discriminate. }
  assert (B : forall user, exists o res,
               script file g user = (o, Done res) /\ ~ In r (rows res)).
  { intros user. unfold script. rewrite E, bind_quiet.
    destruct (sidebar_tagged user df T) as [sel ->]. rewrite bind_ret. apply A. }
  split; [exact A|]. split; [exact B | apply B].
Qed.

End Prepared.

(* ================================================================== *)
(** ** Two runs that differ in the generator only *)
(* ================================================================== *)

Lemma related_same {A} (R : A -> A -> Prop) (m : App A) :
  (forall out a, m = (out, Done a) -> R a a) -> related R m m.
Proof.
  intros H. unfold related. split; [reflexivity|].
  destruct m as [o [a| |e]]; simpl; auto. exact (H o a eq_refl).
Qed.

Lemma bind_related {A B} (RA : A -> A -> Prop) (RB : B -> B -> Prop)
      (m1 m2 : App A) (k1 k2 : A -> App B) :
  related RA m1 m2 ->
  (forall a1 a2, RA a1 a2 -> related RB (k1 a1) (k2 a2)) ->
  related RB (bind m1 k1) (bind m2 k2).
Proof.
  destruct m1 as [o1 [a1| |e1]], m2 as [o2 [a2| |e2]]; unfold related; simpl;
    intros [Eo R] H; try contradiction; subst; auto.
  specialize (H a1 a2 R). destruct (k1 a1) as [p1 r1], (k2 a2) as [p2 r2].
  simpl in *. destruct H as [-> H]. auto.
Qed.

Lemma related_ret {A} (R : A -> A -> Prop) (a b : A) : R a b -> related R (ret a) (ret b).
Proof. intros H. split; [reflexivity | exact H]. Qed.

Lemma Forall2_combine_map {X Y Z} (R : X -> X -> Prop) (S : Y -> Y -> Prop)
      (R' : Z -> Z -> Prop) (f1 f2 : X * Y -> Z) (l1 l2 : list X) (s1 s2 : list Y) :
  Forall2 R l1 l2 -> Forall2 S s1 s2 ->
  (forall r1 r2 v1 v2, R r1 r2 -> S v1 v2 -> R' (f1 (r1, v1)) (f2 (r2, v2))) ->
  Forall2 R' (map f1 (combine l1 s1)) (map f2 (combine l2 s2)).
Proof.
  intros F. revert s1 s2. induction F as [|x1 x2 l1 l2 Rx F IH]; intros s1 s2 G H.
  - constructor.
  - destruct G as [|v1 v2 s1 s2 Sv G]; simpl; constructor; auto.
Qed.

Lemma Forall2_same {X} (R : X -> X -> Prop) (l : list X) :
  (forall x, R x x) -> Forall2 R l l.
Proof. intros H. induction l; constructor; auto. Qed.

Lemma Forall2_any {X} (R : X -> X -> Prop) (l1 l2 : list X) :
  (forall x y, R x y) -> List.length l1 = List.length l2 -> Forall2 R l1 l2.
Proof.
  intros H. revert l2. induction l1 as [|x l1 IH]; intros [|y l2] L;
    try discriminate; constructor; auto.
Qed.

Section SameRecords.
Context {A : Type}.
Variable na : A.
Variable hidden : list string.

Lemma same_records_len (df1 df2 : DataFrame A) :
  same_records hidden df1 df2 -> len df1 = len df2.
Proof. intros [_ F]. exact (Forall2_length F). Qed.

Lemma same_records_index (df1 df2 : DataFrame A) :
  same_records hidden df1 df2 -> index df1 = index df2.
Proof.
  intros [_ F]. unfold index. induction F as [|r1 r2 l1 l2 [E _] F IH]; simpl;
    [reflexivity | rewrite E, IH; reflexivity].
Qed.

Lemma same_records_same (df : DataFrame A) : rect df -> same_records hidden df df.
Proof.
  intros R. split; [reflexivity|]. unfold rect in R.
  induction R as [|r l H R IH]; constructor; auto.
  repeat split; auto.
Qed.

(** A column that is not hidden reads the same in both frames. *)
Lemma same_records_getitem (df1 df2 : DataFrame A) (c : string) :
  same_records hidden df1 df2 -> ~ In c hidden ->
  getitem na df1 c = getitem na df2 c.
Proof.
  intros [C F] N. unfold getitem. rewrite <- C.
  destruct (positions c (columns df1) 0) as [|j [|j' l]] eqn:P; try reflexivity.
  apply (f_equal ret). apply positions_one in P.
  induction F as [|r1 r2 l1 l2 [_ [_ [_ H]]] F IH]; simpl; [reflexivity|].
  rewrite IH. f_equal. rewrite !entry_nth_error, (H j c P N). reflexivity.
Qed.

(** Writing series that agree wherever the label is not hidden keeps
    two frames the same outside the hidden columns. *)
Lemma same_records_setitem (df1 df2 : DataFrame A) (c : string) (s1 s2 : list A) :
  same_records hidden df1 df2 ->
  Forall2 (fun v1 v2 => In c hidden \/ v1 = v2) s1 s2 ->
  related (same_records hidden) (setitem df1 c s1) (setitem df2 c s2).
Proof.
  intros SR G. pose proof (same_records_len _ _ SR) as L.
  pose proof (Forall2_length G) as LS. destruct SR as [C F].
  unfold setitem. rewrite <- L, <- LS, <- C.
  destruct (List.length s1 =? len df1)%nat; simpl; [|split; reflexivity].
  destruct (has_column c (columns df1)) eqn:HC.
  - apply related_ret. split; [reflexivity|]. simpl.
    apply (Forall2_combine_map _ _ _ _ _ _ _ _ _ F G).
    intros r1 r2 v1 v2 [E [L1 [L2 H]]] S. unfold same_record. simpl.
    split; [exact E|]. rewrite !length_assign.
    split; [exact L1|]. split; [exact L2|].
    intros j d Nd Hd. rewrite !nth_error_assign, Nd, (H j d Nd Hd).
    destruct (nth_error (snd r2) j); [|reflexivity].
    destruct (String.eqb_spec d c) as [->|_]; [|reflexivity].
    destruct S as [S|S]; [contradiction | rewrite S; reflexivity].
  - apply related_ret. split; [reflexivity|]. simpl.
    apply (Forall2_combine_map _ _ _ _ _ _ _ _ _ F G).
    intros r1 r2 v1 v2 [E [L1 [L2 H]]] S. unfold same_record. simpl.
    split; [exact E|]. rewrite !length_app. simpl.
    split; [lia|]. split; [lia|].
    intros j d Nd Hd.
    destruct (Nat.lt_ge_cases j (List.length (columns df1))) as [Lt|Ge].
    + rewrite nth_error_app1 in Nd by exact Lt.
      rewrite !nth_error_app1 by lia. exact (H j d Nd Hd).
    + rewrite nth_error_app2 in Nd by exact Ge.
      rewrite !nth_error_app2 by lia. rewrite L1, L2.
      destruct (j - List.length (columns df1)) as [|n]; simpl in *.
      * injection Nd as <-. destruct S as [S|S]; [contradiction | rewrite S; reflexivity].
      * destruct n; discriminate.
Qed.

Lemma same_records_mask (df1 df2 : DataFrame A) (mask : list bool) :
  same_records hidden df1 df2 ->
  same_records hidden (mkFrame (columns df1) (mask_rows (rows df1) mask))
                      (mkFrame (columns df2) (mask_rows (rows df2) mask)).
Proof.
  intros [C F]. split; [exact C|]. simpl. revert mask.
  induction F as [|r1 r2 l1 l2 H F IH]; intros [|b mask]; simpl; try constructor.
  destruct b; [constructor; auto | apply IH].
Qed.

Lemma same_records_empty (df1 df2 : DataFrame A) :
  same_records hidden df1 df2 ->
  same_records hidden (empty_like df1) (empty_like df2).
Proof. intros [C _]. split; [exact C | constructor]. Qed.

End SameRecords.

Lemma same_records_to_values (hidden : list string) (df1 df2 : DataFrame cell) :
  same_records hidden df1 df2 -> same_records hidden (to_values df1) (to_values df2).
Proof.
  intros [C F]. split; [exact C|]. simpl.
  induction F as [|r1 r2 l1 l2 [E [L1 [L2 H]]] F IH]; simpl; constructor; auto.
  unfold same_record. simpl. rewrite !length_map. repeat split; auto.
  intros j c N Hc. rewrite !nth_error_map, (H j c N Hc). reflexivity.
Qed.

Lemma series_add_related (series : list cell) (u1 u2 : list float) :
  List.length u1 = List.length u2 ->
  related (fun a b => List.length a = List.length b)
          (series_add series u1) (series_add series u2).
Proof.
  revert u1 u2. induction series as [|c series IH]; intros [|x u1] [|y u2] L;
    try discriminate; simpl.
  - apply related_ret. reflexivity.
  - split; reflexivity.
  - destruct c; split; reflexivity.
  - destruct c as [t|f]; [split; reflexivity|].
    apply bind_related with (RA := fun a b => List.length a = List.length b).
    + apply IH. simpl in L. lia.
    + intros a b E. apply related_ret. simpl. rewrite E. reflexivity.
Qed.

(** The filter reads the Sector and Stage columns only. *)
Lemma filtered_df_related (hidden : list string) (df1 df2 : DataFrame value)
      (selected_sectors selected_stages : list string) :
  same_records hidden df1 df2 ->
  ~ In "Sector" hidden -> ~ In "Stage" hidden ->
  related (same_records hidden)
          (filtered_df df1 selected_sectors selected_stages)
          (filtered_df df2 selected_sectors selected_stages).
Proof.
  intros SR N1 N2. unfold filtered_df.
  destruct (negb (nonempty selected_sectors) || negb (nonempty selected_stages)).
  - apply bind_related with (RA := eq); [apply related_same; auto|].
    intros _ _ _. apply related_ret. apply same_records_empty. exact SR.
  - rewrite (same_records_getitem _ _ _ _ _ SR N1).
    apply bind_related with (RA := eq); [apply related_same; auto|].
    intros sectors ? <-.
    apply bind_related with (RA := eq); [apply related_same; auto|].
    intros m1 ? <-.
    rewrite (same_records_getitem _ _ _ _ _ SR N2).
    apply bind_related with (RA := eq); [apply related_same; auto|].
    intros stages ? <-.
    apply bind_related with (RA := eq); [apply related_same; auto|].
    intros m2 ? <-.
    apply related_ret. apply same_records_mask. exact SR.
Qed.

Lemma sidebar_same (hidden : list string) (user : Sidebar) (df1 df2 : DataFrame value) :
  same_records hidden df1 df2 ->
  ~ In "Sector" hidden -> ~ In "Stage" hidden ->
  sidebar user df1 = sidebar user df2.
Proof.
  intros SR N1 N2. unfold sidebar, all_tags.
  rewrite (same_records_getitem _ _ _ _ _ SR N1), (same_records_getitem _ _ _ _ _ SR N2).
  reflexivity.
Qed.

Lemma jitter_hides (c : string) :
  c <> "lat_jitter" -> c <> "lon_jitter" -> ~ In c JITTER.
Proof. intros A B [E|[E|[]]]; congruence. Qed.

Section TwoRuns.
Context {conv : Conversions}.

Lemma clean_column_related (label : string) (df1 df2 : DataFrame value) :
  same_records JITTER df1 df2 -> ~ In label JITTER ->
  related (same_records JITTER) (clean_column label df1) (clean_column label df2).
Proof.
  intros SR N. unfold clean_column.
  rewrite (same_records_getitem _ _ _ _ _ SR N).
  apply bind_related with (RA := eq); [apply related_same; auto|].
  intros col ? <-.
  apply bind_related with (RA := eq); [apply related_same; auto|].
  intros tags ? <-. apply same_records_setitem; [exact SR|].
  apply Forall2_same. auto.
Qed.

Lemma clean_tags_related (df1 df2 : DataFrame cell) :
  same_records JITTER df1 df2 ->
  related (same_records JITTER) (clean_tags df1) (clean_tags df2).
Proof.
  intros SR. unfold clean_tags.
  apply bind_related with (RA := same_records JITTER).
  - apply clean_column_related; [apply same_records_to_values; exact SR|].
    apply jitter_hides; discriminate.
  - intros d1 d2 SR'. apply clean_column_related; [exact SR'|].
    apply jitter_hides; discriminate.
Qed.

Lemma add_jitter_related (g1 g2 : Generator) (df : DataFrame cell) :
  rect df ->
  related (fun dg1 dg2 => same_records JITTER (fst dg1) (fst dg2))
          (add_jitter g1 df) (add_jitter g2 df).
Proof.
  intros R. unfold add_jitter, uniform.
  apply bind_related with (RA := eq); [apply related_same; auto|].
  intros lat ? <-.
  apply bind_related with (RA := fun a b => List.length a = List.length b).
  { apply series_add_related. rewrite !length_map. reflexivity. }
  intros j1 j2 L.
  apply bind_related with (RA := same_records JITTER).
  { apply same_records_setitem; [apply same_records_same; exact R|].
    apply Forall2_any; [|exact L]. intros; left; simpl; auto. }
  intros d1 d2 SR.
  rewrite (same_records_getitem (CFloat nan) _ _ _ "longitude" SR)
    by (apply jitter_hides; discriminate).
  apply bind_related with (RA := eq); [apply related_same; auto|].
  intros lon ? <-. rewrite (same_records_len _ _ _ SR).
  apply bind_related with (RA := fun a b => List.length a = List.length b).
  { apply series_add_related. rewrite !length_map. reflexivity. }
  intros k1 k2 L'.
  apply bind_related with (RA := same_records JITTER).
  { apply same_records_setitem; [exact SR|].
    apply Forall2_any; [|exact L']. intros; left; simpl; auto. }
  intros e1 e2 SR'. apply related_ret. exact SR'.
Qed.

Lemma prepare_related (file : csv_file) (g1 g2 : Generator) :
  well_formed file = true ->
  related (same_records JITTER) (prepare file g1) (prepare file g2).
Proof.
  intros W. unfold prepare.
  apply bind_related with (RA := fun a b => a = b /\ rect a).
  - apply related_same. intros out df E. split; [reflexivity|].
    exact (load_rect _ _ _ W E).
  - intros df ? [<- R].
    apply bind_related with (RA := fun dg1 dg2 => same_records JITTER (fst dg1) (fst dg2)).
    + apply add_jitter_related. exact R.
    + intros dg1 dg2 SR. apply clean_tags_related. exact SR.
Qed.

(** C9. Two runs of the script on the same file and with the same user
    at the sidebar, one with each of two generators, write the same
    elements and end the same way; when they return a filtered frame,
    the two frames have the same columns and the same records (the
    same index labels in the same order, and the same entry in every
    column other than [lat_jitter] and [lon_jitter]).  The same holds
    for the filter alone on any two frames that differ in those two
    columns only. *)
Theorem jitter_never_reaches_the_filter
        (file : csv_file) (g1 g2 : Generator) (user : Sidebar) :
  well_formed file = true ->
  same_result JITTER (script file g1 user) (script file g2 user)
  /\ (forall o1 o2 res1 res2,
        script file g1 user = (o1, Done res1) ->
        script file g2 user = (o2, Done res2) ->
        index res1 = index res2)
  /\ (forall df1 df2 selected_sectors selected_stages,
        same_records JITTER df1 df2 ->
        same_result JITTER (filtered_df df1 selected_sectors selected_stages)
                           (filtered_df df2 selected_sectors selected_stages)).
Proof.
  intros W.
  assert (F : forall df1 df2 ss st,
             same_records JITTER df1 df2 ->
             same_result JITTER (filtered_df df1 ss st) (filtered_df df2 ss st)).
  { intros df1 df2 ss st SR. apply filtered_df_related; [exact SR| |];
      apply jitter_hides; discriminate. }
  assert (S : same_result JITTER (script file g1 user) (script file g2 user)).
  { unfold script. apply bind_related with (RA := same_records JITTER).
    - apply prepare_related. exact W.
    - intros df1 df2 SR.
      rewrite (sidebar_same JITTER user df1 df2 SR)
        by (apply jitter_hides; discriminate).
      apply bind_related with (RA := eq); [apply related_same; auto|].
      intros sel ? <-. apply F. exact SR. }
  split; [exact S|]. split; [|exact F].
  intros o1 o2 res1 res2 E1 E2. destruct S as [_ S]. rewrite E1, E2 in S. simpl in S.
  exact (same_records_index _ _ _ S).
Qed.

End TwoRuns.

(* ================================================================== *)
(** ** The statements on the samples *)
(* ================================================================== *)

Lemma missing_tag_is_one_literal_tag_sample :
  isna (CFloat nan) = true
  /\ @astype_missing sample_conversions = Some "nan"
  /\ PyStr.has_char "," "nan" = false
  /\ PyStr.blank "nan" = false
  /\ @parse_cell sample_conversions (VCell (CFloat nan)) = ([], Done (VList ["nan"]))
  /\ @parse_cell keeping_conversions (VCell (CFloat nan)) = ([], Raised AttributeError).
Proof.
  split; [reflexivity|]. split; [reflexivity|].
  split; [reflexivity|]. split; [reflexivity|]. split.
  - exact (proj2 (proj2 (proj2
             (proj1 (@missing_tag_is_one_literal_tag sample_conversions (CFloat nan) eq_refl)
                "nan" eq_refl eq_refl eq_refl))) eq_refl).
  - exact (proj2 (@missing_tag_is_one_literal_tag keeping_conversions (CFloat nan) eq_refl)
             eq_refl).
Defined.

Lemma empty_selection_gives_empty_result_sample :
  (@nil string = [] \/ ["Seed"] = [])
  /\ filtered_df sample_prepared [] ["Seed"]
     = ([st_warning EMPTY_SELECTION_MESSAGE], Done (mkFrame (columns sample_prepared) [])).
Proof.
  split; [left; reflexivity|].
  exact (proj1 (empty_selection_gives_empty_result sample_prepared [] ["Seed"]
                  (or_introl eq_refl))).
Defined.

Lemma no_header_resolves_to_longitude :
  forall h, In h no_longitude_header -> resolves_to h <> "longitude".
Proof.
  intros h [<-|[<-|[<-|[<-|[]]]]]; vm_compute; discriminate.
Defined.

Lemma missing_coordinate_column_stops_the_script_sample :
  ((forall h, In h no_longitude_header -> resolves_to h <> "latitude")
   \/ (forall h, In h no_longitude_header -> resolves_to h <> "longitude"))
  /\ @script sample_conversions no_longitude_table sample_generator untouched
     = ([st_error SCHEMA_MESSAGE], Stopped).
Proof.
  split; [right; exact no_header_resolves_to_longitude|].
  exact (proj1 (proj2 (proj2
           (@missing_coordinate_column_stops_the_script sample_conversions
              no_longitude_header no_longitude_records
              (or_intror no_header_resolves_to_longitude))))
         sample_generator untouched).
Defined.

Lemma sample_table_prepared :
  @prepare sample_conversions sample_table sample_generator = ([], Done sample_prepared).
Proof. vm_compute. reflexivity. Defined.

Lemma filter_keeps_records_matching_both_sample :
  well_formed sample_table = true
  /\ @prepare sample_conversions sample_table sample_generator = ([], Done sample_prepared)
  /\ ["Fintech"] <> @nil string
  /\ ["Seed"] <> @nil string
  /\ filtered_df sample_prepared ["Fintech"] ["Seed"]
     = ([], Done (mkFrame (columns sample_prepared)
                    (filter (selected_by sample_prepared ["Fintech"] ["Seed"])
                            (rows sample_prepared))))
  /\ index (frame_of (filtered_df sample_prepared ["Fintech"] ["Seed"])) = [0].
Proof.
  assert (N1 : ["Fintech"] <> @nil string) by discriminate.
  assert (N2 : ["Seed"] <> @nil string) by discriminate.
  split; [reflexivity|]. split; [exact sample_table_prepared|].
  split; [exact N1|]. split; [exact N2|].
  split; [|vm_compute; reflexivity].
  exact (proj1 (@filter_keeps_records_matching_both sample_conversions sample_table
                  sample_generator [] sample_prepared ["Fintech"] ["Seed"]
                  eq_refl sample_table_prepared N1 N2)).
Defined.

Lemma sample_table_loaded :
  @load sample_conversions sample_table = ([], Done sample_loaded).
Proof. vm_compute. reflexivity. Defined.

Lemma loaded_coordinates_are_not_nan_sample :
  rectangular sample_header sample_records = true
  /\ @load sample_conversions (Table sample_header sample_records) = ([], Done sample_loaded)
  /\ index sample_loaded = [0; 1]
  /\ ~ In 2 (index sample_loaded)
  /\ ~ In 3 (index sample_loaded).
Proof.
  pose proof (@loaded_coordinates_are_not_nan sample_conversions
                sample_header sample_records [] sample_loaded
                eq_refl sample_table_loaded) as [_ D].
  split; [reflexivity|]. split; [exact sample_table_loaded|].
  split; [reflexivity|]. split.
  - apply (D 2 [CStr "Gamma"; CStr "n/a"; CFloat f_m74; CStr "Fintech"; CStr "Seed"]
             1 " Lat" (CStr "n/a")); try reflexivity. left. reflexivity.
  - apply (D 3 [CStr "Delta"; CFloat f_40_71; CFloat nan; CStr "Fintech"; CFloat nan]
             2 "Long " (CFloat nan)); try reflexivity. right. reflexivity.
Defined.

(** C5 as the spec words it fails: a record whose latitude field reads
    [inf] leaves the loader, so not every surviving row has a finite
    latitude and a finite longitude. *)
Lemma infinite_latitude_survives_the_loader :
  well_formed infinite_table = true
  /\ @load sample_conversions infinite_table = ([], Done infinite_loaded)
  /\ ~ (forall r, In r (rows infinite_loaded) ->
          exists lat lon,
            cell_field infinite_loaded "latitude" r = Some (CFloat lat)
            /\ cell_field infinite_loaded "longitude" r = Some (CFloat lon)
            /\ isfinite lat = true /\ isfinite lon = true).
Proof.
  split; [reflexivity|]. split; [vm_compute; reflexivity|].
  intros H.
  destruct (H (0, [CStr "Far away"; CFloat (S754_infinity false); CFloat f_m74;
                   CStr "SaaS"; CStr "Seed"]) (or_introl eq_refl))
    as [lat [lon [Elat [_ [Flat _]]]]].
  vm_compute in Elat. injection Elat as <-. discriminate.
Defined.

Lemma jitter_never_reaches_the_filter_sample :
  well_formed sample_table = true
  /\ same_result JITTER
       (@script sample_conversions sample_table sample_generator untouched)
       (@script sample_conversions sample_table other_generator untouched)
  /\ frame_of (@script sample_conversions sample_table sample_generator untouched)
     <> frame_of (@script sample_conversions sample_table other_generator untouched).
Proof.
  split; [reflexivity|]. split.
  - exact (proj1 (@jitter_never_reaches_the_filter sample_conversions sample_table
                    sample_generator other_generator untouched eq_refl)).
  - vm_compute. discriminate.
Defined.

Lemma untagged_table_prepared :
  @prepare sample_conversions untagged_table sample_generator = ([], Done untagged_prepared).
Proof. vm_compute. reflexivity. Defined.

Lemma record_without_tags_is_never_returned_sample :
  well_formed untagged_table = true
  /\ @prepare sample_conversions untagged_table sample_generator = ([], Done untagged_prepared)
  /\ In untagged_record (rows untagged_prepared)
  /\ (value_field untagged_prepared "Sector" untagged_record = Some (VList [])
      \/ value_field untagged_prepared "Stage" untagged_record = Some (VList []))
  /\ exists o res,
       @script sample_conversions untagged_table sample_generator untouched = (o, Done res)
       /\ ~ In untagged_record (rows res).
Proof.
  assert (I : In untagged_record (rows untagged_prepared)) by (left; reflexivity).
  assert (F : value_field untagged_prepared "Sector" untagged_record = Some (VList [])
              \/ value_field untagged_prepared "Stage" untagged_record = Some (VList []))
    by (left; reflexivity).
  split; [reflexivity|]. split; [exact untagged_table_prepared|].
  split; [exact I|]. split; [exact F|].
  exact (proj2 (proj2 (@record_without_tags_is_never_returned sample_conversions
                         untagged_table sample_generator [] untagged_prepared
                         untagged_record eq_refl untagged_table_prepared I F))).
Defined.

(* ================================================================== *)
(** ** Tags: what the parser emits, and the text the table shows *)
(* ================================================================== *)

Section Tags.
Import PyStr PyStrFacts.

Lemma has_char_append (c : ascii) (a b : string) :
  has_char c (a ++ b) = has_char c a || has_char c b.
Proof.
  induction a as [|d a IH]; simpl; [reflexivity|].
  rewrite IH, orb_assoc. reflexivity.
Qed.

Lemma has_char_strip (c : ascii) (s : string) :
  has_char c s = false -> has_char c (strip s) = false.
Proof.
  destruct (strip_decompose s) as [l [r [E _]]]. intros H.
  rewrite E, !has_char_append in H.
  apply orb_false_iff in H as [_ H]. apply orb_false_iff in H as [H _]. exact H.
Qed.

Lemma comprehension_clean (pieces : list string) :
  Forall (fun p => has_char "," p = false) pieces ->
  Forall clean_tag (comprehension pieces).
Proof.
  induction 1 as [|p pieces C _ IH]; simpl; [constructor|].
  destruct (strip p) as [|a t] eqn:E; simpl; [exact IH|].
  constructor; [|exact IH]. rewrite <- E. repeat split.
  - rewrite E. discriminate.
  - apply strip_trimmed.
  - apply has_char_strip. exact C.
Qed.

Lemma parse_tags_clean (x : string) : Forall clean_tag (parse_tags x).
Proof. apply comprehension_clean. apply split_pieces. Qed.

(** X1. Every tag the parser returns is non-empty, has no whitespace at
    either end and holds no comma, whatever text it is given. *)
Theorem parsed_tags_are_clean (x : string) : Forall clean_tag (parse_tags x).
Proof. exact (parse_tags_clean x). Qed.

Lemma split_append_sep (sep : ascii) (a b : string) :
  has_char sep a = false ->
  split sep (a ++ String sep b) = a :: split sep b.
Proof.
  induction a as [|c a IH]; simpl; intros H.
  - rewrite Ascii.eqb_refl. reflexivity.
  - apply orb_false_iff in H as [N H]. rewrite N, (IH H). reflexivity.
Qed.

Lemma split_joined (t : string) (rest : list string) :
  Forall clean_tag (t :: rest) ->
  split "," (join ", " (t :: rest)) = t :: map (String " ") rest.
Proof.
  revert t. induction rest as [|u rest IH]; intros t F.
  - inversion F as [|? ? [_ [_ C]] _]; subst. simpl. apply split_single. exact C.
  - inversion F as [|? ? [_ [_ C]] F']; subst.
    change (join ", " (t :: u :: rest))
      with (t ++ String "," (String " " (join ", " (u :: rest))))%string.
    rewrite (split_append_sep "," t _ C).
    change (split "," (String " " (join ", " (u :: rest))))
      with (match split "," (join ", " (u :: rest)) with
            | p :: ps => String " " p :: ps
            | [] => [String " " EmptyString]
            end).
    rewrite (IH u F'). reflexivity.
Qed.

Lemma strip_after_space (t : string) : strip (String " " t) = strip t.
Proof. reflexivity. Qed.

Lemma comprehension_clean_id (tags : list string) :
  Forall clean_tag tags -> comprehension tags = tags.
Proof.
  induction 1 as [|t tags [N [T _]] _ IH]; simpl; [reflexivity|].
  rewrite (strip_id t T), IH. destruct t; [congruence | reflexivity].
Qed.

Lemma comprehension_spaced (tags : list string) :
  Forall clean_tag tags -> comprehension (map (String " ") tags) = tags.
Proof.
  induction 1 as [|t tags [N [T _]] _ IH]; simpl map; [reflexivity|].
  cbn [comprehension]. rewrite strip_after_space, (strip_id t T), IH.
  destruct t; [congruence | reflexivity].
Qed.

(** Parsing the comma-joined text of clean tags gives the tags back. *)
Lemma parse_joined (tags : list string) :
  Forall clean_tag tags -> parse_tags (join ", " tags) = tags.
Proof.
  intros F. destruct tags as [|t rest]; [reflexivity|].
  unfold parse_tags. rewrite (split_joined t rest F).
  inversion F as [|? ? [N [T C]] F']; subst. cbn [comprehension].
  rewrite (strip_id t T), (comprehension_spaced rest F').
  destruct t; [congruence | reflexivity].
Qed.

(** X2. The text the table shows for a tag list ([", ".join], lines
    93-94) parses back to the same list: for any cell, joining the tags
    the parser found in it and parsing the joined text again gives the
    same tags, so the shown text loses no tag, no order and no
    duplicate. *)
Theorem joined_tags_parse_back {conv : Conversions} (v : value) :
  exists s,
    join_tags (tag_parser v) = ([], Done (VCell (CStr s)))
    /\ s = join ", " (parse_tags (astype_str_value v))
    /\ tag_parser (VCell (CStr s)) = tag_parser v.
Proof.
  eexists. split; [reflexivity|]. split; [reflexivity|].
  unfold tag_parser. simpl astype_str_value. f_equal.
  apply parse_joined. apply parse_tags_clean.
Qed.

End Tags.

(* ================================================================== *)
(** ** The sidebar's options and the selections *)
(* ================================================================== *)

From Stdlib Require Import Sorted.

Lemma In_insert_sorted (s x : string) (l : list string) :
  In x (insert_sorted s l) <-> x = s \/ In x l.
Proof.
  induction l as [|y l IH]; simpl; [intuition|].
  destruct (String.leb s y); simpl; [intuition|]. rewrite IH. intuition.
Qed.

Lemma In_sorted_set (x : string) (l : list string) : In x (sorted_set l) <-> In x l.
Proof.
  unfold sorted_set. rewrite <- (nodup_In string_dec l x).
  induction (nodup string_dec l) as [|y m IH]; simpl; [tauto|].
  rewrite In_insert_sorted, IH. intuition.
Qed.

Lemma NoDup_insert_sorted (s : string) (l : list string) :
  NoDup l -> ~ In s l -> NoDup (insert_sorted s l).
Proof.
  induction l as [|y l IH]; simpl; intros N I.
  - constructor; [tauto | constructor].
  - destruct (String.leb s y); [constructor; [simpl; tauto | exact N]|].
    inversion N as [|? ? Ny Nl]; subst. constructor.
    + rewrite In_insert_sorted. intuition.
    + apply IH; tauto.
Qed.

Lemma NoDup_sorted_set (l : list string) : NoDup (sorted_set l).
Proof.
  unfold sorted_set. pose proof (NoDup_nodup string_dec l) as N.
  induction N as [|y m I N IH]; simpl; [constructor|].
  apply NoDup_insert_sorted; [exact IH|].
  intros J. apply I. clear - J.
  induction m as [|z m IH]; simpl in *; [tauto|].
  apply In_insert_sorted in J. intuition.
Qed.

Lemma Sorted_insert_sorted (s : string) (l : list string) :
  Sorted (fun a b => String.leb a b = true) l ->
  Sorted (fun a b => String.leb a b = true) (insert_sorted s l).
Proof.
  induction 1 as [|y l S IH H]; simpl.
  - repeat constructor.
  - destruct (String.leb s y) eqn:E.
    + constructor; [constructor; assumption | constructor; exact E].
    + constructor; [exact IH|].
      assert (Y : String.leb y s = true)
        by (destruct (String.leb_total s y); congruence).
      destruct l as [|z l]; simpl.
      * constructor. exact Y.
      * destruct (String.leb s z); constructor; [exact Y|].
        inversion H; assumption.
Qed.

Lemma Sorted_sorted_set (l : list string) :
  Sorted (fun a b => String.leb a b = true) (sorted_set l).
Proof.
  unfold sorted_set. induction (nodup string_dec l) as [|y m IH]; simpl;
    [constructor | apply Sorted_insert_sorted; exact IH].
Qed.

Lemma leb_ltb (a b : string) : String.leb a b = true -> a <> b -> String.ltb a b = true.
Proof.
  unfold String.leb, String.ltb. intros L N.
  destruct (String.compare a b) eqn:C; try reflexivity; try discriminate.
  apply String.compare_eq_iff in C. contradiction.
Qed.

Lemma Sorted_strict (l : list string) :
  Sorted (fun a b => String.leb a b = true) l -> NoDup l ->
  Sorted (fun a b => String.ltb a b = true) l.
Proof.
  induction 1 as [|y l S IH H]; intros N; [constructor|].
  inversion N as [|? ? I N']; subst. constructor; [auto|].
  destruct H as [|z l L]; constructor.
  apply leb_ltb; [exact L|]. intros ->. apply I. left. reflexivity.
Qed.

(** the tags gathered from a column of lists *)
Lemma flatten_tags (j : nat) (rs : list (nat * list value)) :
  (forall r, In r rs -> exists l, entry (VCell (CFloat nan)) j r = VList l) ->
  exists tags,
    flatten (map (entry (VCell (CFloat nan)) j) rs) = ret tags
    /\ forall s, In s tags
                 <-> exists r l, In r rs /\ entry (VCell (CFloat nan)) j r = VList l /\ In s l.
Proof.
  induction rs as [|r rs IH]; intros H; simpl.
  - exists []. split; [reflexivity|]. simpl. split; [tauto|]. intros [? [? [[] _]]].
  - destruct (H r (or_introl eq_refl)) as [l E]. rewrite E. simpl iterate.
    destruct IH as [tags [T M]]; [intros r' I; apply H; right; exact I|].
    rewrite bind_ret, T, bind_ret. exists (l ++ tags). split; [reflexivity|].
    intros s. rewrite in_app_iff, M. split.
    + intros [I|[r' [l' [I [E' J]]]]].
      * exists r, l. auto.
      * exists r', l'. auto.
    + intros [r' [l' [[<-|I] [E' J]]]].
      * left. rewrite E in E'. injection E' as <-. exact J.
      * right. exists r', l'. auto.
Qed.

(** The options of one multiselect box on a tagged frame. *)
Lemma all_tags_tagged (df : DataFrame value) (label : string) (j : nat) :
  positions label (columns df) 0 = [j] ->
  (forall r, In r (rows df) -> exists l, entry (VCell (CFloat nan)) j r = VList l) ->
  exists options,
    all_tags df label = ret options
    /\ Sorted (fun a b => String.ltb a b = true) options
    /\ NoDup options
    /\ forall s, In s options
                 <-> exists r tags, In r (rows df)
                                    /\ value_field df label r = Some (VList tags)
                                    /\ In s tags.
Proof.
  intros P H. destruct (flatten_tags j (rows df) H) as [tags [T M]].
  exists (sorted_set tags). unfold all_tags.
  rewrite (getitem_one _ _ _ _ P), bind_ret, T, bind_ret.
  split; [reflexivity|].
  split; [apply Sorted_strict; [apply Sorted_sorted_set | apply NoDup_sorted_set]|].
  split; [apply NoDup_sorted_set|].
  intros s. rewrite In_sorted_set, M. unfold value_field, field. rewrite P.
  split; intros [r [l [I [E J]]]]; exists r, l; repeat split; auto; congruence.
Qed.

Lemma tagged_columns (df : DataFrame value) (label : string) :
  tagged df -> label = "Sector" \/ label = "Stage" ->
  exists j, positions label (columns df) 0 = [j]
            /\ forall r, In r (rows df) ->
                 exists l, entry (VCell (CFloat nan)) j r = VList l.
Proof.
  intros T L. destruct (tagged_entries df T) as [js [jt [Ps [Pt H]]]].
  destruct L as [-> | ->]; [exists js | exists jt]; (split; [assumption|]);
    intros r I; destruct (H r I) as [a [b [Ea Eb]]]; eauto.
Qed.

Lemma any_in_nothing (tags : list string) : any_in [] tags = false.
Proof. induction tags as [|t tags IH]; simpl; [reflexivity | exact IH]. Qed.

Lemma filter_none {X} (f : X -> bool) (l : list X) :
  (forall x, In x l -> f x = false) -> filter f l = [].
Proof.
  induction l as [|x l IH]; intros H; simpl; [reflexivity|].
  rewrite (H x (or_introl eq_refl)). apply IH. intros y I. apply H. right. exact I.
Qed.

Section Options.
Context {conv : Conversions}.

(** X3. On a loaded dataset the options of either multiselect box (lines
    60 and 63) are the tags that occur in that column, each once, in
    strictly increasing order: no tag of any record is missing from the
    box, and nothing is offered that no record carries. *)
Theorem sidebar_options_are_the_tags_in_order
        (file : csv_file) (g : Generator) (out : list element) (df : DataFrame value)
        (label : string) :
  well_formed file = true ->
  prepare file g = (out, Done df) ->
  label = "Sector" \/ label = "Stage" ->
  exists options,
    all_tags df label = ([], Done options)
    /\ Sorted (fun a b => String.ltb a b = true) options
    /\ NoDup options
    /\ forall s, In s options
                 <-> exists r tags, In r (rows df)
                                    /\ value_field df label r = Some (VList tags)
                                    /\ In s tags.
Proof.
  intros W E L. destruct (prepare_tagged _ _ _ _ W E) as [_ T].
  destruct (tagged_columns df label T L) as [j [P H]].
  exact (all_tags_tagged df label j P H).
Qed.

Lemma any_in_all (options tags : list string) :
  (forall s, In s tags -> In s options) ->
  any_in options tags = nonempty tags.
Proof.
  intros H. destruct tags as [|t tags]; [reflexivity|]. simpl nonempty.
  apply any_in_shared. exists t. split; [left; reflexivity | apply H; left; reflexivity].
Qed.

(** X4. With the boxes left as first shown (every option selected) the
    script returns exactly the records that have at least one Sector tag
    and at least one Stage tag, in their order: the default view hides
    the firms with an empty tag list and no other. *)
Theorem default_selection_shows_every_tagged_record
        (file : csv_file) (g : Generator) (out : list element) (df : DataFrame value) :
  well_formed file = true ->
  prepare file g = (out, Done df) ->
  exists o,
    script file g untouched
    = (o, Done (mkFrame (columns df) (filter (has_tags df) (rows df)))).
Proof.
  intros W E. destruct (prepare_tagged _ _ _ _ W E) as [-> T].
  unfold script. rewrite E, bind_quiet.
  destruct (tagged_columns df "Sector" T (or_introl eq_refl)) as [js [Ps Hs]].
  destruct (tagged_columns df "Stage" T (or_intror eq_refl)) as [jt [Pt Ht]].
  destruct (all_tags_tagged df "Sector" js Ps Hs) as [os [As [_ [_ Ms]]]].
  destruct (all_tags_tagged df "Stage" jt Pt Ht) as [ot [At [_ [_ Mt]]]].
  unfold sidebar. rewrite As, bind_ret, At, bind_ret, bind_ret. simpl fst. simpl snd.
  assert (K : forall r, In r (rows df) -> selected_by df os ot r = has_tags df r).
  { intros r I. destruct T as [_ [_ H]]. destruct (H r I) as [a [b [Fa Fb]]].
    unfold selected_by, has_tags. rewrite Fa, Fb.
    rewrite (any_in_all os a), (any_in_all ot b).
    - destruct a, b; reflexivity.
    - intros s J. apply Mt. exists r, b. auto.
    - intros s J. apply Ms. exists r, a. auto. }
  assert (Z : (os = [] \/ ot = []) -> filter (has_tags df) (rows df) = []).
  { intros O. apply filter_none. intros r I. rewrite <- (K r I).
    destruct T as [_ [_ H]]. destruct (H r I) as [a [b [Fa Fb]]].
    unfold selected_by. rewrite Fa, Fb.
    destruct O as [-> | ->]; rewrite any_in_nothing; [reflexivity | apply andb_false_r]. }
  destruct os as [|s1 os].
  - exists [st_warning EMPTY_SELECTION_MESSAGE]. rewrite Z by (left; reflexivity).
    reflexivity.
  - destruct ot as [|t1 ot].
    + exists [st_warning EMPTY_SELECTION_MESSAGE]. rewrite Z by (right; reflexivity).
      reflexivity.
    + exists []. rewrite filtered_df_tagged by (try exact T; discriminate).
      rewrite (filter_ext_in _ _ _ K). reflexivity.
Qed.

End Options.

(* ================================================================== *)
(** ** The filter and the selections *)
(* ================================================================== *)

Lemma any_in_same (ss ss' tags : list string) :
  (forall s, In s ss <-> In s ss') -> any_in ss tags = any_in ss' tags.
Proof.
  intros H. apply eq_true_iff_eq. rewrite !any_in_shared.
  split; intros [s [I J]]; exists s; split; auto; apply H; exact J.
Qed.

Lemma apply_any_same (ss ss' : list string) (col : list value) :
  (forall s, In s ss <-> In s ss') -> apply_any ss col = apply_any ss' col.
Proof.
  intros H. induction col as [|v col IH]; simpl; [reflexivity|].
  rewrite IH. destruct (iterate v) as [o [tags| |e]]; simpl; try reflexivity.
  rewrite (any_in_same ss ss' tags H). reflexivity.
Qed.

Lemma nonempty_same {X} (l l' : list X) :
  (forall s, In s l <-> In s l') -> nonempty l = nonempty l'.
Proof.
  intros H. destruct l as [|x l], l' as [|y l']; try reflexivity.
  - destruct (proj2 (H y) (or_introl eq_refl)).
  - destruct (proj1 (H x) (or_introl eq_refl)).
Qed.

(** X5. The filter reads each selection as a set: two selections with
    the same tags, in whatever order and however often repeated, give the
    same result on any frame (the same message, the same frame or the
    same exception). *)
Theorem filter_reads_the_selections_as_sets
        (df : DataFrame value) (ss ss' st st' : list string) :
  (forall s, In s ss <-> In s ss') ->
  (forall s, In s st <-> In s st') ->
  filtered_df df ss st = filtered_df df ss' st'.
Proof.
  intros Hs Ht. unfold filtered_df.
  rewrite (nonempty_same ss ss' Hs), (nonempty_same st st' Ht).
  destruct (negb (nonempty ss') || negb (nonempty st')); [reflexivity|].
  destruct (getitem (VCell (CFloat nan)) df "Sector") as [o [sectors| |e]];
    simpl; try reflexivity.
  rewrite (apply_any_same ss ss' sectors Hs).
  destruct (apply_any ss' sectors) as [o1 [m1| |e1]]; simpl; try reflexivity.
  destruct (getitem (VCell (CFloat nan)) df "Stage") as [o2 [stages| |e2]];
    simpl; try reflexivity.
  rewrite (apply_any_same st st' stages Ht). reflexivity.
Qed.

(** On a tagged frame the filter always returns a frame, and it holds
    the records [selected_by] accepts, also when a selection is empty. *)
Lemma filtered_df_rows (df : DataFrame value) (ss st : list string) :
  tagged df ->
  exists o,
    filtered_df df ss st
    = (o, Done (mkFrame (columns df) (filter (selected_by df ss st) (rows df)))).
Proof.
  intros T.
  assert (Z : ss = [] \/ st = [] -> filter (selected_by df ss st) (rows df) = []).
  { intros O. apply filter_none. intros r I.
    destruct T as [_ [_ H]]. destruct (H r I) as [a [b [Fa Fb]]].
    unfold selected_by. rewrite Fa, Fb.
    destruct O as [-> | ->]; rewrite any_in_nothing; [reflexivity | apply andb_false_r]. }
  destruct ss as [|s1 ss].
  - exists [st_warning EMPTY_SELECTION_MESSAGE]. rewrite Z by (left; reflexivity).
    reflexivity.
  - destruct st as [|t1 st].
    + exists [st_warning EMPTY_SELECTION_MESSAGE]. rewrite Z by (right; reflexivity).
      reflexivity.
    + exists []. apply filtered_df_tagged; [exact T | discriminate | discriminate].
Qed.

Lemma any_in_wider (ss ss' tags : list string) :
  incl ss ss' -> any_in ss tags = true -> any_in ss' tags = true.
Proof.
  intros H. rewrite !any_in_shared. intros [s [I J]]. exists s. split; [exact I|].
  apply H. exact J.
Qed.

Section Selections.
Context {conv : Conversions}.

(** X6. Selecting more never hides a record: on a loaded dataset, when
    every selected sector and every selected stage of one choice is also
    selected in another, every record the filter returns for the first
    choice is returned for the second. *)
Theorem wider_selection_returns_no_fewer_records
        (file : csv_file) (g : Generator) (out : list element) (df : DataFrame value)
        (ss ss' st st' : list string) :
  well_formed file = true ->
  prepare file g = (out, Done df) ->
  incl ss ss' -> incl st st' ->
  exists o o' res res',
    filtered_df df ss st = (o, Done res)
    /\ filtered_df df ss' st' = (o', Done res')
    /\ incl (rows res) (rows res').
Proof.
  intros W E Is It. destruct (prepare_tagged _ _ _ _ W E) as [_ T].
  destruct (filtered_df_rows df ss st T) as [o F].
  destruct (filtered_df_rows df ss' st' T) as [o' F'].
  do 4 eexists. split; [exact F|]. split; [exact F'|].
  simpl. intros r I. apply filter_In in I as [I S]. apply filter_In. split; [exact I|].
  unfold selected_by in *.
  destruct (value_field df "Sector" r) as [[c|a]|]; try discriminate.
  destruct (value_field df "Stage" r) as [[c|b]|]; try discriminate.
  apply andb_true_iff in S as [Sa Sb]. apply andb_true_iff. split.
  - exact (any_in_wider ss ss' a Is Sa).
  - exact (any_in_wider st st' b It Sb).
Qed.

End Selections.

(* ================================================================== *)
(** ** The loader: how it ends, and which records it keeps *)
(* ================================================================== *)

Lemma positions_length (c : string) (cols : list string) (from : nat) :
  List.length (positions c cols from) = occurrences c cols.
Proof.
  unfold occurrences. revert from. induction cols as [|d cols IH]; intros from; simpl;
    [reflexivity|].
  destruct (String.eqb_spec d c) as [E|N], (string_dec d c) as [E'|N'];
    try contradiction; simpl; rewrite IH; reflexivity.
Qed.

Lemma occurrences_none (c : string) (cols : list string) :
  occurrences c cols = 0 <-> has_column c cols = false.
Proof.
  unfold occurrences. rewrite has_column_false. symmetry. apply count_occ_not_In.
Qed.

Lemma occurrences_one (c : string) (cols : list string) :
  occurrences c cols = 1 -> exists j, positions c cols 0 = [j].
Proof.
  rewrite <- (positions_length c cols 0).
  destruct (positions c cols 0) as [|j [|j' l]]; try discriminate. eauto.
Qed.

Lemma occurrences_many (c : string) (cols : list string) :
  occurrences c cols >= 2 -> exists j j' l, positions c cols 0 = j :: j' :: l.
Proof.
  rewrite <- (positions_length c cols 0).
  destruct (positions c cols 0) as [|j [|j' l]]; simpl; try lia. eauto.
Qed.

Lemma occurrences_some (c : string) (cols : list string) :
  occurrences c cols >= 1 -> has_column c cols = true.
Proof.
  intros H. destruct (has_column c cols) eqn:E; [reflexivity|].
  apply occurrences_none in E. lia.
Qed.

Section LoaderOutcomes.
Context {conv : Conversions}.

Lemma load_validated (header : list string) (records : list (list cell)) :
  occurrences "latitude" (map resolves_to header) >= 1 ->
  occurrences "longitude" (map resolves_to header) >= 1 ->
  exists df0,
    columns df0 = map resolves_to header
    /\ load (Table header records) = coerce_coordinates df0.
Proof.
  intros H1 H2. rewrite load_table.
  set (df0 := normalize_columns _).
  assert (C : columns df0 = map resolves_to header) by apply normalize_columns_resolves.
  exists df0. split; [exact C|]. unfold validate. rewrite C.
  rewrite (occurrences_some _ _ H2), (occurrences_some _ _ H1).
  cbn [negb orb]. exact (bind_ret tt (fun _ => coerce_coordinates df0)).
Qed.

Lemma load_duplicate_latitude (header : list string) (records : list (list cell)) :
  occurrences "latitude" (map resolves_to header) >= 2 ->
  occurrences "longitude" (map resolves_to header) >= 1 ->
  load (Table header records) = ([], Raised (DuplicateLabel "latitude")).
Proof.
  intros H1 H2.
  destruct (load_validated header records) as [df0 [C ->]]; [lia | lia |].
  unfold coerce_coordinates, getitem at 1. rewrite C.
  destruct (occurrences_many _ _ H1) as [j [j' [l ->]]]. reflexivity.
Qed.

Lemma load_duplicate_longitude (header : list string) (records : list (list cell)) :
  occurrences "latitude" (map resolves_to header) = 1 ->
  occurrences "longitude" (map resolves_to header) >= 2 ->
  load (Table header records) = ([], Raised (DuplicateLabel "longitude")).
Proof.
  intros H1 H2.
  destruct (load_validated header records) as [df0 [C ->]]; [lia | lia |].
  unfold coerce_coordinates.
  destruct (occurrences_one _ _ H1) as [jlat P1]. rewrite <- C in P1.
  rewrite (getitem_one _ _ _ _ P1), bind_ret. unfold to_numeric.
  rewrite (setitem_update (CFloat nan) _ "latitude" coerced jlat P1), bind_ret.
  unfold getitem at 1. simpl columns. rewrite C.
  destruct (occurrences_many _ _ H2) as [j [j' [l ->]]]. reflexivity.
Qed.

Lemma load_succeeds (header : list string) (records : list (list cell)) :
  occurrences "latitude" (map resolves_to header) = 1 ->
  occurrences "longitude" (map resolves_to header) = 1 ->
  exists df, load (Table header records) = ([], Done df)
             /\ columns df = map resolves_to header.
Proof.
  intros H1 H2.
  destruct (load_validated header records) as [df0 [C ->]]; [lia | lia |].
  destruct (occurrences_one _ _ H1) as [jlat P1].
  destruct (occurrences_one _ _ H2) as [jlon P2].
  rewrite <- C in P1, P2.
  rewrite (coerce_coordinates_done _ jlat jlon P1 P2).
  eexists. split; [reflexivity|]. simpl. exact C.
Qed.

Lemma load_schema (header : list string) (records : list (list cell)) :
  occurrences "latitude" (map resolves_to header) = 0
  \/ occurrences "longitude" (map resolves_to header) = 0 ->
  load (Table header records) = ([st_error SCHEMA_MESSAGE], Stopped).
Proof.
  intros H. rewrite load_table. unfold validate.
  rewrite normalize_columns_resolves. simpl columns.
  destruct H as [H|H]; apply occurrences_none in H; rewrite H; simpl.
  - reflexivity.
  - rewrite orb_true_r. reflexivity.
Qed.

(** X7. The loader ends in one of six ways: the missing-file message
    and a stop, when [pd.read_csv] raises [FileNotFoundError]; any
    other exception of [pd.read_csv] uncaught, with nothing shown (line
    19 catches [FileNotFoundError] only); the missing-column message and
    a stop; an uncaught exception because two headers resolve to
    [latitude], or because two resolve to [longitude]; or, when exactly
    one header resolves to each, a frame whose columns are the resolved
    headers, with nothing written.  Once the table is read, it never
    fails because of what a field holds. *)
Theorem load_ends_in_one_of_six_ways (file : csv_file) :
  (file = FileNotFound /\ load file = ([st_error DATA_MESSAGE], Stopped))
  \/ (exists error,
        file = Unreadable error /\ load file = ([], Raised (ReadError error)))
  \/ exists header records,
       file = Table header records
       /\ ((occurrences "latitude" (map resolves_to header) = 0
            \/ occurrences "longitude" (map resolves_to header) = 0)
           /\ load file = ([st_error SCHEMA_MESSAGE], Stopped)
           \/ (occurrences "latitude" (map resolves_to header) >= 2
               /\ occurrences "longitude" (map resolves_to header) >= 1
               /\ load file = ([], Raised (DuplicateLabel "latitude")))
           \/ (occurrences "latitude" (map resolves_to header) = 1
               /\ occurrences "longitude" (map resolves_to header) >= 2
               /\ load file = ([], Raised (DuplicateLabel "longitude")))
           \/ (occurrences "latitude" (map resolves_to header) = 1
               /\ occurrences "longitude" (map resolves_to header) = 1
               /\ exists df, load file = ([], Done df)
                             /\ columns df = map resolves_to header)).
Proof.
  destruct file as [|error|header records];
    [left; split; reflexivity | right; left; exists error; split; reflexivity |].
  right.
  right. exists header, records. split; [reflexivity|].
  remember (occurrences "latitude" (map resolves_to header)) as a eqn:Ea.
  remember (occurrences "longitude" (map resolves_to header)) as b eqn:Eb.
  destruct a as [|[|a]].
  - left. split; [left; reflexivity|]. apply load_schema. left. congruence.
  - destruct b as [|[|b]].
    + left. split; [right; reflexivity|]. apply load_schema. right. congruence.
    + right. right. right. split; [reflexivity|]. split; [reflexivity|].
      apply load_succeeds; congruence.
    + right. right. left. split; [reflexivity|]. split; [lia|].
      apply load_duplicate_longitude; [congruence | lia].
  - destruct b as [|b].
    + left. split; [right; reflexivity|]. apply load_schema. right. congruence.
    + right. left. split; [lia|]. split; [lia|].
      apply load_duplicate_latitude; lia.
Qed.

End LoaderOutcomes.

Lemma index_filter_rows {X} (P : nat * X -> bool) (l : list X) (a : nat) :
  map fst (filter P (combine (seq a (List.length l)) l))
  = filter (fun k => match nth_error l (k - a) with
                     | Some x => P (k, x)
                     | None => false
                     end) (seq a (List.length l)).
Proof.
  revert a. induction l as [|x l IH]; intros a; simpl; [reflexivity|].
  rewrite Nat.sub_diag. simpl.
  assert (T : filter (fun k => match nth_error (x :: l) (k - a) with
                               | Some y => P (k, y)
                               | None => false
                               end) (seq (S a) (List.length l))
              = map fst (filter P (combine (seq (S a) (List.length l)) l))).
  { rewrite IH. apply filter_ext_in. intros k I. apply in_seq in I.
    replace (k - a) with (S (k - S a)) by lia. reflexivity. }
  rewrite T. destruct (P (a, x)); reflexivity.
Qed.

Lemma nth_in_combine_seq {X} (l : list X) (a k : nat) (x : X) :
  nth_error l k = Some x -> In (a + k, x) (combine (seq a (List.length l)) l).
Proof.
  revert a k. induction l as [|y l IH]; intros a [|k] N; try discriminate; simpl in *.
  - injection N as ->. left. rewrite Nat.add_0_r. reflexivity.
  - right. replace (a + S k) with (S a + k) by lia. apply IH. exact N.
Qed.

Lemma filter_map_rows {X Y} (f : X -> Y) (p : Y -> bool) (l : list X) :
  filter p (map f l) = map f (filter (fun x => p (f x)) l).
Proof.
  induction l as [|x l IH]; simpl; [reflexivity|].
  rewrite IH. destruct (p (f x)); reflexivity.
Qed.

Lemma complete_all (cols subset : list string) (r : list cell) :
  List.length r = List.length cols ->
  (forall j c x, nth_error cols j = Some c -> nth_error r j = Some x ->
                 In c subset -> isna x = false) ->
  complete cols subset r = true.
Proof.
  revert r. induction cols as [|d cols IH]; intros [|y r] L H; try discriminate;
    simpl; [reflexivity|].
  apply andb_true_iff. split.
  - destruct (has_column d subset) eqn:E; [|reflexivity].
    apply negb_true_iff. apply (H 0 d y eq_refl eq_refl). apply has_column_In. exact E.
  - apply IH; [simpl in L; lia|]. intros j c x N X. exact (H (S j) c x N X).
Qed.

Section LoaderRows.
Context {conv : Conversions}.

Lemma coerced_numeric (c : cell) : negb (isna (coerced c)) = numeric c.
Proof. reflexivity. Qed.

(** Line 43 on a row after lines 41-42: it stays exactly when both of
    its coordinates are numbers. *)
Lemma complete_coerced_row (cols : list string) (jlat jlon : nat) (r0 : nat * list cell) :
  positions "latitude" cols 0 = [jlat] ->
  positions "longitude" cols 0 = [jlon] ->
  List.length (snd r0) = List.length cols ->
  complete cols COORDINATES
    (snd (rewrite_entry (CFloat nan) cols "longitude" coerced jlon
            (rewrite_entry (CFloat nan) cols "latitude" coerced jlat r0)))
  = numeric (entry (CFloat nan) jlat r0) && numeric (entry (CFloat nan) jlon r0).
Proof.
  intros P1 P2 L.
  destruct (coerced_row cols jlat jlon r0 P1 P2 L) as [E1 [E2 [L' _]]].
  set (r := rewrite_entry _ cols "longitude" coerced jlon _) in *.
  apply eq_true_iff_eq. rewrite andb_true_iff. split.
  - intros C.
    pose proof (complete_entry cols r jlat "latitude" C L' (positions_one _ _ _ P1)
                  (or_introl eq_refl)) as H1.
    pose proof (complete_entry cols r jlon "longitude" C L' (positions_one _ _ _ P2)
                  (or_intror (or_introl eq_refl))) as H2.
    rewrite E1 in H1. rewrite E2 in H2. rewrite <- !coerced_numeric, H1, H2. auto.
  - intros [H1 H2]. rewrite <- coerced_numeric in H1, H2.
    apply negb_true_iff in H1, H2.
    apply complete_all; [exact L'|]. intros j c x N X [<-|[<-|[]]].
    + rewrite (positions_unique _ _ _ _ P1 N) in X.
      rewrite <- E1 in H1. rewrite entry_nth_error, X in H1. exact H1.
    + rewrite (positions_unique _ _ _ _ P2 N) in X.
      rewrite <- E2 in H2. rewrite entry_nth_error, X in H2. exact H2.
Qed.

(** The entries of a row after lines 41-42. *)
Lemma coerced_row_fields (cols : list string) (jlat jlon j : nat) (k : nat)
      (rec : list cell) (c : cell) :
  positions "latitude" cols 0 = [jlat] ->
  positions "longitude" cols 0 = [jlon] ->
  List.length rec = List.length cols ->
  nth_error rec j = Some c ->
  nth_error (snd (rewrite_entry (CFloat nan) cols "longitude" coerced jlon
                    (rewrite_entry (CFloat nan) cols "latitude" coerced jlat (k, rec)))) j
  = Some (if (j =? jlat)%nat || (j =? jlon)%nat then coerced c else c).
Proof.
  intros P1 P2 L X.
  assert (Lj : j < List.length cols) by (rewrite <- L; apply nth_error_Some; congruence).
  destruct (nth_error cols j) as [d|] eqn:N; [|apply nth_error_None in N; lia].
  unfold rewrite_entry. cbn [fst snd].
  rewrite !nth_error_assign, N, X.
  assert (Ec : entry (CFloat nan) j (k, rec) = c)
    by (rewrite entry_nth_error; simpl; rewrite X; reflexivity).
  f_equal. destruct (String.eqb_spec d "longitude") as [->|Nlon].
  - pose proof (positions_unique _ _ _ _ P2 N) as ->.
    rewrite Nat.eqb_refl, orb_true_r. f_equal.
    rewrite entry_nth_error. cbn [snd]. rewrite nth_error_assign, N, X. simpl.
    reflexivity.
  - destruct (String.eqb_spec d "latitude") as [->|Nlat].
    + pose proof (positions_unique _ _ _ _ P1 N) as ->.
      rewrite Nat.eqb_refl, Ec. reflexivity.
    + assert (j <> jlat).
      { intros ->. rewrite (positions_one _ _ _ P1) in N. congruence. }
      assert (j <> jlon).
      { intros ->. rewrite (positions_one _ _ _ P2) in N. congruence. }
      rewrite (proj2 (Nat.eqb_neq j jlat)), (proj2 (Nat.eqb_neq j jlon)) by assumption.
      reflexivity.
Qed.

(** X8. A successful load keeps exactly the records whose latitude and
    longitude fields both read as numbers other than NaN, in the order
    of the file and under the record numbers they had there; in a kept
    record the two coordinate fields are replaced by their numbers and
    every other field is as it was in the file. *)
Theorem loader_keeps_the_records_with_both_coordinates
        (header : list string) (records : list (list cell))
        (out : list element) (df : DataFrame cell) :
  rectangular header records = true ->
  load (Table header records) = (out, Done df) ->
  exists jlat jlon,
    positions "latitude" (map resolves_to header) 0 = [jlat]
    /\ positions "longitude" (map resolves_to header) 0 = [jlon]
    /\ index df
       = filter (fun k => numeric (field_at records k jlat)
                          && numeric (field_at records k jlon))
                (seq 0 (List.length records))
    /\ forall k r, In (k, r) (rows df) ->
         exists rec,
           nth_error records k = Some rec
           /\ List.length r = List.length rec
           /\ forall j c, nth_error rec j = Some c ->
                nth_error r j
                = Some (if (j =? jlat)%nat || (j =? jlon)%nat then coerced c else c).
Proof.
  intros W E. pose proof (rectangular_rect _ _ W) as R.
  unfold rect in R. rewrite Forall_forall in R. simpl in R.
  apply load_done in E as [jlat [jlon [P1 [P2 [_ ->]]]]].
  set (cols := map resolves_to header) in *.
  assert (LEN : forall r0, In r0 (combine (seq 0 (List.length records)) records) ->
                           List.length (snd r0) = List.length cols).
  { intros r0 I. unfold cols. rewrite length_map. exact (R _ I). }
  exists jlat, jlon. split; [exact P1|]. split; [exact P2|]. split.
  - unfold index. simpl rows. rewrite <- map_map, !filter_map_rows, !map_map. simpl.
    rewrite index_filter_rows. apply filter_ext_in. intros k I.
    rewrite Nat.sub_0_r. unfold field_at.
    destruct (nth_error records k) as [rec|] eqn:N.
    + assert (J : In (k, rec) (combine (seq 0 (List.length records)) records)).
      { exact (nth_in_combine_seq records 0 k rec N). }
      transitivity (numeric (entry (CFloat nan) jlat (k, rec))
                    && numeric (entry (CFloat nan) jlon (k, rec)));
        [exact (complete_coerced_row cols jlat jlon (k, rec) P1 P2 (LEN _ J))|].
      unfold entry. simpl. rewrite (nth_error_nth _ _ _ N). reflexivity.
    + apply in_seq in I. apply nth_error_None in N. lia.
  - intros k r I. simpl in I. apply filter_In in I as [I _].
    apply in_map_iff in I as [r1 [E1 I]]. apply in_map_iff in I as [r0 [<- I]].
    destruct r0 as [k0 rec]. injection E1 as <- <-.
    pose proof (LEN _ I) as L. simpl in L.
    apply in_combine_seq in I as [_ I]. rewrite Nat.sub_0_r in I.
    exists rec. split; [exact I|]. split.
    + cbn [fst snd]. rewrite !length_assign. reflexivity.
    + intros j c X. exact (coerced_row_fields cols jlat jlon j k0 rec c P1 P2 L X).
Qed.

End LoaderRows.

(* ================================================================== *)
(** ** The jitter columns *)
(* ================================================================== *)

Lemma positions_app (c : string) (cols cols' : list string) (from : nat) :
  positions c (cols ++ cols') from
  = positions c cols from ++ positions c cols' (from + List.length cols).
Proof.
  revert from. induction cols as [|d cols IH]; intros from; simpl.
  - rewrite Nat.add_0_r. reflexivity.
  - rewrite IH. replace (S from + List.length cols) with (from + S (List.length cols)) by lia.
    destruct (String.eqb d c); reflexivity.
Qed.

Lemma positions_absent (c : string) (cols : list string) (from : nat) :
  ~ In c cols -> positions c cols from = [].
Proof.
  revert from. induction cols as [|d cols IH]; intros from N; simpl; [reflexivity|].
  destruct (String.eqb_spec d c) as [->|_]; [simpl in N; tauto|].
  apply IH. simpl in N. tauto.
Qed.

Lemma nth_error_combine {X Y} (a : list X) (b : list Y) (i : nat) :
  nth_error (combine a b) i
  = match nth_error a i, nth_error b i with
    | Some x, Some y => Some (x, y)
    | _, _ => None
    end.
Proof.
  revert b i. induction a as [|x a IH]; intros [|y b] [|i]; simpl; try reflexivity.
  - destruct (nth_error a i); reflexivity.
  - apply IH.
Qed.

Lemma nth_error_draws (g : Generator) (n i : nat) :
  i < n -> nth_error (map g (seq 0 n)) i = Some (g i).
Proof.
  intros L. rewrite nth_error_map.
  rewrite (nth_error_nth' (seq 0 n) 0) by (rewrite length_seq; exact L).
  rewrite seq_nth by exact L. reflexivity.
Qed.

Section SetitemFacts.
Context {A : Type}.
Variable na : A.

Lemma setitem_columns_other (df df' : DataFrame A) (c c' : string) (s : list A)
      (out : list element) :
  setitem df c s = (out, Done df') -> c' <> c ->
  positions c' (columns df') 0 = positions c' (columns df) 0.
Proof.
  intros E N. apply setitem_done in E as [_ [_ [[_ ->]|[_ ->]]]]; simpl; [reflexivity|].
  rewrite positions_app. simpl.
  destruct (String.eqb_spec c c'); [congruence | apply app_nil_r].
Qed.

Lemma setitem_rows_index (df df' : DataFrame A) (c : string) (s : list A)
      (out : list element) :
  setitem df c s = (out, Done df') -> index df' = index df.
Proof.
  intros E. apply setitem_done in E as [_ [L [[_ ->]|[_ ->]]]];
    unfold index; simpl; rewrite map_map; simpl;
    rewrite <- (map_map fst fst); rewrite map_fst_combine by exact L; reflexivity.
Qed.

(** Writing a label does not disturb the series read under another. *)
Lemma getitem_setitem_other (df df' : DataFrame A) (c c' : string) (s : list A)
      (out : list element) :
  rect df -> setitem df c s = (out, Done df') -> c' <> c ->
  getitem na df' c' = getitem na df c'.
Proof.
  intros R E N. unfold getitem. rewrite (setitem_columns_other _ _ _ _ _ _ E N).
  destruct (positions c' (columns df) 0) as [|j [|j' l]] eqn:P; try reflexivity.
  apply (f_equal ret).
  apply setitem_done in E as [_ [L [[I ->]|[I ->]]]]; simpl;
    rewrite map_map; rewrite <- (map_fst_combine (rows df) s L) at 2; rewrite map_map;
    apply map_ext_in; intros rv V; rewrite !entry_nth_error; simpl.
  - rewrite nth_error_assign, (positions_one _ _ _ P).
    destruct (nth_error (snd (fst rv)) j); [|reflexivity].
    destruct (String.eqb_spec c' c); [congruence | reflexivity].
  - apply in_combine_fst in V. unfold rect in R. rewrite Forall_forall in R.
    specialize (R _ V).
    assert (j < List.length (columns df))
      by (apply nth_error_Some; rewrite (positions_one _ _ _ P); discriminate).
    rewrite nth_error_app1 by lia. reflexivity.
Qed.

Lemma setitem_new (df : DataFrame A) (c : string) (s : list A) :
  ~ In c (columns df) -> List.length s = len df ->
  setitem df c s
  = ret (mkFrame (columns df ++ [c])
           (map (fun rv => (fst (fst rv), snd (fst rv) ++ [snd rv])) (combine (rows df) s))).
Proof.
  intros N L. unfold setitem. rewrite L, Nat.eqb_refl. simpl.
  apply has_column_false in N. rewrite N. reflexivity.
Qed.

Lemma setitem_succeeds (df : DataFrame A) (c : string) (s : list A) :
  List.length s = len df -> exists df', setitem df c s = ([], Done df').
Proof.
  intros L. unfold setitem. rewrite L, Nat.eqb_refl. simpl.
  destruct (has_column c (columns df)); eexists; reflexivity.
Qed.

End SetitemFacts.

(** What [series + array] returns when it returns. *)
Lemma series_add_values (series : list cell) (arr : list float)
      (out : list element) (s : list cell) :
  series_add series arr = (out, Done s) ->
  List.length arr = List.length series
  /\ forall i c, nth_error series i = Some c ->
       exists f u, c = CFloat f /\ nth_error arr i = Some u
                   /\ nth_error s i = Some (CFloat (fadd f u)).
Proof.
  revert arr out s. induction series as [|c series IH]; intros arr out s E.
  - destruct arr; simpl in E; [|discriminate]. split; [reflexivity|].
    intros [|i] c; discriminate.
  - destruct c as [t|f]; destruct arr as [|u arr]; simpl in E; try discriminate.
    apply bind_done in E as [? [rest [? [E1 [E2 _]]]]].
    apply IH in E1 as [L H]. injection E2 as _ <-. split; [simpl; lia|].
    intros [|i] c X; simpl in *.
    + injection X as <-. eauto.
    + exact (H i c X).
Qed.

Lemma series_add_floats (series : list cell) (arr : list float) :
  List.length arr = List.length series ->
  (forall c, In c series -> exists f, c = CFloat f) ->
  exists s, series_add series arr = ([], Done s).
Proof.
  revert arr. induction series as [|c series IH]; intros [|u arr] L H; try discriminate.
  - eexists; reflexivity.
  - destruct (H c (or_introl eq_refl)) as [f ->]. cbn [series_add].
    destruct (IH arr) as [s E]; [simpl in L; lia | intros d I; apply H; right; exact I|].
    rewrite E, bind_quiet. eexists; reflexivity.
Qed.

Lemma getitem_series {A} (na : A) (df : DataFrame A) (c : string)
      (out : list element) (s : list A) :
  getitem na df c = (out, Done s) ->
  exists j, positions c (columns df) 0 = [j] /\ s = map (entry na j) (rows df).
Proof.
  unfold getitem. destruct (positions c (columns df) 0) as [|j [|j' l]]; try discriminate.
  intros E. injection E as _ <-. exists j. auto.
Qed.

Lemma entry_in_row {A} (na : A) (cols : list string) (c : string) (j : nat)
      (r : nat * list A) :
  positions c cols 0 = [j] -> List.length (snd r) = List.length cols ->
  nth_error (snd r) j = Some (entry na j r).
Proof.
  intros P L. rewrite entry_nth_error.
  destruct (nth_error (snd r) j) eqn:X; [reflexivity|].
  apply nth_error_None in X. apply positions_one in P.
  assert (j < List.length cols) by (apply nth_error_Some; congruence). lia.
Qed.

Section JitterColumns.
Context {conv : Conversions}.

(** X9. Lines 46-47 write only into the columns [lat_jitter] and
    [lon_jitter]: they show nothing, keep the index, and every other
    column, the true [latitude] and [longitude] among them, reads after
    the jitter exactly as it read before. *)
Theorem jitter_leaves_the_other_columns_alone
        (g g' : Generator) (df df' : DataFrame cell) (out : list element) :
  rect df ->
  add_jitter g df = (out, Done (df', g')) ->
  out = []
  /\ index df' = index df
  /\ forall c, ~ In c JITTER ->
       getitem (CFloat nan) df' c = getitem (CFloat nan) df c.
Proof.
  intros R E. unfold add_jitter, uniform in E.
  apply bind_done in E as [? [lat [? [G1 [E ->]]]]].
  apply getitem_quiet in G1 as ->.
  apply bind_done in E as [? [jit [? [A1 [E ->]]]]].
  apply series_add_done in A1 as [-> _].
  apply bind_done in E as [? [df1 [? [S1 [E ->]]]]].
  pose proof (setitem_rect _ _ _ _ _ R S1) as R1.
  pose proof (setitem_done _ _ _ _ _ S1) as [-> _].
  apply bind_done in E as [? [lon [? [G2 [E ->]]]]].
  apply getitem_quiet in G2 as ->.
  apply bind_done in E as [? [jit2 [? [A2 [E ->]]]]].
  apply series_add_done in A2 as [-> _].
  apply bind_done in E as [? [df2 [? [S2 [E ->]]]]].
  pose proof (setitem_done _ _ _ _ _ S2) as [-> _].
  injection E as <- <- <-. split; [reflexivity|]. split.
  - rewrite (setitem_rows_index _ _ _ _ _ S2). exact (setitem_rows_index _ _ _ _ _ S1).
  - intros c N.
    rewrite (getitem_setitem_other (CFloat nan) df1 df2 "lon_jitter" c _ _ R1 S2)
      by (intros ->; apply N; simpl; auto).
    apply (getitem_setitem_other (CFloat nan) df df1 "lat_jitter" c _ _ R S1).
    intros ->. apply N. simpl. auto.
Qed.

(** X10. When the table has no column called [lat_jitter] or
    [lon_jitter], lines 46-47 append the two columns, in that order, and
    keep the rows: row number [i] gets its latitude plus draw number
    [i] of the generator and its longitude plus draw number [n + i],
    where [n] is the number of rows, and the generator is left [2n]
    draws further.  The coordinates are floats whenever the jitter goes
    through. *)
Theorem jitter_adds_one_draw_to_each_coordinate
        (g g' : Generator) (df df' : DataFrame cell) (out : list element) :
  rect df ->
  add_jitter g df = (out, Done (df', g')) ->
  ~ In "lat_jitter" (columns df) ->
  ~ In "lon_jitter" (columns df) ->
  exists jlat jlon,
    positions "latitude" (columns df) 0 = [jlat]
    /\ positions "longitude" (columns df) 0 = [jlon]
    /\ columns df' = columns df ++ ["lat_jitter"; "lon_jitter"]
    /\ len df' = len df
    /\ (forall i k r,
          nth_error (rows df) i = Some (k, r) ->
          exists lat lon,
            nth_error r jlat = Some (CFloat lat)
            /\ nth_error r jlon = Some (CFloat lon)
            /\ nth_error (rows df') i
               = Some (k, r ++ [CFloat (fadd lat (g i));
                                CFloat (fadd lon (g (len df + i)))]))
    /\ forall i, g' i = g (len df + (len df + i)).
Proof.
  intros R E N1 N2. unfold add_jitter, uniform in E.
  apply bind_done in E as [? [lat [? [G1 [E _]]]]].
  apply bind_done in E as [? [jit [? [A1 [E _]]]]].
  apply bind_done in E as [? [df1 [? [S1 [E _]]]]].
  apply bind_done in E as [? [lon [? [G2 [E _]]]]].
  apply bind_done in E as [? [jit2 [? [A2 [E _]]]]].
  apply bind_done in E as [? [df2 [? [S2 [E _]]]]].
  injection E as _ <- <-.
  rewrite (getitem_setitem_other (CFloat nan) df df1 "lat_jitter" "longitude" _ _ R S1)
    in G2 by discriminate.
  destruct (getitem_series _ _ _ _ _ G1) as [jlat [P1 ->]].
  destruct (getitem_series _ _ _ _ _ G2) as [jlon [P2 ->]].
  pose proof (series_add_done _ _ _ _ A1) as [_ L1]. rewrite length_map in L1.
  pose proof (series_add_done _ _ _ _ A2) as [_ L2]. rewrite length_map in L2.
  destruct (series_add_values _ _ _ _ A1) as [_ V1].
  destruct (series_add_values _ _ _ _ A2) as [_ V2].
  assert (D1 : len df1 = len df).
  { unfold len. rewrite <- (length_map fst (rows df1)), <- (length_map fst (rows df)).
    pose proof (setitem_rows_index _ _ _ _ _ S1) as I. unfold index in I.
    rewrite I. reflexivity. }
  rewrite D1 in *.
  rewrite (setitem_new df "lat_jitter" jit N1 L1) in S1. injection S1 as <- <-.
  assert (N2' : ~ In "lon_jitter" (columns df ++ ["lat_jitter"])).
  { rewrite in_app_iff. simpl. intros [I|[I|[]]]; [tauto | discriminate]. }
  rewrite (setitem_new (mkFrame (columns df ++ ["lat_jitter"]) _) "lon_jitter" jit2 N2') in S2
    by (rewrite D1; exact L2).
  injection S2 as <- <-.
  exists jlat, jlon. split; [exact P1|]. split; [exact P2|]. split.
  { simpl. rewrite <- app_assoc. reflexivity. }
  split.
  { unfold len. simpl. repeat (rewrite length_map || rewrite length_combine).
    rewrite L1, L2. lia. }
  split; [|reflexivity].
  intros i k r X.
  assert (Li : i < len df) by (apply nth_error_Some; unfold len; congruence).
  unfold rect in R. rewrite Forall_forall in R.
  pose proof (R _ (nth_error_In _ _ X)) as Lr. simpl in Lr.
  destruct (V1 i (entry (CFloat nan) jlat (k, r))) as [f1 [u1 [F1 [U1 J1]]]];
    [rewrite nth_error_map, X; reflexivity|].
  destruct (V2 i (entry (CFloat nan) jlon (k, r))) as [f2 [u2 [F2 [U2 J2]]]];
    [rewrite nth_error_map, X; reflexivity|].
  rewrite (nth_error_draws g (len df) i Li) in U1. injection U1 as <-.
  rewrite (nth_error_draws (fun i => g (len df + i)) (len df) i Li) in U2.
  injection U2 as <-.
  exists f1, f2.
  split; [rewrite <- F1; exact (entry_in_row (CFloat nan) _ _ jlat (k, r) P1 Lr)|].
  split; [rewrite <- F2; exact (entry_in_row (CFloat nan) _ _ jlon (k, r) P2 Lr)|].
  simpl rows. rewrite nth_error_map, nth_error_combine, nth_error_map, nth_error_combine.
  rewrite X, J1, J2. simpl. rewrite <- app_assoc. reflexivity.
Qed.

End JitterColumns.

(* ================================================================== *)
(** ** From the loaded frame to the tagged frame *)
(* ================================================================== *)

Section Preparing.
Context {conv : Conversions}.

(** After a load both coordinate columns hold floats. *)
Lemma loaded_coordinates_are_floats (file : csv_file) (out : list element)
      (df : DataFrame cell) :
  well_formed file = true -> load file = (out, Done df) ->
  exists jlat jlon,
    positions "latitude" (columns df) 0 = [jlat]
    /\ positions "longitude" (columns df) 0 = [jlon]
    /\ forall r, In r (rows df) ->
         (exists f, entry (CFloat nan) jlat r = CFloat f)
         /\ (exists f, entry (CFloat nan) jlon r = CFloat f).
Proof.
  intros W E. destruct file as [|error|header records]; [discriminate|discriminate|]. simpl in W.
  pose proof (rectangular_rect _ _ W) as R.
  unfold rect in R. rewrite Forall_forall in R. simpl in R.
  apply load_done in E as [jlat [jlon [P1 [P2 [_ ->]]]]].
  exists jlat, jlon. simpl columns. split; [exact P1|]. split; [exact P2|].
  intros r I. simpl in I. apply filter_In in I as [I _].
  apply in_map_iff in I as [r1 [<- I]]. apply in_map_iff in I as [r0 [<- I]].
  assert (L : List.length (snd r0) = List.length (map resolves_to header))
    by (rewrite length_map; exact (R _ I)).
  destruct (coerced_row _ jlat jlon r0 P1 P2 L) as [E1 [E2 _]].
  rewrite E1, E2. unfold coerced. eauto.
Qed.

(** On a frame whose coordinate columns hold floats the jitter goes
    through, writes nothing and leaves the other labels where they were. *)
Lemma add_jitter_succeeds (g : Generator) (df : DataFrame cell) (jlat jlon : nat) :
  rect df ->
  positions "latitude" (columns df) 0 = [jlat] ->
  positions "longitude" (columns df) 0 = [jlon] ->
  (forall r, In r (rows df) ->
     (exists f, entry (CFloat nan) jlat r = CFloat f)
     /\ (exists f, entry (CFloat nan) jlon r = CFloat f)) ->
  exists df' g',
    add_jitter g df = ([], Done (df', g'))
    /\ rect df'
    /\ forall c, ~ In c JITTER ->
         positions c (columns df') 0 = positions c (columns df) 0
         /\ getitem (CFloat nan) df' c = getitem (CFloat nan) df c.
Proof.
  intros R P1 P2 F. unfold add_jitter, uniform.
  rewrite (getitem_one _ _ _ _ P1), bind_ret. cbv beta iota.
  destruct (series_add_floats (map (entry (CFloat nan) jlat) (rows df))
              (map g (seq 0 (len df)))) as [jit A1].
  { rewrite !length_map, length_seq. reflexivity. }
  { intros c I. apply in_map_iff in I as [r [<- I]]. apply (F r I). }
  rewrite A1, bind_quiet.
  pose proof (series_add_done _ _ _ _ A1) as [_ L1]. rewrite length_map in L1.
  destruct (setitem_succeeds df "lat_jitter" jit L1) as [df1 S1].
  rewrite S1, bind_quiet.
  pose proof (setitem_rect _ _ _ _ _ R S1) as R1.
  assert (D1 : len df1 = len df).
  { unfold len. rewrite <- (length_map fst (rows df1)), <- (length_map fst (rows df)).
    pose proof (setitem_rows_index _ _ _ _ _ S1) as I. unfold index in I.
    rewrite I. reflexivity. }
  rewrite (getitem_setitem_other (CFloat nan) df df1 "lat_jitter" "longitude" _ _ R S1)
    by discriminate.
  rewrite (getitem_one _ _ _ _ P2), bind_ret. cbv beta iota.
  destruct (series_add_floats (map (entry (CFloat nan) jlon) (rows df))
              (map (fun i => g (len df + i)) (seq 0 (len df1)))) as [jit2 A2].
  { rewrite !length_map, length_seq. exact D1. }
  { intros c I. apply in_map_iff in I as [r [<- I]]. apply (F r I). }
  rewrite A2, bind_quiet.
  pose proof (series_add_done _ _ _ _ A2) as [_ L2]. rewrite length_map in L2.
  destruct (setitem_succeeds df1 "lon_jitter" jit2) as [df2 S2];
    [rewrite D1; exact L2|].
  rewrite S2, bind_quiet.
  do 2 eexists. split; [reflexivity|]. split.
  - exact (setitem_rect _ _ _ _ _ R1 S2).
  - intros c N.
    assert (N1 : c <> "lat_jitter") by (intros ->; apply N; simpl; auto).
    assert (N2 : c <> "lon_jitter") by (intros ->; apply N; simpl; auto).
    split.
    + rewrite (setitem_columns_other _ _ _ c _ _ S2) by exact N2.
      exact (setitem_columns_other _ _ _ c _ _ S1 N1).
    + rewrite (getitem_setitem_other (CFloat nan) df1 _ "lon_jitter" c _ _ R1 S2 N2).
      exact (getitem_setitem_other (CFloat nan) df df1 "lat_jitter" c _ _ R S1 N1).
Qed.

Lemma clean_column_absent (label : string) (df : DataFrame value) :
  positions label (columns df) 0 = [] ->
  clean_column label df = ([], Raised (KeyError label)).
Proof. intros P. unfold clean_column, getitem. rewrite P. reflexivity. Qed.

Lemma clean_column_duplicate (label : string) (df : DataFrame value)
      (j j' : nat) (l : list nat) :
  positions label (columns df) 0 = j :: j' :: l ->
  clean_column label df = ([], Raised (DuplicateLabel label)).
Proof. intros P. unfold clean_column, getitem. rewrite P. reflexivity. Qed.

Lemma clean_column_one (label : string) (df : DataFrame value) (j : nat) :
  positions label (columns df) 0 = [j] ->
  clean_column label df
  = if forallb writable (map (entry (VCell (CFloat nan)) j) (rows df))
    then ([], Done (mkFrame (columns df)
                      (map (rewrite_entry (VCell (CFloat nan)) (columns df) label parsed j)
                           (rows df))))
    else ([], Raised AttributeError).
Proof.
  intros P. unfold clean_column.
  rewrite (getitem_one _ _ _ _ P), bind_ret, apply_parser_spec.
  destruct (forallb writable _); [|reflexivity].
  rewrite bind_ret. exact (setitem_update _ df label parsed j P).
Qed.

(** [astype(str)] writes a text for every cell of a column of the
    loaded frame unless it keeps missing cells and the column has one. *)
Lemma writable_cells (col : list cell) :
  forallb writable (map VCell col)
  = negb match astype_missing with
         | None => existsb isna col
         | Some _ => false
         end.
Proof.
  induction col as [|c col IH]; simpl.
  - destruct astype_missing; reflexivity.
  - rewrite IH. unfold writable. simpl.
    destruct (isna c), astype_missing; reflexivity.
Qed.

Lemma lacks_value_series (df : DataFrame cell) (label : string) (j : nat) :
  positions label (columns df) 0 = [j] ->
  lacks_value df label = existsb isna (map (entry (CFloat nan) j) (rows df)).
Proof.
  intros P. unfold lacks_value, cell_field, field. rewrite P.
  induction (rows df) as [|r rs IH]; simpl; [reflexivity | rewrite IH; reflexivity].
Qed.

Lemma to_values_series (df : DataFrame cell) (j : nat) :
  map (entry (VCell (CFloat nan)) j) (rows (to_values df))
  = map VCell (map (entry (CFloat nan) j) (rows df)).
Proof.
  unfold to_values. simpl. rewrite !map_map. apply map_ext. intros r.
  unfold entry. simpl. apply (map_nth VCell).
Qed.

(** Whether the parser goes through on a column of values that reads as
    a column of the loaded frame. *)
Lemma writable_series (df : DataFrame cell) (label : string) (j : nat)
      (series : list value) :
  positions label (columns df) 0 = [j] ->
  series = map VCell (map (entry (CFloat nan) j) (rows df)) ->
  forallb writable series = negb (parser_raises df label).
Proof.
  intros P ->. rewrite writable_cells. unfold parser_raises.
  rewrite (lacks_value_series df label j P). reflexivity.
Qed.

(** X11. After a successful load, lines 46-53 end as the Stage and
    Sector columns decide, Stage first: an uncaught [KeyError] when no
    header resolves to the label; an uncaught exception when several do
    and the frame has a record; an uncaught [AttributeError] when the
    label names one column, a record has no value there and
    [astype(str)] leaves missing values missing; and a tagged frame
    when both labels pass.  The jitter itself never fails, and nothing
    is written in any case: a table that fails here ends the script
    with no message of its own. *)
Theorem prepare_ends_as_the_tag_columns_decide
        (file : csv_file) (g : Generator) (df0 : DataFrame cell) :
  well_formed file = true ->
  load file = ([], Done df0) ->
  (occurrences "Stage" (columns df0) = 0 ->
   prepare file g = ([], Raised (KeyError "Stage")))
  /\ (occurrences "Stage" (columns df0) >= 2 -> rows df0 <> [] ->
      prepare file g = ([], Raised (DuplicateLabel "Stage")))
  /\ (occurrences "Stage" (columns df0) = 1 -> parser_raises df0 "Stage" = true ->
      prepare file g = ([], Raised AttributeError))
  /\ (occurrences "Stage" (columns df0) = 1 -> parser_raises df0 "Stage" = false ->
      (occurrences "Sector" (columns df0) = 0 ->
       prepare file g = ([], Raised (KeyError "Sector")))
      /\ (occurrences "Sector" (columns df0) >= 2 -> rows df0 <> [] ->
          prepare file g = ([], Raised (DuplicateLabel "Sector")))
      /\ (occurrences "Sector" (columns df0) = 1 -> parser_raises df0 "Sector" = true ->
          prepare file g = ([], Raised AttributeError))
      /\ (occurrences "Sector" (columns df0) = 1 -> parser_raises df0 "Sector" = false ->
          exists df, prepare file g = ([], Done df))).
Proof.
  intros W E.
  pose proof (load_rect _ _ _ W E) as R0.
  destruct (loaded_coordinates_are_floats _ _ _ W E) as [jlat [jlon [P1 [P2 F]]]].
  destruct (add_jitter_succeeds g df0 jlat jlon R0 P1 P2 F) as [df1 [g1 [J [R1 K]]]].
  assert (PR : prepare file g = clean_tags df1).
  { unfold prepare. rewrite E, bind_quiet, J, bind_quiet. reflexivity. }
  rewrite PR. clear PR. unfold clean_tags.
  destruct (K "Stage") as [KS GS]; [apply jitter_hides; discriminate|].
  destruct (K "Sector") as [KC GC]; [apply jitter_hides; discriminate|].
  pose proof (to_values_rect _ R1) as Rv.
  set (dv := to_values df1) in *.
  change (columns df1) with (columns dv) in KS, KC.
  rewrite <- (positions_length "Stage" (columns df0) 0), <- KS.
  rewrite <- (positions_length "Sector" (columns df0) 0), <- KC.
  destruct (positions "Stage" (columns dv) 0) as [|jt [|jt' lt]] eqn:Pt; cbn [List.length].
  - split; [intros _; rewrite (clean_column_absent "Stage" dv Pt); reflexivity|].
    split; [intros H; lia|]. split; [intros H; lia|]. intros H; lia.
  - assert (WS : forallb writable (map (entry (VCell (CFloat nan)) jt) (rows dv))
                 = negb (parser_raises df0 "Stage")).
    { apply (writable_series df0 "Stage" jt); [congruence|].
      unfold dv. rewrite to_values_series. f_equal.
      rewrite (getitem_one (CFloat nan) df1 "Stage" jt Pt), (getitem_one _ df0 _ jt) in GS
        by congruence.
      injection GS as GS. exact GS. }
    rewrite (clean_column_one "Stage" dv jt Pt), WS.
    split; [intros H; lia|]. split; [intros H; lia|]. split.
    + intros _ ->. reflexivity.
    + intros _ ->. cbn [negb]. rewrite bind_quiet.
      set (d2 := mkFrame (columns dv) _).
      change (columns dv) with (columns d2) in KC |- *.
      destruct (positions "Sector" (columns d2) 0) as [|js [|js' ls]] eqn:Ps;
        cbn [List.length].
      * split; [intros _; apply clean_column_absent; exact Ps|].
        split; [intros H; lia|]. split; [intros H; lia|]. intros H; lia.
      * assert (WC : forallb writable (map (entry (VCell (CFloat nan)) js) (rows d2))
                     = negb (parser_raises df0 "Sector")).
        { apply (writable_series df0 "Sector" js); [congruence|].
          rewrite (getitem_one (CFloat nan) df1 "Sector" js Ps), (getitem_one _ df0 _ js) in GC
            by congruence.
          injection GC as GC. rewrite <- GC, <- to_values_series. fold dv.
          unfold d2. cbn [rows]. rewrite map_map. apply map_ext_in. intros r I.
          unfold rect in Rv. rewrite Forall_forall in Rv.
          rewrite (rewrite_entry_at _ _ "Stage" "Sector" _ _ _ _ (Rv _ I)
                     (positions_one _ _ _ Ps)).
          reflexivity. }
        rewrite (clean_column_one "Sector" d2 js Ps), WC.
        split; [intros H; lia|]. split; [intros H; lia|]. split.
        -- intros _ ->. reflexivity.
        -- intros _ ->. eexists. reflexivity.
      * split; [intros H; cbn [List.length] in H; lia|]. split.
        { intros _ _. apply (clean_column_duplicate "Sector" _ js js' ls). exact Ps. }
        split; [intros H; cbn [List.length] in H; lia|]. intros H; cbn [List.length] in H; lia.
  - split; [intros H; cbn [List.length] in H; lia|]. split.
    { intros _ _. rewrite (clean_column_duplicate "Stage" dv jt jt' lt Pt). reflexivity. }
    split; [intros H; cbn [List.length] in H; lia|]. intros H; cbn [List.length] in H; lia.
Qed.

End Preparing.

(* ================================================================== *)
(** ** The table *)
(* ================================================================== *)

Lemma has_column_positions (c : string) (cols : list string) :
  has_column c cols = match positions c cols 0 with [] => false | _ :: _ => true end.
Proof.
  destruct (positions c cols 0) as [|j l] eqn:P.
  - apply has_column_false. intros I.
    assert (K : occurrences c cols = 0) by (rewrite <- (positions_length c cols 0), P; reflexivity).
    apply occurrences_none in K. apply has_column_In in I. congruence.
  - apply has_column_In.
    assert (I : In j (positions c cols 0)) by (rewrite P; left; reflexivity).
    apply positions_In in I as [_ I]. exact (nth_error_In _ _ I).
Qed.

Lemma apply_join_lists (j : nat) (rs : list (nat * list value)) :
  (forall r, In r rs -> exists l, entry (VCell (CFloat nan)) j r = VList l) ->
  apply_join (map (entry (VCell (CFloat nan)) j) rs)
  = ret (map (fun r => VCell (CStr (tags_text (entry (VCell (CFloat nan)) j r)))) rs).
Proof.
  induction rs as [|r rs IH]; intros H; [reflexivity|].
  destruct (H r (or_introl eq_refl)) as [l E]. cbn [map apply_join].
  rewrite E. unfold join_tags. cbn [iterate]. rewrite !bind_ret.
  rewrite IH by (intros r' I; apply H; right; exact I).
  rewrite bind_ret. reflexivity.
Qed.

(** One of lines 93, 94 on a frame whose [source] column holds lists. *)
Lemma add_joined_lists (source target : string) (df : DataFrame value) (j : nat) :
  rect df ->
  positions source (columns df) 0 = [j] ->
  (forall r, In r (rows df) -> exists l, entry (VCell (CFloat nan)) j r = VList l) ->
  exists d,
    add_joined source target df = ([], Done d)
    /\ rect d
    /\ index d = index df
    /\ In target (columns d)
    /\ forall c, c <> target ->
         positions c (columns d) 0 = positions c (columns df) 0
         /\ getitem (VCell (CFloat nan)) d c = getitem (VCell (CFloat nan)) df c.
Proof.
  intros R P H. unfold add_joined.
  rewrite (getitem_one _ _ _ _ P), bind_ret, (apply_join_lists j (rows df) H), bind_ret.
  destruct (setitem_succeeds df target
              (map (fun r => VCell (CStr (tags_text (entry (VCell (CFloat nan)) j r))))
                   (rows df))) as [d S]; [apply length_map|].
  exists d. split; [exact S|]. split; [exact (setitem_rect _ _ _ _ _ R S)|].
  split; [exact (setitem_rows_index _ _ _ _ _ S)|]. split.
  - destruct (setitem_done _ _ _ _ _ S) as [_ [_ [[I ->]|[_ ->]]]]; simpl;
      [exact I | apply in_app_iff; right; left; reflexivity].
  - intros c N. split.
    + exact (setitem_columns_other _ _ _ c _ _ S N).
    + exact (getitem_setitem_other _ _ _ target c _ _ R S N).
Qed.

Lemma series_entries {A} (na : A) (df d : DataFrame A) (c : string) (j : nat)
      (P : A -> Prop) :
  positions c (columns df) 0 = [j] ->
  positions c (columns d) 0 = [j] ->
  getitem na d c = getitem na df c ->
  (forall r, In r (rows df) -> P (entry na j r)) ->
  forall r, In r (rows d) -> P (entry na j r).
Proof.
  intros P1 P2 G H r I.
  rewrite (getitem_one _ _ _ _ P1), (getitem_one _ _ _ _ P2) in G.
  injection G as G.
  assert (J : In (entry na j r) (map (entry na j) (rows df)))
    by (rewrite <- G; apply in_map; exact I).
  apply in_map_iff in J as [r' [<- J]]. apply H. exact J.
Qed.

(** Lines 92-94 on a tagged frame. *)
Lemma display_df_tagged (res : DataFrame value) :
  rect res -> tagged res ->
  exists d,
    display_df res = ([], Done d)
    /\ index d = index res
    /\ In "Stage_Str" (columns d) /\ In "Sector_Str" (columns d)
    /\ forall c, c <> "Stage_Str" -> c <> "Sector_Str" ->
         positions c (columns d) 0 = positions c (columns res) 0.
Proof.
  intros R T. destruct (tagged_entries res T) as [js [jt [Ps [Pt H]]]].
  destruct (add_joined_lists "Stage" "Stage_Str" res jt R Pt) as [d1 [A1 [R1 [I1 [C1 K1]]]]].
  { intros r I. destruct (H r I) as [a [b [Ea Eb]]]. eauto. }
  destruct (K1 "Sector" ltac:(discriminate)) as [Ps1 G1]. rewrite Ps in Ps1.
  destruct (add_joined_lists "Sector" "Sector_Str" d1 js R1 Ps1) as [d2 [A2 [R2 [I2 [C2 K2]]]]].
  { apply (series_entries _ res d1 "Sector" js (fun v => exists l, v = VList l) Ps Ps1 G1).
    intros r I. destruct (H r I) as [a [b [Ea Eb]]]. eauto. }
  exists d2. unfold display_df. rewrite A1, bind_quiet. split; [exact A2|].
  split; [congruence|]. split.
  - destruct (K2 "Stage_Str" ltac:(discriminate)) as [Q _].
    apply has_column_In. rewrite has_column_positions, Q, <- has_column_positions.
    apply has_column_In. exact C1.
  - split; [exact C2|]. intros c N1 N2.
    destruct (K2 c N2) as [Q2 _]. destruct (K1 c N1) as [Q1 _]. congruence.
Qed.

Lemma select_columns_index {A} (na : A) (df t : DataFrame A) (labels : list string)
      (out : list element) :
  select_columns na df labels = (out, Done t) ->
  out = [] /\ index t = index df
  /\ (forall c, In c labels -> In c (columns df))
  /\ forall c, In c (columns t) <-> In c labels.
Proof.
  unfold select_columns.
  destruct (find _ labels) as [c|] eqn:F; [discriminate|].
  intros E. injection E as <- <-.
  assert (All : forall c, In c labels -> In c (columns df)).
  { intros c I. pose proof (find_none _ _ F c I) as H. simpl in H.
    apply negb_false_iff in H. apply has_column_In. exact H. }
  split; [reflexivity|]. split; [|split; [exact All|]].
  - unfold index. simpl. rewrite map_map. reflexivity.
  - intros c. simpl. rewrite in_flat_map. split.
    + intros [c' [I J]]. apply in_map_iff in J as [j [<- _]]. exact I.
    + intros I. exists c. split; [exact I|].
      pose proof (All c I) as H. apply has_column_In in H.
      rewrite has_column_positions in H.
      destruct (positions c (columns df) 0) as [|j l]; [discriminate|]. left. reflexivity.
Qed.

Lemma select_columns_missing {A} (na : A) (df : DataFrame A) (labels : list string)
      (c : string) :
  In c labels -> ~ In c (columns df) ->
  exists c', select_columns na df labels = ([], Raised (KeyError c'))
             /\ In c' labels /\ ~ In c' (columns df).
Proof.
  intros I N. unfold select_columns.
  destruct (find (fun c => negb (has_column c (columns df))) labels) as [c'|] eqn:F.
  - exists c'. split; [reflexivity|]. apply find_some in F as [J H].
    split; [exact J|]. apply negb_true_iff in H. apply has_column_false. exact H.
  - pose proof (find_none _ _ F c I) as H. simpl in H.
    apply negb_false_iff, has_column_In in H. contradiction.
Qed.

Lemma select_columns_present {A} (na : A) (df : DataFrame A) (labels : list string) :
  (forall c, In c labels -> In c (columns df)) ->
  exists t, select_columns na df labels = ([], Done t).
Proof.
  intros H. unfold select_columns.
  destruct (find (fun c => negb (has_column c (columns df))) labels) as [c'|] eqn:F.
  - apply find_some in F as [J K]. apply negb_true_iff, has_column_false in K.
    destruct (K (H c' J)).
  - eexists; reflexivity.
Qed.

Lemma In_positions (c : string) (cols cols' : list string) :
  positions c cols' 0 = positions c cols 0 -> (In c cols' <-> In c cols).
Proof.
  intros P. rewrite <- !has_column_In, !has_column_positions, P. tauto.
Qed.

Section Table.
Context {conv : Conversions}.

(** What the filter returns on a loaded dataset. *)
Lemma filtered_shape (file : csv_file) (g : Generator) (out o : list element)
      (df res : DataFrame value) (ss st : list string) :
  well_formed file = true ->
  prepare file g = (out, Done df) ->
  filtered_df df ss st = (o, Done res) ->
  columns res = columns df /\ rect res /\ tagged res /\ incl (rows res) (rows df).
Proof.
  intros W E F. destruct (prepare_done _ _ _ _ W E) as [_ [R _]].
  destruct (prepare_tagged _ _ _ _ W E) as [_ T].
  destruct (filtered_df_rows df ss st T) as [o' F']. rewrite F' in F.
  injection F as _ <-. simpl.
  assert (I : incl (filter (selected_by df ss st) (rows df)) (rows df))
    by (intros r J; apply filter_In in J; tauto).
  split; [reflexivity|]. split; [|split; [|exact I]].
  - unfold rect in *. simpl. rewrite Forall_forall in *. intros r J. apply R, I, J.
  - destruct T as [Ps [Pt H]]. split; [exact Ps|]. split; [exact Pt|].
    intros r J. exact (H r (I r J)).
Qed.

(** X12. The table of lines 92-99 needs the columns [name], [Address],
    [City] and [Website]: on any filter result of a loaded dataset, also
    an empty one, it raises an uncaught [KeyError] when one of them is
    not among the resolved headers, and otherwise it is a frame with the
    six labels of line 97 and one row per filtered record, in the same
    order and under the same index labels. *)
Theorem table_needs_name_address_city_website
        (file : csv_file) (g : Generator) (out o : list element)
        (df res : DataFrame value) (ss st : list string) :
  well_formed file = true ->
  prepare file g = (out, Done df) ->
  filtered_df df ss st = (o, Done res) ->
  (exists c, In c REQUIRED_BY_TABLE /\ ~ In c (columns df)
             /\ table res = ([], Raised (KeyError c)))
  \/ ((forall c, In c REQUIRED_BY_TABLE -> In c (columns df))
      /\ exists t, table res = ([], Done t)
                   /\ index t = index res
                   /\ forall c, In c (columns t) <-> In c TABLE_COLUMNS).
Proof.
  intros W E F. destruct (filtered_shape _ _ _ _ _ _ _ _ W E F) as [C [R [T _]]].
  destruct (display_df_tagged res R T) as [d [D [I [H1 [H2 K]]]]].
  unfold table. rewrite D, bind_quiet. rewrite <- C.
  assert (Q : forall c, In c REQUIRED_BY_TABLE -> (In c (columns d) <-> In c (columns res))).
  { intros c J. apply In_positions. apply K; intros ->;
      simpl in J; repeat (destruct J as [J|J]; [discriminate|]); exact J. }
  destruct (forallb (fun c => has_column c (columns res)) REQUIRED_BY_TABLE) eqn:A.
  - right. rewrite forallb_forall in A.
    assert (All : forall c, In c REQUIRED_BY_TABLE -> In c (columns res))
      by (intros c J; apply has_column_In, A, J).
    split; [exact All|].
    destruct (select_columns_present (VCell (CFloat nan)) d TABLE_COLUMNS) as [t S].
    { intros c J. simpl in J.
      destruct J as [<-|[<-|[<-|[<-|[<-|[<-|[]]]]]]]; try assumption;
        apply Q; simpl; auto 6; apply All; simpl; auto 6. }
    exists t. split; [exact S|].
    destruct (select_columns_index _ _ _ _ _ S) as [_ [J [_ M]]].
    split; [congruence | exact M].
  - left. apply Bool.not_true_iff_false in A. rewrite forallb_forall in A.
    assert (Ex : exists c, In c REQUIRED_BY_TABLE /\ ~ In c (columns res)).
    { destruct (has_column "name" (columns res)) eqn:B1;
        [|exists "name"; split; [simpl; auto | apply has_column_false; exact B1]].
      destruct (has_column "Address" (columns res)) eqn:B2;
        [|exists "Address"; split; [simpl; auto | apply has_column_false; exact B2]].
      destruct (has_column "City" (columns res)) eqn:B3;
        [|exists "City"; split; [simpl; auto | apply has_column_false; exact B3]].
      destruct (has_column "Website" (columns res)) eqn:B4;
        [|exists "Website"; split; [simpl; auto 6 | apply has_column_false; exact B4]].
      exfalso. apply A. intros c J. simpl in J.
      destruct J as [<-|[<-|[<-|[<-|[]]]]]; assumption. }
    destruct Ex as [c [J N]].
    destruct (select_columns_missing (VCell (CFloat nan)) d TABLE_COLUMNS c)
      as [c' [S [J' N']]].
    { simpl in J. simpl. intuition. }
    { rewrite (Q c J). exact N. }
    assert (Rq : In c' REQUIRED_BY_TABLE).
    { simpl in J'. destruct J' as [<-|[<-|[<-|[<-|[<-|[<-|[]]]]]]]; simpl; auto 6;
        contradiction. }
    exists c'. split; [exact Rq|]. split; [rewrite <- (Q c' Rq); exact N' | exact S].
Qed.

End Table.

Lemma entry_app_left {A} (na : A) (j k : nat) (r x : list A) :
  j < List.length r -> entry na j (k, r ++ x) = entry na j (k, r).
Proof. intros L. unfold entry. simpl. apply app_nth1. exact L. Qed.

Lemma entry_app_last {A} (na : A) (k : nat) (r : list A) (a : A) :
  entry na (List.length r) (k, r ++ [a]) = a.
Proof. unfold entry. simpl. rewrite app_nth2, Nat.sub_diag by lia. reflexivity. Qed.

Lemma positions_fresh (c : string) (cols : list string) :
  ~ In c cols -> positions c (cols ++ [c]) 0 = [List.length cols].
Proof.
  intros N. rewrite positions_app, (positions_absent c cols 0 N). simpl.
  rewrite String.eqb_refl. reflexivity.
Qed.

Lemma positions_before (c d : string) (cols : list string) :
  c <> d -> positions c (cols ++ [d]) 0 = positions c cols 0.
Proof.
  intros N. rewrite positions_app. simpl.
  destruct (String.eqb_spec d c); [congruence | apply app_nil_r].
Qed.

(** One of lines 93, 94 when the label written is new. *)
Lemma add_joined_fresh (source target : string) (df : DataFrame value) (j : nat) :
  positions source (columns df) 0 = [j] ->
  (forall r, In r (rows df) -> exists l, entry (VCell (CFloat nan)) j r = VList l) ->
  ~ In target (columns df) ->
  add_joined source target df
  = ret (mkFrame (columns df ++ [target])
           (map (fun r => (fst r,
                           snd r ++ [VCell (CStr (tags_text (entry (VCell (CFloat nan)) j r)))]))
                (rows df))).
Proof.
  intros P H N. unfold add_joined.
  rewrite (getitem_one _ _ _ _ P), bind_ret, (apply_join_lists j (rows df) H), bind_ret.
  rewrite setitem_new by (try exact N; apply length_map).
  rewrite combine_map_self, map_map. reflexivity.
Qed.

Section TableRows.
Context {conv : Conversions}.

(** X13. When the file has one column for each of [name], [Address],
    [City] and [Website] and none called [Stage_Str] or [Sector_Str],
    the table shows, for every filtered record and in the same order,
    exactly six entries: its name, address and city as they are, its
    Sector tags joined by [", "], its Stage tags joined by [", "], and
    its website as it is. *)
Theorem table_shows_each_record_with_its_joined_tags
        (file : csv_file) (g : Generator) (out o : list element)
        (df res : DataFrame value) (ss st : list string) (jn ja jc jw : nat) :
  well_formed file = true ->
  prepare file g = (out, Done df) ->
  filtered_df df ss st = (o, Done res) ->
  positions "name" (columns df) 0 = [jn] ->
  positions "Address" (columns df) 0 = [ja] ->
  positions "City" (columns df) 0 = [jc] ->
  positions "Website" (columns df) 0 = [jw] ->
  ~ In "Stage_Str" (columns df) ->
  ~ In "Sector_Str" (columns df) ->
  exists t,
    table res = ([], Done t)
    /\ columns t = TABLE_COLUMNS
    /\ List.length (rows t) = len res
    /\ forall i k r,
         nth_error (rows res) i = Some (k, r) ->
         exists sectors stages,
           value_field res "Sector" (k, r) = Some (VList sectors)
           /\ value_field res "Stage" (k, r) = Some (VList stages)
           /\ nth_error (rows t) i
              = Some (k, [nth jn r (VCell (CFloat nan));
                          nth ja r (VCell (CFloat nan));
                          nth jc r (VCell (CFloat nan));
                          VCell (CStr (PyStr.join ", " sectors));
                          VCell (CStr (PyStr.join ", " stages));
                          nth jw r (VCell (CFloat nan))]).
Proof.
  intros W E F Pn Pa Pc Pw N1 N2.
  destruct (filtered_shape _ _ _ _ _ _ _ _ W E F) as [C [R [T _]]].
  rewrite <- C in *. clear C.
  destruct (tagged_entries res T) as [js [jt [Ps [Pt H]]]].
  set (cols := columns res) in *.
  set (na := VCell (CFloat nan)) in *.
  unfold rect in R. rewrite Forall_forall in R. fold cols in R.
  assert (Lt : forall c j, positions c cols 0 = [j] -> j < List.length cols).
  { intros c j P. apply positions_one in P. apply nth_error_Some. congruence. }
  unfold table, display_df.
  rewrite (add_joined_fresh "Stage" "Stage_Str" res jt Pt)
    by (try exact N1; intros r I; destruct (H r I) as [a [b [Ea Eb]]]; eauto).
  rewrite bind_ret.
  rewrite (add_joined_fresh "Sector" "Sector_Str" (mkFrame (cols ++ ["Stage_Str"]) _) js).
  2:{ simpl columns. rewrite positions_before by discriminate. exact Ps. }
  2:{ intros r I. simpl in I. apply in_map_iff in I as [r0 [<- I]].
      destruct r0 as [k r0]. simpl fst. simpl snd.
      pose proof (R _ I) as Lr0. simpl in Lr0.
      rewrite entry_app_left by (rewrite Lr0; exact (Lt _ _ Ps)).
      destruct (H _ I) as [a [b [Ea Eb]]]. eauto. }
  2:{ simpl columns. rewrite in_app_iff. simpl. intros [I|[I|[]]]; [tauto | discriminate]. }
  rewrite bind_ret. simpl columns. simpl rows. rewrite map_map. cbn [fst snd].
  unfold select_columns. simpl columns.
  assert (Q : forall c, c <> "Stage_Str" -> c <> "Sector_Str" ->
                        positions c ((cols ++ ["Stage_Str"]) ++ ["Sector_Str"]) 0
                        = positions c cols 0).
  { intros c A B. rewrite !positions_before by assumption. reflexivity. }
  assert (QS : positions "Stage_Str" ((cols ++ ["Stage_Str"]) ++ ["Sector_Str"]) 0
               = [List.length cols]).
  { rewrite positions_before by discriminate. apply positions_fresh. exact N1. }
  assert (QT : positions "Sector_Str" ((cols ++ ["Stage_Str"]) ++ ["Sector_Str"]) 0
               = [S (List.length cols)]).
  { rewrite positions_fresh.
    - rewrite length_app. simpl. f_equal. lia.
    - rewrite in_app_iff. simpl. intros [I|[I|[]]]; [tauto | discriminate]. }
  assert (HC : forall c, has_column c ((cols ++ ["Stage_Str"]) ++ ["Sector_Str"])
                         = match positions c ((cols ++ ["Stage_Str"]) ++ ["Sector_Str"]) 0
                           with [] => false | _ :: _ => true end)
    by (intros c; apply has_column_positions).
  unfold TABLE_COLUMNS. cbn [find flat_map].
  rewrite !HC, QS, QT, !Q, Pn, Pa, Pc, Pw by discriminate. cbn [negb map app].
  eexists. split; [reflexivity|]. split; [reflexivity|].
  split; [simpl; rewrite !length_map; reflexivity|].
  intros i k r X. pose proof (nth_error_In _ _ X) as I.
  pose proof (R _ I) as Lr. simpl in Lr.
  destruct (H _ I) as [a [b [Ea Eb]]]. exists a, b.
  unfold value_field, field. fold cols. rewrite Ps, Pt. fold na. rewrite Ea, Eb.
  split; [reflexivity|]. split; [reflexivity|].
  cbn [rows]. rewrite !nth_error_map, X. cbn [option_map fst snd].
  f_equal. f_equal.
  set (A := VCell (CStr (tags_text (entry na jt (k, r))))).
  set (B := VCell (CStr (tags_text (entry na js (k, r ++ [A]))))).
  assert (LA : List.length (r ++ [A]) = S (List.length cols))
    by (rewrite length_app, Lr; simpl; lia).
  assert (EL : forall c j, positions c cols 0 = [j] ->
                 entry na j (k, (r ++ [A]) ++ [B]) = nth j r na).
  { intros c j P. pose proof (Lt c j P).
    rewrite !entry_app_left by lia. reflexivity. }
  rewrite (EL _ _ Pn), (EL _ _ Pa), (EL _ _ Pc), (EL _ _ Pw).
  assert (EA : entry na (List.length cols) (k, (r ++ [A]) ++ [B]) = A).
  { rewrite entry_app_left by lia. rewrite <- Lr. apply entry_app_last. }
  assert (EB : entry na (S (List.length cols)) (k, (r ++ [A]) ++ [B]) = B).
  { rewrite <- LA. apply entry_app_last. }
  rewrite EA, EB. unfold A, B.
  rewrite entry_app_left by (rewrite Lr; exact (Lt _ _ Ps)).
  rewrite Ea, Eb. reflexivity.
Qed.

End TableRows.

(* ================================================================== *)
(** ** The detail panel *)
(* ================================================================== *)

Lemma lower_char_n (c : ascii) :
  Ascii.eqb (lower_char c) "n" = Ascii.eqb c "n" || Ascii.eqb c "N".
Proof. destruct c as [[] [] [] [] [] [] [] []]; vm_compute; reflexivity. Qed.

Lemma lower_char_a (c : ascii) :
  Ascii.eqb (lower_char c) "a" = Ascii.eqb c "a" || Ascii.eqb c "A".
Proof. destruct c as [[] [] [] [] [] [] [] []]; vm_compute; reflexivity. Qed.

Lemma lower_is_nan (s : string) :
  String.eqb (lower s) "nan" = existsb (String.eqb s) NAN_TEXTS.
Proof.
  destruct s as [|a [|b [|c [|d s]]]]; try reflexivity.
  - cbn [lower String.eqb]. rewrite lower_char_n.
    cbn [existsb NAN_TEXTS String.eqb].
    destruct (Ascii.eqb a "n"), (Ascii.eqb a "N"); reflexivity.
  - cbn [lower String.eqb]. rewrite lower_char_n, lower_char_a.
    cbn [existsb NAN_TEXTS String.eqb].
    destruct (Ascii.eqb a "n"), (Ascii.eqb a "N"), (Ascii.eqb b "a"), (Ascii.eqb b "A");
      reflexivity.
  - cbn [lower String.eqb]. rewrite !lower_char_n, lower_char_a.
    cbn [existsb NAN_TEXTS String.eqb].
    destruct (Ascii.eqb a "n"), (Ascii.eqb a "N"), (Ascii.eqb b "a"), (Ascii.eqb b "A"),
      (Ascii.eqb c "n"), (Ascii.eqb c "N"); reflexivity.
  - cbn [lower String.eqb]. rewrite !lower_char_n, lower_char_a.
    cbn [existsb NAN_TEXTS String.eqb].
    destruct (Ascii.eqb a "n"), (Ascii.eqb a "N"), (Ascii.eqb b "a"), (Ascii.eqb b "A"),
      (Ascii.eqb c "n"), (Ascii.eqb c "N"); reflexivity.
Qed.

(** X14. Line 179 hides the website link for a missing website and for
    a website whose text spells [nan] in any mix of upper and lower
    case, and for no other text: a website that is text gets the link
    exactly when it is none of the eight spellings. *)
Theorem link_is_hidden_only_for_missing_and_nan {conv : Conversions} (c : cell) :
  (isna c = true -> shows_link (Some c) = ([], Done false))
  /\ (forall s, c = CStr s ->
        shows_link (Some c) = ([], Done (negb (existsb (String.eqb s) NAN_TEXTS))))
  /\ (forall s, c = CStr s -> ~ In s NAN_TEXTS -> shows_link (Some c) = ([], Done true)).
Proof.
  assert (T : forall s, shows_link (Some (CStr s))
                        = ([], Done (negb (existsb (String.eqb s) NAN_TEXTS)))).
  { intros s. unfold shows_link. simpl. rewrite lower_is_nan. reflexivity. }
  split; [|split].
  - intros H. unfold shows_link. rewrite H. reflexivity.
  - intros s ->. apply T.
  - intros s -> N. rewrite T.
    destruct (existsb (String.eqb s) NAN_TEXTS) eqn:E; [|reflexivity].
    apply existsb_exists in E. destruct E as [x [I E]].
    apply String.eqb_eq in E. subst x. contradiction.
Qed.

Lemma same_name_nan (v : value) : same_name (CFloat nan) v = false.
Proof. destruct v as [[s|f]|l]; try reflexivity. destruct f; reflexivity. Qed.

Lemma filter_first {X} (p : X -> bool) (before after : list X) (x : X) :
  p x = true ->
  (forall y, In y before -> p y = false) ->
  filter p (before ++ x :: after) = x :: filter p after.
Proof.
  intros Px B. rewrite filter_app, (filter_none _ _ B). simpl. rewrite Px. reflexivity.
Qed.

Lemma vc_info_filter (display : DataFrame value) (selected_vc : cell) (jn : nat) :
  positions "name" (columns display) 0 = [jn] ->
  vc_info display selected_vc
  = ret match filter (fun r => same_name selected_vc (entry (VCell (CFloat nan)) jn r))
                     (rows display) with
        | r :: _ => Row r
        | [] => IndexError
        end.
Proof.
  intros P. unfold vc_info. rewrite (getitem_one _ _ _ _ P), bind_ret.
  rewrite map_map, mask_rows_filter.
  destruct (filter _ (rows display)); reflexivity.
Qed.

(** X15. Line 173 shows the first record, in the order of the frame,
    whose name equals the selected one: a record that comes after
    another of the same name is never the one shown.  When no name
    equals the selected one, which is always so when the selected
    option is a missing name (NaN equals nothing), [.iloc[0]] raises
    [IndexError]. *)
Theorem detail_shows_the_first_record_of_that_name
        (display : DataFrame value) (selected_vc : cell) (jn : nat) :
  positions "name" (columns display) 0 = [jn] ->
  (forall before r after,
     rows display = before ++ r :: after ->
     same_name selected_vc (entry (VCell (CFloat nan)) jn r) = true ->
     (forall r', In r' before ->
        same_name selected_vc (entry (VCell (CFloat nan)) jn r') = false) ->
     vc_info display selected_vc = ([], Done (Row r)))
  /\ ((forall r, In r (rows display) ->
         same_name selected_vc (entry (VCell (CFloat nan)) jn r) = false) ->
      vc_info display selected_vc = ([], Done IndexError))
  /\ vc_info display (CFloat nan) = ([], Done IndexError).
Proof.
  intros P. split; [|split].
  - intros before r after E T B.
    rewrite (vc_info_filter display selected_vc jn P), E.
    rewrite (filter_first _ before after r T B). reflexivity.
  - intros H. rewrite (vc_info_filter display selected_vc jn P).
    rewrite filter_none by exact H. reflexivity.
  - rewrite (vc_info_filter display (CFloat nan) jn P).
    rewrite filter_none by (intros r _; apply same_name_nan). reflexivity.
Qed.

(* ================================================================== *)
(** ** binary64 addition is monotone *)
(* ================================================================== *)

Section Binary64.
Local Open Scope Z_scope.








(* ---------- digits ---------- *)






(* ---------- rounding to nearest ---------- *)





(* ---------- the rounding of [binary_round], as integer arithmetic ---------- *)














(* ---------- the order of the rounded values ---------- *)







(* ---------- binary64 sums as rounded integers ---------- *)









Lemma leb_zero_sign (s s' : bool) (b : float) :
  SFleb (S754_zero s) b = SFleb (S754_zero s') b
  /\ SFleb b (S754_zero s) = SFleb b (S754_zero s').
Proof. destruct b; split; reflexivity. Qed.




End Binary64.

(* ================================================================== *)
(** ** The range of the jitter *)
(* ================================================================== *)

Section SetitemRows.
Context {A : Type}.


End SetitemRows.

Section JitterRange.
Context {conv : Conversions}.



End JitterRange.

(* ================================================================== *)
(** ** The further statements on the samples *)
(* ================================================================== *)

Lemma sidebar_options_are_the_tags_in_order_sample :
  well_formed sample_table = true
  /\ @prepare sample_conversions sample_table sample_generator = ([], Done sample_prepared)
  /\ ("Sector" = "Sector" \/ "Sector" = "Stage")
  /\ all_tags sample_prepared "Sector" = ([], Done ["Fintech"; "Healthcare"; "SaaS"])
  /\ exists options,
       all_tags sample_prepared "Sector" = ([], Done options)
       /\ Sorted (fun a b => String.ltb a b = true) options
       /\ NoDup options
       /\ forall s, In s options
                    <-> exists r tags, In r (rows sample_prepared)
                                       /\ value_field sample_prepared "Sector" r
                                          = Some (VList tags)
                                       /\ In s tags.
Proof.
  split; [reflexivity|]. split; [exact sample_table_prepared|].
  split; [left; reflexivity|]. split; [vm_compute; reflexivity|].
  exact (@sidebar_options_are_the_tags_in_order sample_conversions sample_table
           sample_generator [] sample_prepared "Sector"
           eq_refl sample_table_prepared (or_introl eq_refl)).
Defined.

Lemma default_selection_shows_every_tagged_record_sample :
  well_formed untagged_table = true
  /\ @prepare sample_conversions untagged_table sample_generator
     = ([], Done untagged_prepared)
  /\ index (mkFrame (columns untagged_prepared)
              (filter (has_tags untagged_prepared) (rows untagged_prepared))) = [1]
  /\ exists o,
       @script sample_conversions untagged_table sample_generator untouched
       = (o, Done (mkFrame (columns untagged_prepared)
                     (filter (has_tags untagged_prepared) (rows untagged_prepared)))).
Proof.
  split; [reflexivity|]. split; [exact untagged_table_prepared|].
  split; [vm_compute; reflexivity|].
  exact (@default_selection_shows_every_tagged_record sample_conversions untagged_table
           sample_generator [] untagged_prepared eq_refl untagged_table_prepared).
Defined.

Lemma reordered_sectors :
  forall s, In s ["Fintech"; "SaaS"] <-> In s ["SaaS"; "Fintech"; "SaaS"].
Proof. intros s. simpl. tauto. Defined.

Lemma repeated_stage : forall s, In s ["Seed"] <-> In s ["Seed"; "Seed"].
Proof. intros s. simpl. tauto. Defined.

Lemma filter_reads_the_selections_as_sets_sample :
  (forall s, In s ["Fintech"; "SaaS"] <-> In s ["SaaS"; "Fintech"; "SaaS"])
  /\ (forall s, In s ["Seed"] <-> In s ["Seed"; "Seed"])
  /\ filtered_df sample_prepared ["Fintech"; "SaaS"] ["Seed"]
     = filtered_df sample_prepared ["SaaS"; "Fintech"; "SaaS"] ["Seed"; "Seed"].
Proof.
  split; [exact reordered_sectors|]. split; [exact repeated_stage|].
  exact (filter_reads_the_selections_as_sets sample_prepared
           ["Fintech"; "SaaS"] ["SaaS"; "Fintech"; "SaaS"] ["Seed"] ["Seed"; "Seed"]
           reordered_sectors repeated_stage).
Defined.

Lemma more_sectors : incl ["Fintech"] ["Fintech"; "Healthcare"].
Proof. intros s [<-|[]]. left. reflexivity. Defined.

Lemma more_stages : incl ["Seed"] ["Series A"; "Seed"].
Proof. intros s [<-|[]]. right. left. reflexivity. Defined.

Lemma wider_selection_returns_no_fewer_records_sample :
  well_formed sample_table = true
  /\ @prepare sample_conversions sample_table sample_generator = ([], Done sample_prepared)
  /\ incl ["Fintech"] ["Fintech"; "Healthcare"]
  /\ incl ["Seed"] ["Series A"; "Seed"]
  /\ index (frame_of (filtered_df sample_prepared ["Fintech"] ["Seed"])) = [0]
  /\ index (frame_of (filtered_df sample_prepared ["Fintech"; "Healthcare"]
                        ["Series A"; "Seed"])) = [0; 1]
  /\ exists o o' res res',
       filtered_df sample_prepared ["Fintech"] ["Seed"] = (o, Done res)
       /\ filtered_df sample_prepared ["Fintech"; "Healthcare"] ["Series A"; "Seed"]
          = (o', Done res')
       /\ incl (rows res) (rows res').
Proof.
  split; [reflexivity|]. split; [exact sample_table_prepared|].
  split; [exact more_sectors|]. split; [exact more_stages|].
  split; [vm_compute; reflexivity|]. split; [vm_compute; reflexivity|].
  exact (@wider_selection_returns_no_fewer_records sample_conversions sample_table
           sample_generator [] sample_prepared
           ["Fintech"] ["Fintech"; "Healthcare"] ["Seed"] ["Series A"; "Seed"]
           eq_refl sample_table_prepared more_sectors more_stages).
Defined.

Lemma loader_keeps_the_records_with_both_coordinates_sample :
  rectangular sample_header sample_records = true
  /\ @load sample_conversions (Table sample_header sample_records)
     = ([], Done sample_loaded)
  /\ index sample_loaded = [0; 1]
  /\ exists jlat jlon,
       positions "latitude" (map resolves_to sample_header) 0 = [jlat]
       /\ positions "longitude" (map resolves_to sample_header) 0 = [jlon]
       /\ index sample_loaded
          = filter (fun k => @numeric sample_conversions (field_at sample_records k jlat)
                             && @numeric sample_conversions (field_at sample_records k jlon))
                   (seq 0 (List.length sample_records))
       /\ forall k r, In (k, r) (rows sample_loaded) ->
            exists rec,
              nth_error sample_records k = Some rec
              /\ List.length r = List.length rec
              /\ forall j c, nth_error rec j = Some c ->
                   nth_error r j
                   = Some (if (j =? jlat)%nat || (j =? jlon)%nat
                           then @coerced sample_conversions c else c).
Proof.
  split; [reflexivity|]. split; [exact sample_table_loaded|].
  split; [reflexivity|].
  exact (@loader_keeps_the_records_with_both_coordinates sample_conversions
           sample_header sample_records [] sample_loaded eq_refl sample_table_loaded).
Defined.

Lemma sample_loaded_rect : rect sample_loaded.
Proof. repeat constructor. Defined.

Lemma sample_loaded_jittered :
  add_jitter sample_generator sample_loaded
  = ([], Done (fst sample_jittered, snd sample_jittered)).
Proof. vm_compute. reflexivity. Defined.

Lemma jitter_leaves_the_other_columns_alone_sample :
  rect sample_loaded
  /\ add_jitter sample_generator sample_loaded
     = ([], Done (fst sample_jittered, snd sample_jittered))
  /\ @nil element = []
  /\ index (fst sample_jittered) = index sample_loaded
  /\ forall c, ~ In c JITTER ->
       getitem (CFloat nan) (fst sample_jittered) c = getitem (CFloat nan) sample_loaded c.
Proof.
  split; [exact sample_loaded_rect|]. split; [exact sample_loaded_jittered|].
  exact (jitter_leaves_the_other_columns_alone sample_generator (snd sample_jittered)
           sample_loaded (fst sample_jittered) []
           sample_loaded_rect sample_loaded_jittered).
Defined.

Lemma sample_loaded_no_lat_jitter : ~ In "lat_jitter" (columns sample_loaded).
Proof. simpl. intros [H|[H|[H|[H|[H|[]]]]]]; discriminate H. Defined.

Lemma sample_loaded_no_lon_jitter : ~ In "lon_jitter" (columns sample_loaded).
Proof. simpl. intros [H|[H|[H|[H|[H|[]]]]]]; discriminate H. Defined.

Lemma jitter_adds_one_draw_to_each_coordinate_sample :
  rect sample_loaded
  /\ add_jitter sample_generator sample_loaded
     = ([], Done (fst sample_jittered, snd sample_jittered))
  /\ ~ In "lat_jitter" (columns sample_loaded)
  /\ ~ In "lon_jitter" (columns sample_loaded)
  /\ exists jlat jlon,
       positions "latitude" (columns sample_loaded) 0 = [jlat]
       /\ positions "longitude" (columns sample_loaded) 0 = [jlon]
       /\ columns (fst sample_jittered)
          = columns sample_loaded ++ ["lat_jitter"; "lon_jitter"]
       /\ len (fst sample_jittered) = len sample_loaded
       /\ (forall i k r,
             nth_error (rows sample_loaded) i = Some (k, r) ->
             exists lat lon,
               nth_error r jlat = Some (CFloat lat)
               /\ nth_error r jlon = Some (CFloat lon)
               /\ nth_error (rows (fst sample_jittered)) i
                  = Some (k, r ++ [CFloat (fadd lat (sample_generator i));
                                   CFloat (fadd lon (sample_generator
                                                       (len sample_loaded + i)))]))
       /\ forall i, snd sample_jittered i
                    = sample_generator (len sample_loaded + (len sample_loaded + i)).
Proof.
  split; [exact sample_loaded_rect|]. split; [exact sample_loaded_jittered|].
  split; [exact sample_loaded_no_lat_jitter|].
  split; [exact sample_loaded_no_lon_jitter|].
  exact (jitter_adds_one_draw_to_each_coordinate sample_generator (snd sample_jittered)
           sample_loaded (fst sample_jittered) []
           sample_loaded_rect sample_loaded_jittered
           sample_loaded_no_lat_jitter sample_loaded_no_lon_jitter).
Defined.

Lemma stageless_table_loaded (conv : Conversions) :
  @load conv stageless_table = ([], Done stageless_loaded).
Proof. vm_compute. reflexivity. Defined.

Lemma prepare_ends_as_the_tag_columns_decide_sample :
  well_formed stageless_table = true
  /\ @load keeping_conversions stageless_table = ([], Done stageless_loaded)
  /\ occurrences "Stage" (columns stageless_loaded) = 1
  /\ occurrences "Sector" (columns stageless_loaded) = 1
  /\ @parser_raises keeping_conversions stageless_loaded "Stage" = true
  /\ @prepare keeping_conversions stageless_table sample_generator
     = ([], Raised AttributeError)
  /\ @parser_raises sample_conversions stageless_loaded "Stage" = false
  /\ @parser_raises sample_conversions stageless_loaded "Sector" = false
  /\ exists df,
       @prepare sample_conversions stageless_table sample_generator = ([], Done df).
Proof.
  split; [reflexivity|]. split; [exact (stageless_table_loaded keeping_conversions)|].
  split; [reflexivity|]. split; [reflexivity|]. split; [reflexivity|]. split.
  - exact (proj1 (proj2 (proj2
             (@prepare_ends_as_the_tag_columns_decide keeping_conversions stageless_table
                sample_generator stageless_loaded eq_refl
                (stageless_table_loaded keeping_conversions))))
             eq_refl eq_refl).
  - split; [reflexivity|]. split; [reflexivity|].
    exact (proj2 (proj2 (proj2
             (proj2 (proj2 (proj2
                (@prepare_ends_as_the_tag_columns_decide sample_conversions stageless_table
                   sample_generator stageless_loaded eq_refl
                   (stageless_table_loaded sample_conversions))))
                eq_refl eq_refl)))
             eq_refl eq_refl).
Defined.

Lemma directory_table_prepared :
  @prepare sample_conversions directory_table sample_generator
  = ([], Done directory_prepared).
Proof. vm_compute. reflexivity. Defined.

Lemma directory_prepared_filtered :
  filtered_df directory_prepared ["Fintech"] ["Seed"] = ([], Done directory_filtered).
Proof. vm_compute. reflexivity. Defined.

Lemma table_needs_name_address_city_website_sample :
  well_formed directory_table = true
  /\ @prepare sample_conversions directory_table sample_generator
     = ([], Done directory_prepared)
  /\ filtered_df directory_prepared ["Fintech"] ["Seed"] = ([], Done directory_filtered)
  /\ ((exists c, In c REQUIRED_BY_TABLE /\ ~ In c (columns directory_prepared)
                 /\ table directory_filtered = ([], Raised (KeyError c)))
      \/ ((forall c, In c REQUIRED_BY_TABLE -> In c (columns directory_prepared))
          /\ exists t, table directory_filtered = ([], Done t)
                       /\ index t = index directory_filtered
                       /\ forall c, In c (columns t) <-> In c TABLE_COLUMNS)).
Proof.
  split; [reflexivity|]. split; [exact directory_table_prepared|].
  split; [exact directory_prepared_filtered|].
  exact (@table_needs_name_address_city_website sample_conversions directory_table
           sample_generator [] [] directory_prepared directory_filtered
           ["Fintech"] ["Seed"] eq_refl directory_table_prepared
           directory_prepared_filtered).
Defined.

Lemma directory_no_stage_str : ~ In "Stage_Str" (columns directory_prepared).
Proof.
  simpl. intros [H|[H|[H|[H|[H|[H|[H|[H|[H|[H|[]]]]]]]]]]]; discriminate H.
Defined.

Lemma directory_no_sector_str : ~ In "Sector_Str" (columns directory_prepared).
Proof.
  simpl. intros [H|[H|[H|[H|[H|[H|[H|[H|[H|[H|[]]]]]]]]]]]; discriminate H.
Defined.

Lemma table_shows_each_record_with_its_joined_tags_sample :
  well_formed directory_table = true
  /\ @prepare sample_conversions directory_table sample_generator
     = ([], Done directory_prepared)
  /\ filtered_df directory_prepared ["Fintech"] ["Seed"] = ([], Done directory_filtered)
  /\ positions "name" (columns directory_prepared) 0 = [0]
  /\ positions "Address" (columns directory_prepared) 0 = [1]
  /\ positions "City" (columns directory_prepared) 0 = [2]
  /\ positions "Website" (columns directory_prepared) 0 = [7]
  /\ ~ In "Stage_Str" (columns directory_prepared)
  /\ ~ In "Sector_Str" (columns directory_prepared)
  /\ exists t,
       table directory_filtered = ([], Done t)
       /\ columns t = TABLE_COLUMNS
       /\ List.length (rows t) = len directory_filtered
       /\ forall i k r,
            nth_error (rows directory_filtered) i = Some (k, r) ->
            exists sectors stages,
              value_field directory_filtered "Sector" (k, r) = Some (VList sectors)
              /\ value_field directory_filtered "Stage" (k, r) = Some (VList stages)
              /\ nth_error (rows t) i
                 = Some (k, [nth 0 r (VCell (CFloat nan));
                             nth 1 r (VCell (CFloat nan));
                             nth 2 r (VCell (CFloat nan));
                             VCell (CStr (PyStr.join ", " sectors));
                             VCell (CStr (PyStr.join ", " stages));
                             nth 7 r (VCell (CFloat nan))]).
Proof.
  split; [reflexivity|]. split; [exact directory_table_prepared|].
  split; [exact directory_prepared_filtered|].
  split; [reflexivity|]. split; [reflexivity|]. split; [reflexivity|].
  split; [reflexivity|].
  split; [exact directory_no_stage_str|]. split; [exact directory_no_sector_str|].
  exact (@table_shows_each_record_with_its_joined_tags sample_conversions directory_table
           sample_generator [] [] directory_prepared directory_filtered
           ["Fintech"] ["Seed"] 0 1 2 7 eq_refl directory_table_prepared
           directory_prepared_filtered eq_refl eq_refl eq_refl eq_refl
           directory_no_stage_str directory_no_sector_str).
Defined.

Lemma detail_shows_the_first_record_of_that_name_sample :
  positions "name" (columns directory_display) 0 = [0]
  /\ index directory_display = [0; 2]
  /\ (exists r after,
        rows directory_display = r :: after
        /\ fst r = 0
        /\ vc_info directory_display (CStr "Acme VC") = ([], Done (Row r)))
  /\ vc_info directory_display (CFloat nan) = ([], Done IndexError).
Proof.
  pose proof (detail_shows_the_first_record_of_that_name directory_display
                (CStr "Acme VC") 0 eq_refl) as [F [_ N]].
  split; [reflexivity|]. split; [reflexivity|]. split; [|exact N].
  eexists. eexists. split; [reflexivity|]. split; [reflexivity|].
  eapply (F []); [reflexivity | reflexivity | intros r' []].
Defined.



